(** * Energy-storage-report: chart extraction and dataset collation

    A shallow embedding of [src/esr/simple.py] (the page-side extraction
    script and [convert_to_dataframes]) and of [src/esr/collate.py]
    ([EsrCollater]), with the properties of the specification stated over it.

    Conventions of the embedding:
    - the coordinates and values of a chart point, which the code only
      compares and copies, are rationals [Q] (every finite double is
      one); the edges of a rectangle, which the script subtracts, are
      binary64 numbers, Rocq's primitive [float], so that a difference is
      rounded as the browser rounds it;
    - text is a [string] of bytes; case folding and the whitespace class
      are the ASCII ones;
    - a Python [dict] keyed by arbitrary text is a [gmap string _]; a dict
      or JS object with a fixed set of keys is a record whose optional keys
      are [option] fields;
    - code that can raise returns a [result];
    - a polars frame that is built but not evaluated is the [result] of
      its evaluation, a table or an error, carried as a value: building
      it raises nothing. *)

From Stdlib Require Import ZArith QArith Lia Bool.
From Stdlib Require Import String Ascii List Permutation Sorted.
From Stdlib Require Import DecimalString.
From Stdlib Require Import Floats.
From stdpp Require Import base option gmap strings list fin_maps.
Import ListNotations.

Close Scope Q_scope.
Local Open Scope string_scope.
Local Open Scope list_scope.

(** ** Results of code that can raise *)

Inductive result (E A : Type) : Type :=
| Ok (a : A)
| Err (e : E).
Arguments Ok {E A} a.
Arguments Err {E A} e.

Definition bind {E A B} (r : result E A) (k : A -> result E B) : result E B :=
  match r with
  | Ok a => k a
  | Err e => Err e
  end.

Fixpoint mapM {E A B} (f : A -> result E B) (l : list A) : result E (list B) :=
  match l with
  | [] => Ok []
  | a :: l' =>
      bind (f a) (fun b => bind (mapM f l') (fun bs => Ok (b :: bs)))
  end.

(** Strict comparison of rationals, as a boolean. *)
Definition Qltb (a b : Q) : bool := negb (Qle_bool b a).

(** ** Sorting by a key

    A stable insertion sort: [x] is placed before the first element that
    is not below it, so rows with equal keys keep their input order. *)

Section InsertionSort.
Context {A : Type} (leb : A -> A -> bool).

Fixpoint insert_sorted (a : A) (l : list A) : list A :=
  match l with
  | [] => [a]
  | b :: l' => if leb a b then a :: b :: l' else b :: insert_sorted a l'
  end.

Fixpoint sort_by (l : list A) : list A :=
  match l with
  | [] => []
  | a :: l' => insert_sorted a (sort_by l')
  end.

(** The order as a relation. *)
Definition le_of : A -> A -> Prop := fun a b => leb a b = true.
End InsertionSort.

(** * Part I: [simple.py] *)

Module Simple.

(** ** Values crossing the browser bridge *)

(** What a Highcharts point may hold in [x], [y] or [category]. *)
Inductive value : Type :=
| VNull
| VNum (q : Q)
| VStr (s : string).

(** The text [Date.prototype.toISOString] returns, kept as the time value
    (milliseconds since the epoch) it spells. *)
Inductive IsoString : Type := Iso (ms : Z).

(** A pandas [Timestamp], as the time value it holds. *)
Inductive Timestamp : Type := Ts (ms : Z).

(** [pd.to_datetime] on a text of [toISOString] that it parses. *)
Definition to_datetime (s : IsoString) : Timestamp :=
  match s with Iso ms => Ts ms end.

(** The texts it does not parse: [toISOString] spells a year beyond 9999
    with a sign and six digits, and on such a text the call raises. The
    first of these instants is that of year 10000. *)
Definition to_datetime_raises (s : IsoString) : bool :=
  match s with Iso ms => Z.leb 253402300800000 ms end.

Inductive js_error : Type :=
| RangeError (msg : string).

(** ** The point mapper of the extraction script (simple.py, 99-116) *)

(** A Highcharts point, as the script reads it: [category] is absent when
    [point.category === undefined]. *)
Record HcPoint : Type := mkHcPoint {
  hc_x : value;
  hc_y : value;
  hc_category : option value
}.

(** The [dataPoint] object the script builds, which reaches Python as a
    dict: keys [x] and [y] always, [datetime] and [category] when set. *)
Record Point : Type := mkPoint {
  x : value;
  y : value;
  datetime : option IsoString;
  category : option value
}.

Definition EPOCH_THRESHOLD : Q := 1000000000000 # 1.

(** [typeof point.x === 'number' && point.x > 1000000000000] *)
Definition exceeds_epoch_threshold (v : value) : bool :=
  match v with
  | VNum q => Qltb EPOCH_THRESHOLD q
  | _ => false
  end.

(** The largest time value of a valid [Date] (ECMAScript TimeClip). *)
Definition MAX_TIME_VALUE : Q := 8640000000000000 # 1.

(** [new Date(q).toISOString()] for a positive number [q]: the time value
    is [q] truncated to an integer; beyond the range of valid dates the
    call throws. *)
Definition toISOString (q : Q) : result js_error IsoString :=
  if Qle_bool q MAX_TIME_VALUE
  then Ok (Iso (Z.quot (Qnum q) (Z.pos (Qden q))))
  else Err (RangeError "Invalid time value").

Definition point_mapper (point : HcPoint) : result js_error Point :=
  let dataPoint := mkPoint (hc_x point) (hc_y point) None None in
  bind
    (if exceeds_epoch_threshold (hc_x point) then
       match hc_x point with
       | VNum q =>
           bind (toISOString q) (fun iso =>
             Ok (mkPoint (x dataPoint) (y dataPoint) (Some iso) (category dataPoint)))
       | _ => Ok dataPoint
       end
     else Ok dataPoint)
    (fun dataPoint =>
       match hc_category point with
       | Some c => Ok (mkPoint (x dataPoint) (y dataPoint) (datetime dataPoint) (Some c))
       | None => Ok dataPoint
       end).

(** ** Rows of [convert_to_dataframes] (simple.py, 163-180) *)

(** The [row] dict: [series_name] and [value] always, [datetime] or [x],
    and [category] when the point has one. *)
Record Row : Type := mkRow {
  row_series_name : string;
  row_value : value;
  row_datetime : option Timestamp;
  row_x : option value;
  row_category : option value
}.

Definition make_row (series_name : string) (point : Point) : Row :=
  let row := mkRow series_name (y point) None None None in
  let row :=
    match datetime point with
    | Some d => mkRow (row_series_name row) (row_value row)
                      (Some (to_datetime d)) (row_x row) (row_category row)
    | None => mkRow (row_series_name row) (row_value row)
                    (row_datetime row) (Some (x point)) (row_category row)
    end in
  match category point with
  | Some c => mkRow (row_series_name row) (row_value row)
                    (row_datetime row) (row_x row) (Some c)
  | None => row
  end.

(** Which of the two time fields a row carries. *)
Definition has_timestamp (r : Row) : bool :=
  match row_datetime r with Some _ => true | None => false end.
Definition has_ordinal (r : Row) : bool :=
  match row_x r with Some _ => true | None => false end.

(** ** The title matcher of the extraction script (simple.py, 49-86) *)

(** A [DOMRect], by the four edges the script reads; each is a JavaScript
    number, a binary64. *)
Record Rect : Type := mkRect {
  top : float;
  left : float;
  right : float;
  bottom : float
}.

Record TitleInfo : Type := mkTitleInfo {
  text : string;
  position : Rect;
  tagName : string;
  className : string
}.

(** An element of the page matched by the title selector. *)
Record Element : Type := mkElement {
  textContent : string;
  boundingClientRect : Rect;
  el_tagName : string;
  el_className : string
}.

Definition js_whitespace (c : ascii) : bool :=
  let n := nat_of_ascii c in
  (Nat.leb 9 n && Nat.leb n 13) || Nat.eqb n 32.

Fixpoint drop_whitespace (l : list ascii) : list ascii :=
  match l with
  | c :: l' => if js_whitespace c then drop_whitespace l' else l
  | [] => []
  end.

(** [String.prototype.trim] *)
Definition trim (s : string) : string :=
  string_of_list_ascii
    (rev (drop_whitespace (rev (drop_whitespace (list_ascii_of_string s))))).

(** The first loop of the script: an element is a title candidate when
    its trimmed text has more than 3 and fewer than 100 characters. *)
Definition collect_titles (titleElements : list Element) : list TitleInfo :=
  flat_map
    (fun el =>
       let text := trim (textContent el) in
       if negb (String.eqb text "")
          && Nat.ltb 3 (String.length text)
          && Nat.ltb (String.length text) 100
       then [mkTitleInfo text (boundingClientRect el)
                         (el_tagName el) (el_className el)]
       else [])
    titleElements.

(** ['Chart ' + chartIndex] *)
Definition fallback_title (chartIndex : nat) : string :=
  "Chart " ++ NilZero.string_of_uint (Nat.to_uint chartIndex).

(** [Math.min] and [Math.max] of two numbers: [NaN] when either is
    [NaN], and [-0] counts as below [+0]. *)
Definition Math_min (a b : float) : float :=
  if is_nan a || is_nan b then nan
  else if (a <? b)%float then a
  else if (b <? a)%float then b
  else if is_zero a && get_sign a then a else b.

Definition Math_max (a b : float) : float :=
  if is_nan a || is_nan b then nan
  else if (a <? b)%float then b
  else if (b <? a)%float then a
  else if is_zero a && get_sign a then b else a.

(** One call of the [result.titles.forEach] callback, on the pair
    [(bestTitle, bestDistance)]. The two differences are binary64
    subtractions, rounded to nearest. *)
Definition title_step (chartRect : Rect) (best : string * float)
    (titleInfo : TitleInfo) : string * float :=
  if (bottom (position titleInfo) <=? top chartRect)%float then
    let distance := (top chartRect - bottom (position titleInfo))%float in
    let horizontalOverlap :=
      (Math_min (right (position titleInfo)) (right chartRect)
       - Math_max (left (position titleInfo)) (left chartRect))%float in
    if (distance <? 200)%float && (0 <? horizontalOverlap)%float
       && (distance <? snd best)%float
    then (text titleInfo, distance)
    else best
  else best.

(** [bestTitle = 'Chart ' + chartIndex; bestDistance = Infinity] and the
    loop over the candidates. *)
Definition match_title (titles : list TitleInfo) (chartRect : Rect)
    (chartIndex : nat) : string * float :=
  fold_left (title_step chartRect) titles (fallback_title chartIndex, infinity).

Definition best_title (titles : list TitleInfo) (chartRect : Rect)
    (chartIndex : nat) : string :=
  fst (match_title titles chartRect chartIndex).

(** ** Charts and series (simple.py, 63-124) *)

Record HcSeries : Type := mkHcSeries {
  hs_name : option string;
  hs_index : nat;
  hs_type : string;
  hs_data : list HcPoint
}.

(** A live entry of [Highcharts.charts] with its container's rectangle. *)
Record HcChart : Type := mkHcChart {
  hc_container : Rect;
  hc_series : list HcSeries
}.

Record SeriesData : Type := mkSeriesData {
  name : string;
  type : string;
  data : list Point
}.

Record ChartData : Type := mkChartData {
  chartIndex : nat;
  title : string;
  chartPosition : Rect;
  series : list SeriesData
}.

(** [series.name || 'Series ' + series.index] *)
Definition series_name_of (s : HcSeries) : string :=
  match hs_name s with
  | Some n => if String.eqb n "" then
                "Series " ++ NilZero.string_of_uint (Nat.to_uint (hs_index s))
              else n
  | None => "Series " ++ NilZero.string_of_uint (Nat.to_uint (hs_index s))
  end.

Definition extract_series (s : HcSeries) : result js_error SeriesData :=
  bind (mapM point_mapper (hs_data s)) (fun pts =>
    Ok (mkSeriesData (series_name_of s) (hs_type s) pts)).

Definition extract_chart (titles : list TitleInfo) (chartIndex : nat)
    (chart : HcChart) : result js_error ChartData :=
  let chartRect := hc_container chart in
  let bestTitle := best_title titles chartRect chartIndex in
  bind (mapM extract_series (hc_series chart)) (fun ss =>
    Ok (mkChartData chartIndex bestTitle chartRect ss)).

(** [Highcharts.charts.forEach]: a slot may be empty (a destroyed chart);
    it is skipped but still counts in [chartIndex]. *)
Fixpoint extract_charts_from (titles : list TitleInfo) (chartIndex : nat)
    (charts : list (option HcChart)) : result js_error (list ChartData) :=
  match charts with
  | [] => Ok []
  | None :: rest => extract_charts_from titles (S chartIndex) rest
  | Some chart :: rest =>
      bind (extract_chart titles chartIndex chart) (fun c =>
        bind (extract_charts_from titles (S chartIndex) rest) (fun cs =>
          Ok (c :: cs)))
  end.

Definition extract_charts (titles : list TitleInfo)
    (charts : list (option HcChart)) : result js_error (list ChartData) :=
  extract_charts_from titles 0 charts.

(** The value the script returns: [{titles: ..., charts: ...}]. *)
Record ExtractedData : Type := mkExtractedData {
  titles : list TitleInfo;
  charts : list ChartData
}.

Definition extraction_script (titleElements : list Element)
    (highcharts : list (option HcChart)) : result js_error ExtractedData :=
  let titles := collect_titles titleElements in
  bind (extract_charts titles highcharts) (fun charts =>
    Ok (mkExtractedData titles charts)).

(** ** [convert_to_dataframes] (simple.py, 145-192)

    The function reads the [charts] entry of the script's result; it is
    given that list here, and is modelled on data all of whose instants
    [pd.to_datetime] parses, as those of the reports are. On an instant
    it refuses ([to_datetime_raises]) the function raises: that case is
    modelled where the function is called, in [read_single_day_data]. *)

(** A pandas frame built from row dicts: the rows in order, and the name
    of the column that serves as index ([None]: the default range index). *)
Record DataFrame : Type := mkDataFrame {
  df_index : option string;
  df_rows : list Row
}.

(** The two inner loops: [all_data.append(row)] for each point of each
    series, starting from the empty list. *)
Definition append_series (all_data : list Row) (s : SeriesData) : list Row :=
  fold_left (fun all_data point => all_data ++ [make_row (name s) point])
            (data s) all_data.

Definition all_data (chart : ChartData) : list Row :=
  fold_left append_series (series chart) [].

(** ['datetime' in df.columns]: the frame has the column as soon as one
    row has the key. *)
Definition has_datetime_column (rows : list Row) : bool :=
  existsb has_timestamp rows.

(** Order of the [datetime] index under [sort_index]: ascending, rows
    without a value ([NaT]) last. *)
Definition datetime_leb (r1 r2 : Row) : bool :=
  match row_datetime r1, row_datetime r2 with
  | Some (Ts a), Some (Ts b) => Z.leb a b
  | Some _, None => true
  | None, Some _ => false
  | None, None => true
  end.

(** [df.set_index('datetime').sort_index()] *)
Definition set_index_sort (rows : list Row) : DataFrame :=
  mkDataFrame (Some "datetime") (sort_by datetime_leb rows).

Definition build_frame (rows : list Row) : DataFrame :=
  if has_datetime_column rows then set_index_sort rows
  else mkDataFrame None rows.

Definition convert_chart (dataframes : gmap string DataFrame)
    (chart : ChartData) : gmap string DataFrame :=
  let chart_title := title chart in
  match all_data chart with
  | [] => dataframes
  | rows => <[chart_title := build_frame rows]> dataframes
  end.

Definition convert_to_dataframes (charts : list ChartData)
    : gmap string DataFrame :=
  fold_left convert_chart charts ∅.

End Simple.

(** * Part II: [collate.py] *)

Module Collate.

(** ** Enumerations (collate.py, 14-63) *)

Definition AS_ENUM : list string :=
  ["reg_down"; "reg_up"; "non_spin"; "spin"].

Definition BID_ENUM : list string :=
  ["[-$150,-$100]"; "(-$100,-$50]"; "(-$50,-$15]"; "(-$15, $0]";
   "($0, $15]"; "($15, $50]"; "($50, $100]"; "($100, $200]";
   "($200, $500]"; "($500, $1000]"; "($1000, $2000]"; "self_schedule"].

Definition ENERGY_ENUM : list string :=
  ["ifm"; "ruc"; "fmm"; "rtd"].

Definition OFFER_ENUM : list string :=
  ["self_schedule"; "[-$150,-$100]"; "(-$100,-$50]"; "(-$50,-$15]";
   "(-$15, $0]"; "($0, $15]"; "($15, $50]"; "($50, $100]";
   "($100, $200]"; "($200, $500]"; "($500, $1000]"; "($1000, $2000]"].

Definition SOC_ENUM : list string :=
  ["ifm"; "ruc"; "fmm"; "rtd"].

(** ** File-name patterns (collate.py, 72-81) *)

Definition FILE_PATTERNS : list (string * string) :=
  [ ("fmm_as_awards", "(\d{8})_FMM AS Awards.csv");
    ("fmm_bids", "(\d{8})_FMM Energy Bid In Capacity - Charge.csv");
    ("fmm_offers", "(\d{8})_FMM Energy Bid In Capacity - Discharge.csv");
    ("ifm_as_awards", "(\d{8})_IFM AS Awards.csv");
    ("ifm_bids", "(\d{8})_IFM Energy Bid In Capacity - Charge.csv");
    ("ifm_offers", "(\d{8})_IFM Energy Bid In Capacity - Discharge.csv");
    ("energy_awards", "(\d{8})_Total Energy Awards.csv");
    ("state_of_charge", "(\d{8})_Total State of Charge.csv") ].

(** [d[key]] on a dict written as its items in insertion order. *)
Fixpoint getitem {V : Type} (d : list (string * V)) (key : string) : option V :=
  match d with
  | [] => None
  | (k, v) :: d' => if String.eqb k key then Some v else getitem d' key
  end.

Definition keys {V : Type} (d : list (string * V)) : list string := map fst d.

(** The fragment of regular expressions the patterns are written in: a
    digit, any character but a newline, or one given character. *)
Inductive re_atom : Type :=
| Digit
| AnyChar
| Lit (c : ascii).

Definition digit_value (c : ascii) : nat := nat_of_ascii c - 48.

(** [re.compile]: a group only brackets, [\d{n}] is [n] digits, [.] is
    any character, every other character stands for itself. *)
Fixpoint re_compile (p : string) : list re_atom :=
  match p with
  | EmptyString => []
  | String "(" r => re_compile r
  | String ")" r => re_compile r
  | String "\" (String "d" (String "{" (String n (String "}" r)))) =>
      repeat Digit (digit_value n) ++ re_compile r
  | String "\" (String "d" r) => Digit :: re_compile r
  | String "." r => AnyChar :: re_compile r
  | String c r => Lit c :: re_compile r
  end.

Definition is_digit (c : ascii) : bool :=
  Nat.leb 48 (nat_of_ascii c) && Nat.leb (nat_of_ascii c) 57.

Definition atom_match (a : re_atom) (c : ascii) : bool :=
  match a with
  | Digit => is_digit c
  | AnyChar => negb (Ascii.eqb c "010")
  | Lit c' => Ascii.eqb c c'
  end.

(** [pattern.match(name)]: the pattern must match at the start of the
    name; what follows the match is free. *)
Fixpoint re_match (pattern : list re_atom) (s : string) : bool :=
  match pattern with
  | [] => true
  | a :: pattern' =>
      match s with
      | EmptyString => false
      | String c s' => atom_match a c && re_match pattern' s'
      end
  end.

(** ** Errors and file-system events *)

Inductive Root : Type := STORAGE_ROOT | HYBRID_ROOT.

(** The last three are raised by polars when a frame is evaluated. Their
    messages are polars' own; of the message of a failed cast the model
    keeps what it reports, the value that could not be cast. *)
Inductive error : Type :=
| ValueError (msg : string)
| AttributeError (attr : string)
| FileNotFoundError (root : Root)
| InvalidOperationError (value : string)
| SchemaError
| ColumnNotFoundError (column : string).

Inductive event : Type :=
| Iterdir (root : Root)
| ScanCsv (root : Root) (file_name : string).

(** ** Frames *)

(** One line of a per-day file with the four columns the formatters
    name, [datetime], [series_name], [value] and [category], as
    [simple.py] writes it for a time-indexed chart whose points have a
    category; the [datetime] cell holds an instant. A text or value cell
    that is empty is [None]: polars reads it as null. *)
Record CsvRow : Type := mkCsvRow {
  csv_datetime : Z;
  csv_series_name : option string;
  csv_value : option Q;
  csv_category : option string
}.

Definition CsvFile : Type := list CsvRow.

(** A row after [drop("category")]. *)
Record NamedRow : Type := mkNamedRow {
  nr_datetime : Z;
  nr_series_name : option string;
  nr_value : option Q
}.

(** A row of the canonical table: [timestamp], [market] or [service]
    (a category, or null), [volume]. *)
Record MetricRow : Type := mkMetricRow {
  timestamp : Z;
  dimension : option string;
  volume : option Q
}.

(** The table a frame evaluates to: its column names, the enumeration
    its second column is typed with, and its rows. A frame that is built
    but not yet evaluated is a [result error LazyFrame]: this table, or
    the error its evaluation raises. *)
Record LazyFrame : Type := mkLazyFrame {
  lf_columns : list string;
  lf_enum : list string;
  lf_rows : list MetricRow
}.

(** ** Expressions on the series name *)

Definition to_lower (c : ascii) : ascii :=
  let n := nat_of_ascii c in
  if Nat.leb 65 n && Nat.leb n 90 then ascii_of_nat (n + 32) else c.

(** [.str.to_lowercase()] *)
Fixpoint str_to_lowercase (s : string) : string :=
  match s with
  | EmptyString => EmptyString
  | String c s' => String (to_lower c) (str_to_lowercase s')
  end.

(** The class [\s]. *)
Definition is_whitespace (c : ascii) : bool :=
  let n := nat_of_ascii c in
  (Nat.leb 9 n && Nat.leb n 13) || Nat.eqb n 32.

(** [.str.replace(r"\s", "_")]: the first match only is replaced. *)
Fixpoint str_replace_whitespace (s : string) : string :=
  match s with
  | EmptyString => EmptyString
  | String c s' =>
      if is_whitespace c then String "_" s'
      else String c (str_replace_whitespace s')
  end.

(** [.replace({old: new})]: a value equal to [old] becomes [new], any
    other value stays. *)
Definition replace_value (old new : string) (s : string) : string :=
  if String.eqb s old then new else s.

Definition mem (s : string) (l : list string) : bool :=
  existsb (String.eqb s) l.

(** A text expression on a cell: null stays null. *)
Definition on_text (f : string -> string) (cell : option string)
    : option string :=
  match cell with
  | Some s => Some (f s)
  | None => None
  end.

(** [.cast(enum)], strict: a value that is no category of the
    enumeration fails the cast; null is cast to null. *)
Definition cast (enum : list string) (cell : option string)
    : result error (option string) :=
  match cell with
  | Some s => if mem s enum then Ok (Some s) else Err (InvalidOperationError s)
  | None => Ok None
  end.

(** ** The formatters (collate.py, 83-210) *)

Definition scan_csv (file : CsvFile) : list CsvRow := file.

Definition drop_category (rows : list CsvRow) : list NamedRow :=
  map (fun r => mkNamedRow (csv_datetime r) (csv_series_name r) (csv_value r))
      rows.

(** [.with_columns(pl.col("series_name")...)] *)
Definition with_series_name
    (expr : option string -> result error (option string))
    (rows : list NamedRow) : result error (list NamedRow) :=
  mapM (fun r =>
          bind (expr (nr_series_name r)) (fun s =>
            Ok (mkNamedRow (nr_datetime r) s (nr_value r))))
       rows.

(** [.rename({"datetime": "timestamp", "series_name": dim, "value": "volume"})] *)
Definition rename (dim : string) (enum : list string) (rows : list NamedRow)
    : LazyFrame :=
  mkLazyFrame ["timestamp"; dim; "volume"] enum
    (map (fun r => mkMetricRow (nr_datetime r) (nr_series_name r) (nr_value r))
         rows).

Definition format_energy_awards (file : CsvFile) : result error LazyFrame :=
  bind (with_series_name
          (fun cell => cast ENERGY_ENUM
                         (on_text str_replace_whitespace
                            (on_text str_to_lowercase cell)))
          (drop_category (scan_csv file)))
       (fun rows => Ok (rename "market" ENERGY_ENUM rows)).

Definition format_ifm_as_awards (file : CsvFile) : result error LazyFrame :=
  bind (with_series_name
          (fun cell => cast AS_ENUM
                         (on_text str_replace_whitespace
                            (on_text str_to_lowercase cell)))
          (drop_category (scan_csv file)))
       (fun rows => Ok (rename "service" AS_ENUM rows)).

Definition format_ifm_bids (file : CsvFile) : result error LazyFrame :=
  bind (with_series_name
          (fun cell => cast BID_ENUM
                         (on_text (replace_value "self schedule" "self_schedule")
                            (on_text str_to_lowercase cell)))
          (drop_category (scan_csv file)))
       (fun rows => Ok (rename "service" BID_ENUM rows)).

Definition format_ifm_offers (file : CsvFile) : result error LazyFrame :=
  bind (with_series_name
          (fun cell => cast OFFER_ENUM
                         (on_text (replace_value "self schedule" "self_schedule")
                            (on_text str_to_lowercase cell)))
          (drop_category (scan_csv file)))
       (fun rows => Ok (rename "service" OFFER_ENUM rows)).

Definition format_state_of_charge (file : CsvFile) : result error LazyFrame :=
  bind (with_series_name
          (fun cell => cast SOC_ENUM
                         (on_text (replace_value "self schedule" "self_schedule")
                            (on_text str_to_lowercase cell)))
          (drop_category (scan_csv file)))
       (fun rows => Ok (rename "market" SOC_ENUM rows)).

Definition format_fmm_as_awards (file : CsvFile) : result error LazyFrame :=
  format_ifm_as_awards file.

Definition format_fmm_bids (file : CsvFile) : result error LazyFrame :=
  format_ifm_bids file.

Definition format_fmm_offers (file : CsvFile) : result error LazyFrame :=
  format_ifm_offers file.

(** [getattr(self, attr)] on the methods of [EsrCollater]. *)
Definition getattr (attr : string)
    : result error (CsvFile -> result error LazyFrame) :=
  if String.eqb attr "format_energy_awards" then Ok format_energy_awards
  else if String.eqb attr "format_fmm_as_awards" then Ok format_fmm_as_awards
  else if String.eqb attr "format_fmm_bids" then Ok format_fmm_bids
  else if String.eqb attr "format_fmm_offers" then Ok format_fmm_offers
  else if String.eqb attr "format_ifm_as_awards" then Ok format_ifm_as_awards
  else if String.eqb attr "format_ifm_bids" then Ok format_ifm_bids
  else if String.eqb attr "format_ifm_offers" then Ok format_ifm_offers
  else if String.eqb attr "format_state_of_charge" then Ok format_state_of_charge
  else Err (AttributeError attr).

(** ** Concatenation and sort *)

Definition same_schema (a b : LazyFrame) : bool :=
  bool_decide (lf_columns a = lf_columns b)
  && bool_decide (lf_enum a = lf_enum b).

(** The evaluation of a vertical concatenation: the rows of the frames
    one after the other; frames whose schemas differ are refused (and so
    is an empty list, which [pl_concat] never passes). *)
Definition concat_vertical (frames : list LazyFrame) : result error LazyFrame :=
  match frames with
  | [] => Err (ValueError "cannot concat empty list")
  | f :: rest =>
      if forallb (same_schema f) rest
      then Ok (mkLazyFrame (lf_columns f) (lf_enum f)
                 (concat (map lf_rows frames)))
      else Err SchemaError
  end.

(** The rank of a category: its position in the enumeration. *)
Fixpoint category_index (enum : list string) (s : string) : nat :=
  match enum with
  | [] => 0
  | c :: enum' => if String.eqb c s then 0 else S (category_index enum' s)
  end.

(** The rank of a cell of the enumeration column: null first, then the
    categories. *)
Definition dimension_rank (enum : list string) (cell : option string) : nat :=
  match cell with
  | None => 0
  | Some s => S (category_index enum s)
  end.

(** Order on the key [(timestamp, market-or-service)]: by time, then by
    the rank of the category. *)
Definition key_leb (enum : list string) (r1 r2 : MetricRow) : bool :=
  Z.ltb (timestamp r1) (timestamp r2)
  || (Z.eqb (timestamp r1) (timestamp r2)
      && Nat.leb (dimension_rank enum (dimension r1))
                 (dimension_rank enum (dimension r2))).

(** The evaluation of [.sort(by)] for [by = ["timestamp", dim]]: both
    columns must exist; only they are compared. Rows with equal keys are
    left here in their input order; polars promises no order for them,
    and no property below relies on one except to exhibit two possible
    outcomes. *)
Definition sort (by_ : list string) (lf : LazyFrame) : result error LazyFrame :=
  match List.filter (fun c => negb (mem c (lf_columns lf))) by_ with
  | missing :: _ => Err (ColumnNotFoundError missing)
  | [] => Ok (mkLazyFrame (lf_columns lf) (lf_enum lf)
                (sort_by (key_leb (lf_enum lf)) (lf_rows lf)))
  end.

(** ** [collate] (collate.py, 218-252) *)

(** A directory: its entries in the order [iterdir] yields them, each a
    name and the file's lines; [None] when the directory is missing. *)
Definition FileSystem : Type := Root -> option (list (string * CsvFile)).

(** Computations that log file-system events and may raise. *)
Definition IO (A : Type) : Type := list event * result error A.

Definition ret {A} (a : A) : IO A := ([], Ok a).
Definition raise {A} (e : error) : IO A := ([], Err e).
Definition emit (ev : event) : IO unit := ([ev], Ok tt).
Definition lift {A} (r : result error A) : IO A := ([], r).

Definition bindIO {A B} (m : IO A) (k : A -> IO B) : IO B :=
  match m with
  | (log, Ok a) => let '(log', r) := k a in (log ++ log', r)
  | (log, Err e) => (log, Err e)
  end.

Notation "x <- m ;; k" := (bindIO m (fun x => k))
  (at level 100, m at next level, right associativity).

Definition iterdir (fs : FileSystem) (root : Root)
    : IO (list (string * CsvFile)) :=
  u <- emit (Iterdir root) ;;
  match fs root with
  | Some entries => ret entries
  | None => raise (FileNotFoundError root)
  end.

(** The loop over the directory, [frames] being the list built so far.
    A formatter builds a frame and raises nothing: the frame, with what
    its evaluation will give, goes to the list. *)
Fixpoint scan_matching (root : Root) (pattern : list re_atom)
    (formatter : CsvFile -> result error LazyFrame)
    (entries : list (string * CsvFile))
    (frames : list (result error LazyFrame))
    : IO (list (result error LazyFrame)) :=
  match entries with
  | [] => ret frames
  | (csv_name, csv) :: entries' =>
      if re_match pattern csv_name then
        u <- emit (ScanCsv root csv_name) ;;
        let lf := formatter csv in
        scan_matching root pattern formatter entries' (frames ++ [lf])
      else scan_matching root pattern formatter entries' frames
  end.

(** [pl.concat(frames, how="vertical")]: an empty list is refused at
    once; otherwise the call returns a frame, whose evaluation evaluates
    the given frames in order and puts their rows together. *)
Definition pl_concat (frames : list (result error LazyFrame))
    : IO (result error LazyFrame) :=
  match frames with
  | [] => raise (ValueError "cannot concat empty list")
  | _ :: _ => ret (bind (mapM (fun lf => lf) frames) concat_vertical)
  end.

Definition quote (s : string) : string := "'" ++ s ++ "'".

(** [collate] returns a frame that is not yet evaluated: an error of
    the evaluation is not raised here but by whoever evaluates the frame. *)
Definition collate (fs : FileSystem) (dtype : string) (btype : string)
    : IO (result error LazyFrame) :=
  pattern <-
    match getitem FILE_PATTERNS dtype with
    | Some pattern_str => ret (re_compile pattern_str)
    | None =>
        let valid := String.concat ", " (map quote (keys FILE_PATTERNS)) in
        raise (ValueError
                 (quote dtype ++ " is not a recognized dtype; must be one of "
                  ++ valid))
    end ;;
  root <-
    (if String.eqb btype "storage" then ret STORAGE_ROOT
     else if String.eqb btype "hybrid" then ret HYBRID_ROOT
     else raise (ValueError
                   (quote btype ++ " is not a recognized battery type; must be one of "
                    ++ "'storage' or 'hybrid'"))) ;;
  formatter <- lift (getattr ("format_" ++ dtype)) ;;
  entries <- iterdir fs root ;;
  frames <- scan_matching root pattern formatter entries [] ;;
  let by_ :=
    if String.eqb dtype "energy_awards" || String.eqb dtype "state_of_charge"
    then ["timestamp"; "market"]
    else ["timestamp"; "service"] in
  lf <- pl_concat frames ;;
  ret (bind lf (sort by_)).

End Collate.

(** * Part III: [simple.py], report URLs and the per-day files *)

Module Daily.
Import Simple.

(** ** Dates and [strftime] *)

(** The calendar fields of a pandas [Timestamp] the code reads. A
    timestamp has its year between 1677 and 2262, so [%Y] is four digits. *)
Record Date : Type := mkDate {
  year : nat;
  month : nat;
  day : nat
}.

(** [%b], in the C locale. *)
Definition month_abbr (m : nat) : string :=
  match m with
  | 1 => "Jan" | 2 => "Feb" | 3 => "Mar" | 4 => "Apr"
  | 5 => "May" | 6 => "Jun" | 7 => "Jul" | 8 => "Aug"
  | 9 => "Sep" | 10 => "Oct" | 11 => "Nov" | 12 => "Dec"
  | _ => ""
  end.

Definition digit_char (n : nat) : ascii := ascii_of_nat (48 + n mod 10).

(** [%d] and [%m]: two digits, zero-padded. *)
Definition two_digits (n : nat) : string :=
  String (digit_char (n / 10)) (String (digit_char n) EmptyString).

(** [%Y] *)
Definition four_digits (n : nat) : string :=
  String (digit_char (n / 1000)) (String (digit_char (n / 100)) (two_digits n)).

Definition directive (date : Date) (c : ascii) : string :=
  if Ascii.eqb c "b" then month_abbr (month date)
  else if Ascii.eqb c "d" then two_digits (day date)
  else if Ascii.eqb c "m" then two_digits (month date)
  else if Ascii.eqb c "Y" then four_digits (year date)
  else String "%" (String c EmptyString).

(** [date.strftime(fmt)] for the directives the code uses. *)
Fixpoint strftime (date : Date) (fmt : string) : string :=
  match fmt with
  | EmptyString => EmptyString
  | String "%" (String c fmt') => directive date c ++ strftime date fmt'
  | String c fmt' => String c (strftime date fmt')
  end.

Definition lower_char (c : ascii) : ascii :=
  let n := nat_of_ascii c in
  if Nat.leb 65 n && Nat.leb n 90 then ascii_of_nat (n + 32) else c.

(** [str.lower] *)
Fixpoint lower (s : string) : string :=
  match s with
  | EmptyString => EmptyString
  | String c s' => String (lower_char c) (lower s')
  end.

(** ** The URL formatters (simple.py, 196-241) *)

Definition ANOMALOUS_DATES : list (string * string) :=
  [ ("may-08-2025", "may-8-2025");
    ("jul-09-2025", "jul-9-2025") ].

(** [d.get(key, default)] *)
Fixpoint dict_get (d : list (string * string)) (key default : string) : string :=
  match d with
  | [] => default
  | (k, v) :: d' => if String.eqb k key then v else dict_get d' key default
  end.

Definition format_2022_url (date : Date) : string :=
  let date_str := lower (strftime date "%b%d-%Y") in
  let date_str := dict_get ANOMALOUS_DATES date_str date_str in
  "https://www.caiso.com/documents/"
  ++ "dailyenergystoragereport" ++ date_str ++ ".html".

Definition format_2023_url (date : Date) : string :=
  let date_str := lower (strftime date "%b%d-%Y") in
  let date_str := dict_get ANOMALOUS_DATES date_str date_str in
  "https://www.caiso.com/documents/"
  ++ "dailyenergystoragereport" ++ date_str ++ ".html".

Definition format_2025_url (date : Date) : string :=
  let date_str := lower (strftime date "%b-%d-%Y") in
  let date_str := dict_get ANOMALOUS_DATES date_str date_str in
  "https://www.caiso.com/documents/"
  ++ "daily-energy-storage-report-" ++ date_str ++ ".html".

Definition format_2024_url (date : Date) : string :=
  if Nat.ltb (month date) 5
     || (Nat.eqb (month date) 5 && Nat.ltb (day date) 24)
  then
    let date_str := lower (strftime date "%b%d-%Y") in
    let date_str := dict_get ANOMALOUS_DATES date_str date_str in
    "https://www.caiso.com/documents/"
    ++ "dailyenergystoragereport" ++ date_str ++ ".html"
  else
    if Nat.eqb (month date) 5 && Nat.leb 30 (day date)
    then
      let date_str := lower (strftime date "%b-%d%Y") in
      let date_str := dict_get ANOMALOUS_DATES date_str date_str in
      "https://www.caiso.com/documents/"
      ++ "daily-energy-storage-report-" ++ date_str ++ ".html"
    else format_2025_url date.

(** ** [extract_caiso_charts_with_titles] and [read_single_day_data]
    (simple.py, 11-143 and 243-270) *)

Inductive error : Type :=
| NotImplementedError (msg : string) (year : nat)
| SessionNotCreatedException (msg : string)
| WebDriverException (msg : string)
| JavascriptException (e : js_error)
| DateParseError (text : IsoString)
| OSError (file_name : string).

(** What happens outside the process; [ToCsv] is a file written. *)
Inductive event : Type :=
| ChromeStart
| Get (url : string)
| ExecuteScript
| Quit
| Mkdir (dir : string)
| ToCsv (file_name : string) (df : DataFrame).

(** A loaded page, as the script sees it: the elements the title selector
    matches, and [Highcharts.charts] when the library is there. *)
Record Page : Type := mkPage {
  titleElements : list Element;
  highcharts : option (list (option HcChart))
}.

(** The browser, for one run: [web url] is the page got by starting the
    browser, loading the URL and waiting for a chart container, or what
    was raised on the way. [SessionNotCreatedException] is raised by
    [webdriver.Chrome(...)], the start itself; any other error by the
    loading or the waiting (a timeout, a page that cannot be reached). *)
Definition Web : Type := string -> result error Page.

Definition IO (A : Type) : Type := list event * result error A.

Definition bindIO {A B} (m : IO A) (k : A -> IO B) : IO B :=
  match m with
  | (log, Ok a) => let '(log', r) := k a in (log ++ log', r)
  | (log, Err e) => (log, Err e)
  end.

(** [try: body finally: driver.quit()] *)
Definition finally_quit {A} (body : IO A) : IO A :=
  let '(log, r) := body in (log ++ [Quit], r).

(** The script on a page: without [Highcharts] no chart is looked for. *)
Definition run_script (page : Page) : result error ExtractedData :=
  let charts := match highcharts page with Some cs => cs | None => [] end in
  match extraction_script (titleElements page) charts with
  | Ok data => Ok data
  | Err e => Err (JavascriptException e)
  end.

(** The browser is started before the [try] block: when the start
    raises, nothing is loaded and [driver.quit()] is not reached. *)
Definition extract_caiso_charts_with_titles (web : Web) (url : string)
    : IO ExtractedData :=
  match web url with
  | Err (SessionNotCreatedException msg) =>
      ([ChromeStart], Err (SessionNotCreatedException msg))
  | loaded =>
      bindIO ([ChromeStart], Ok tt) (fun _ =>
        finally_quit
          (bindIO ([Get url], loaded) (fun page =>
             ([ExecuteScript], run_script page))))
  end.

(** The first instant of the data, in the order of the loops of
    [convert_to_dataframes], that [pd.to_datetime] refuses. *)
Definition refused_datetime (data : ExtractedData) : option IsoString :=
  find to_datetime_raises
       (omap datetime (flat_map Simple.data (flat_map series (charts data)))).

(** The keys of the dict of tables in the order a dict lists them, that
    of their first insertion; [seen] holds the keys stored so far. *)
Fixpoint stored_titles (charts : list ChartData) (seen : list string)
    : list string :=
  match charts with
  | [] => []
  | chart :: rest =>
      match all_data chart with
      | [] => stored_titles rest seen
      | _ :: _ =>
          if existsb (String.eqb (title chart)) seen
          then stored_titles rest seen
          else title chart :: stored_titles rest (title chart :: seen)
      end
  end.

(** [dfs_and_names.items()] *)
Definition items (charts : list ChartData) : list (string * DataFrame) :=
  let dataframes := convert_to_dataframes charts in
  omap (fun chart_title =>
          match dataframes !! chart_title with
          | Some df => Some (chart_title, df)
          | None => None
          end)
       (stored_titles charts []).

(** [convert_to_dataframes(data)] as the run calls it: it raises at the
    first instant [pd.to_datetime] refuses, and otherwise returns the dict
    of tables. *)
Definition convert (data : ExtractedData)
    : result error (list (string * DataFrame)) :=
  match refused_datetime data with
  | Some text => Err (DateParseError text)
  | None => Ok (items (charts data))
  end.

Definition TARGET_DIR : string := "esr_data/storage".

(** [TARGET_DIR / (date.strftime("%Y%m%d") + "_" + chart_title + ".csv")],
    relative to [TARGET_DIR]. *)
Definition csv_name (date : Date) (chart_title : string) : string :=
  strftime date "%Y%m%d" ++ "_" ++ chart_title ++ ".csv".

Fixpoint has_separator (s : string) : bool :=
  match s with
  | EmptyString => false
  | String c s' => Ascii.eqb c "/" || has_separator s'
  end.

(** [df.to_csv(file_name)] into the directory just created: a name with
    a path separator points into a directory below it, which nothing has
    created, and the call raises; any other name is written. *)
Definition to_csv (file_name : string) (df : DataFrame) : IO unit :=
  if has_separator file_name then ([], Err (OSError file_name))
  else ([ToCsv file_name df], Ok tt).

(** The loop over [dfs_and_names.items()]. *)
Fixpoint write_tables (date : Date) (items : list (string * DataFrame))
    : IO unit :=
  match items with
  | [] => ([], Ok tt)
  | (chart_title, df) :: rest =>
      bindIO (to_csv (csv_name date chart_title) df) (fun _ =>
        write_tables date rest)
  end.

Definition read_single_day_data (web : Web) (date : Date) : IO unit :=
  bindIO
    (if Nat.eqb (year date) 2025 then ([], Ok (format_2025_url date))
     else if Nat.eqb (year date) 2024 then ([], Ok (format_2024_url date))
     else if Nat.eqb (year date) 2023 then ([], Ok (format_2023_url date))
     else if Nat.eqb (year date) 2022 then ([], Ok (format_2023_url date))
     else ([], Err (NotImplementedError "year =" (year date))))
    (fun url =>
       bindIO (extract_caiso_charts_with_titles web url) (fun data =>
         bindIO ([], convert data) (fun dfs_and_names =>
           bindIO ([Mkdir TARGET_DIR], Ok tt) (fun _ =>
             write_tables date dfs_and_names)))).

End Daily.

(** * Part IV: [collate.py], the export of every metric kind *)

Module CollateMain.
Import Collate.

(** What the export does outside the process: the events of each
    [collate], and one [sink_parquet] call per frame, with what the
    evaluation of the frame gives. *)
Inductive main_event : Type :=
| Mkdir (dir : string)
| Collating (ev : event)
| SinkParquet (file_name : string) (lf : result error LazyFrame).

Definition SINK : string := "data/formatted/storage".

(** [lf.sink_parquet(path)]: the frame is evaluated and its table
    written; an error of the evaluation is raised by this call. *)
Definition sink_parquet (file_name : string) (lf : result error LazyFrame)
    : list main_event * result error unit :=
  ([SinkParquet file_name lf], bind lf (fun _ => Ok tt)).

(** The loop [for dtype in col.FILE_PATTERNS.keys()], with the default
    [btype]; an exception of [collate] or of [sink_parquet] ends it. *)
Fixpoint export (fs : FileSystem) (dtypes : list string)
    : list main_event * result error unit :=
  match dtypes with
  | [] => ([], Ok tt)
  | dtype :: dtypes' =>
      match collate fs dtype "storage" with
      | (log, Err e) => (map Collating log, Err e)
      | (log, Ok lf) =>
          match sink_parquet (dtype ++ ".parquet") lf with
          | (sink, Err e) => (map Collating log ++ sink, Err e)
          | (sink, Ok _) =>
              let '(log', r) := export fs dtypes' in
              (map Collating log ++ sink ++ log', r)
          end
      end
  end.

Definition main (fs : FileSystem) : list main_event * result error unit :=
  let '(log, r) := export fs (keys FILE_PATTERNS) in
  (Mkdir SINK :: log, r).

End CollateMain.

(** * Part V: the notions of the specification *)

(** ** The conditions on a title candidate *)

Section TitleMatcherSpec.
Import Simple.

Variable chartRect : Rect.

(** The three conditions of the specification on a candidate. The gap
    and the overlap are the numbers the script computes: differences of
    binary64 edges, rounded to nearest. *)
Definition bottom_above_top (t : TitleInfo) : Prop :=
  (bottom (position t) <=? top chartRect)%float = true.

Definition vertical_gap (t : TitleInfo) : float :=
  (top chartRect - bottom (position t))%float.

(** [max(0, min(chart.right, title.right) - max(chart.left, title.left))] *)
Definition horizontal_overlap (t : TitleInfo) : float :=
  Math_max 0 (Math_min (right chartRect) (right (position t))
              - Math_max (left chartRect) (left (position t)))%float.

Definition qualifies (t : TitleInfo) : Prop :=
  bottom_above_top t /\
  (vertical_gap t <? 200)%float = true /\
  (0 <? horizontal_overlap t)%float = true.

(** The guard of the callback, without the comparison to the best so far. *)
Definition qualifiesb (t : TitleInfo) : bool :=
  (bottom (position t) <=? top chartRect)%float
  && (vertical_gap t <? 200)%float
  && (0 <? Math_min (right (position t)) (right chartRect)
           - Math_max (left (position t)) (left chartRect))%float.

(** What the pair [(bestTitle, bestDistance)] is after a prefix of the
    candidates: untouched while no candidate of the prefix qualifies,
    else the first of the qualifying candidates with the least gap. *)
Definition matcher_state (fallback : string) (seen : list TitleInfo)
    (best : string * float) : Prop :=
  (best = (fallback, infinity) /\
   forall t, In t seen -> qualifiesb t = false) \/
  (exists i t,
     seen !! i = Some t /\ qualifiesb t = true /\
     best = (text t, vertical_gap t) /\
     forall j t', seen !! j = Some t' -> qualifiesb t' = true ->
       (vertical_gap t <=? vertical_gap t')%float = true /\
       (j < i -> (vertical_gap t <? vertical_gap t')%float = true)).

End TitleMatcherSpec.

(** ** The flattened rows of a chart *)

Section ChartRowsSpec.
Import Simple.

(** The rows of one series, point by point. *)
Definition series_rows (s : SeriesData) : list Row :=
  map (make_row (name s)) (data s).

(** The flattened sequence of the specification: the rows of the first
    series, then those of the second, and so on. *)
Definition flattened (chart : ChartData) : list Row :=
  concat (map series_rows (series chart)).

(** Where the row of point [j] of series [i] stands in that sequence. *)
Definition row_position (chart : ChartData) (i j : nat) : nat :=
  length (concat (map series_rows (take i (series chart)))) + j.

(** The table [convert_to_dataframes] stores for a chart with rows. *)
Definition chart_table (chart : ChartData) : DataFrame :=
  build_frame (all_data chart).

Definition datetime_le : Row -> Row -> Prop := le_of datetime_leb.

(** Two series sampled at the same two instants. *)
Definition two_series_chart : ChartData :=
  let t1 := Iso 1700000000000 in
  let t2 := Iso 1700003600000 in
  let pt (ms : Z) (t : IsoString) (v : Q) :=
    mkPoint (VNum (inject_Z ms)) (VNum v) (Some t) None in
  mkChartData 0 "Total Energy Awards" (mkRect 0 0 0 0)
    [ mkSeriesData "IFM" "line"
        [pt 1700000000000%Z t1 (10 # 1)%Q; pt 1700003600000%Z t2 (11 # 1)%Q];
      mkSeriesData "RTD" "line"
        [pt 1700000000000%Z t1 (20 # 1)%Q; pt 1700003600000%Z t2 (21 # 1)%Q] ].

End ChartRowsSpec.

(** ** Tables by title *)

Section TablesByTitleSpec.
Import Simple.

(** The guard [if all_data:] of [convert_to_dataframes]. *)
Definition has_rows (chart : ChartData) : bool :=
  match all_data chart with [] => false | _ :: _ => true end.

(** The last chart, in extraction order, that bears title [t] and has at
    least one row. *)
Definition last_titled (t : string) (charts : list ChartData) : option ChartData :=
  find (fun c => bool_decide (title c = t) && has_rows c) (rev charts).





(** Two charts under the same heading, one point each. *)
Definition first_shared_chart : ChartData :=
  mkChartData 0 "Total Energy Awards" (mkRect 0 0 0 0)
    [mkSeriesData "IFM" "line" [mkPoint (VNum 0) (VNum (10 # 1)) None None]].

Definition second_shared_chart : ChartData :=
  mkChartData 1 "Total Energy Awards" (mkRect 0 0 0 0)
    [mkSeriesData "RTD" "line" [mkPoint (VNum 0) (VNum (20 # 1)) None None]].

End TablesByTitleSpec.

(** ** Messages of configuration errors *)

Section CollateConfigurationSpec.
Import Collate.

(** [needle] occurs in [msg]. *)
Definition mentions (needle msg : string) : Prop :=
  exists before after, msg = (before ++ needle ++ after)%string.

Definition dtype_message (dtype : string) : string :=
  "'" ++ dtype ++ "' is not a recognized dtype; must be one of "
  ++ "'fmm_as_awards', 'fmm_bids', 'fmm_offers', 'ifm_as_awards', "
  ++ "'ifm_bids', 'ifm_offers', 'energy_awards', 'state_of_charge'".

Definition btype_message (btype : string) : string :=
  "'" ++ btype ++ "' is not a recognized battery type; must be one of "
  ++ "'storage' or 'hybrid'".

End CollateConfigurationSpec.

(** ** The parser, kind by kind *)

Section MetricFileParserSpec.
Import Collate.

(** [parse(metric_kind, file)]: the formatter [collate] selects by name,
    applied to the file. *)
Definition parse (dtype : string) (file : CsvFile) : result error LazyFrame :=
  bind (getattr ("format_" ++ dtype)) (fun formatter => formatter file).

(** The two normalizations found in the formatters. *)
Definition normalize_awards (s : string) : string :=
  str_replace_whitespace (str_to_lowercase s).

Definition normalize_bins (s : string) : string :=
  replace_value "self schedule" "self_schedule" (str_to_lowercase s).

(** The kinds whose formatter replaces whitespace. *)
Definition awards_kind (dtype : string) : bool :=
  mem dtype ["energy_awards"; "ifm_as_awards"; "fmm_as_awards"].

Definition normalization (dtype : string) : string -> string :=
  if awards_kind dtype then normalize_awards else normalize_bins.

Definition enumeration (dtype : string) : list string :=
  if String.eqb dtype "energy_awards" then ENERGY_ENUM
  else if String.eqb dtype "state_of_charge" then SOC_ENUM
  else if mem dtype ["ifm_as_awards"; "fmm_as_awards"] then AS_ENUM
  else if mem dtype ["ifm_bids"; "fmm_bids"] then BID_ENUM
  else OFFER_ENUM.

Definition dimension_name (dtype : string) : string :=
  if mem dtype ["energy_awards"; "state_of_charge"] then "market" else "service".

(** The normalized name of a line; null for an empty cell. *)
Definition normalized (dtype : string) (r : CsvRow) : option string :=
  on_text (normalization dtype) (csv_series_name r).

(** A cell is outside an enumeration when it holds a text that is none
    of the categories; a null cell is not. *)
Definition outside (enum : list string) (cell : option string) : bool :=
  match cell with
  | Some s => negb (mem s enum)
  | None => false
  end.

(** The table of a file none of whose names is outside the enumeration. *)
Definition metric_table (dtype : string) (file : CsvFile) : LazyFrame :=
  mkLazyFrame ["timestamp"; dimension_name dtype; "volume"] (enumeration dtype)
    (map (fun r => mkMetricRow (csv_datetime r) (normalized dtype r) (csv_value r))
         file).

(** The first line whose normalized name is no category. *)
Definition first_offending (dtype : string) (file : CsvFile) : option CsvRow :=
  find (fun r => outside (enumeration dtype) (normalized dtype r)) file.

(** The text of a cell; none for a null cell. *)
Definition cell_text (cell : option string) : string :=
  match cell with
  | Some s => s
  | None => ""
  end.

(** The cell is null or a category. *)
Definition null_or_category (enum : list string) (cell : option string) : Prop :=
  forall c, cell = Some c -> In c enum.

End MetricFileParserSpec.

(** ** The normalization of the specification *)

Section MetricFileParserClaimsSpec.
Import Collate.

(** Whitespace to underscore, everywhere in the text. *)
Fixpoint str_replace_all_whitespace (s : string) : string :=
  match s with
  | EmptyString => EmptyString
  | String c s' =>
      String (if is_whitespace c then "_"%char else c)
             (str_replace_all_whitespace s')
  end.

(** The normalization the specification describes. *)
Definition spec_normalize (s : string) : string :=
  str_replace_all_whitespace (str_to_lowercase s).

Fixpoint whitespace_count (s : string) : nat :=
  match s with
  | EmptyString => 0
  | String c s' => (if is_whitespace c then 1 else 0) + whitespace_count s'
  end.

(** The claim of the specification: whatever the kind, the second column
    of the table holds the names normalized that way. *)
Definition uniform_normalization : Prop :=
  forall dtype file lf,
    In dtype (keys FILE_PATTERNS) ->
    parse dtype file = Ok lf ->
    map dimension (lf_rows lf)
    = map (fun r => on_text spec_normalize (csv_series_name r)) file.

(** What an error tells its reader: the text it carries. *)
Definition error_text (e : error) : string :=
  match e with
  | ValueError msg => msg
  | AttributeError attr => attr
  | InvalidOperationError value => value
  | ColumnNotFoundError column => column
  | FileNotFoundError _ | SchemaError => ""
  end.

(** The claim of the specification on the error of a failed cast: it
    names every category of the kind's enumeration. *)
Definition names_valid_domain : Prop :=
  forall dtype file r s,
    In dtype (keys FILE_PATTERNS) ->
    In r file -> csv_series_name r = Some s ->
    ~ In (normalization dtype s) (enumeration dtype) ->
    exists e,
      parse dtype file = Err e /\
      forall c, In c (enumeration dtype) -> mentions c (error_text e).

End MetricFileParserClaimsSpec.

(** ** The pieces of a collation *)

Section CollateRunSpec.
Import Collate.

(** The directory [collate] scans for a battery type. *)
Definition root_of (btype : string) : option Root :=
  if String.eqb btype "storage" then Some STORAGE_ROOT
  else if String.eqb btype "hybrid" then Some HYBRID_ROOT
  else None.

(** The columns [collate] sorts by. *)
Definition sort_columns (dtype : string) : list string :=
  ["timestamp"; dimension_name dtype].

(** The files of a directory whose name matches, in directory order. *)
Definition matching_files (pattern : list re_atom)
    (entries : list (string * CsvFile)) : list CsvFile :=
  map snd (List.filter (fun e => re_match pattern (fst e)) entries).

End CollateRunSpec.

(** ** Listing order *)

Section CollateOrderSpec.
Import Collate.

(** Two states of the disk that hold the same files, listed in any order. *)
Definition same_directory_contents (fs1 fs2 : FileSystem) : Prop :=
  forall root,
    match fs1 root, fs2 root with
    | Some entries1, Some entries2 => Permutation entries1 entries2
    | None, None => True
    | _, _ => False
    end.

(** The order of the sort, as a relation. *)
Definition key_le (enum : list string) : MetricRow -> MetricRow -> Prop :=
  le_of (key_leb enum).

(** The dataset [collate] stands for: what evaluating the frame it
    returns gives, or the error [collate] raised. *)
Definition collected (run : IO (result error LazyFrame))
    : result error LazyFrame :=
  bind (snd run) (fun lf => lf).

(** Rows that agree on [(timestamp, market-or-service)] agree on the volume. *)
Definition key_determines_row (rows : list MetricRow) : Prop :=
  forall r r', In r rows -> In r' rows ->
    timestamp r = timestamp r' -> dimension r = dimension r' ->
    volume r = volume r'.

(** The claim of the specification: listing the same parseable files in
    another order gives the same dataset. *)
Definition order_independent : Prop :=
  forall fs1 fs2 dtype btype d1,
    same_directory_contents fs1 fs2 ->
    collected (collate fs1 dtype btype) = Ok d1 ->
    collected (collate fs2 dtype btype) = Ok d1.

End CollateOrderSpec.

(** ** Two days sharing an instant *)

Section CollateOrderClaimsSpec.
Import Collate.

(** Two days of state of charge whose files both hold the instant of
    midnight between them, with different volumes. *)
Definition midnight : Z := 1735776000000000.

Definition first_day : CsvFile :=
  [mkCsvRow 1735732800000000 (Some "IFM") (Some (40 # 1)%Q) (Some "IFM");
   mkCsvRow midnight (Some "IFM") (Some (55 # 1)%Q) (Some "IFM")].

Definition second_day : CsvFile :=
  [mkCsvRow midnight (Some "IFM") (Some (56 # 1)%Q) (Some "IFM");
   mkCsvRow 1735819200000000 (Some "IFM") (Some (70 # 1)%Q) (Some "IFM")].

Definition listed_first_then_second : FileSystem := fun root =>
  match root with
  | STORAGE_ROOT =>
      Some [("20250101_Total State of Charge.csv", first_day);
            ("20250102_Total State of Charge.csv", second_day)]
  | HYBRID_ROOT => None
  end.

Definition listed_second_then_first : FileSystem := fun root =>
  match root with
  | STORAGE_ROOT =>
      Some [("20250102_Total State of Charge.csv", second_day);
            ("20250101_Total State of Charge.csv", first_day)]
  | HYBRID_ROOT => None
  end.

(** A third day, sharing no instant with the first. *)
Definition third_day : CsvFile :=
  [mkCsvRow 1735905600000000 (Some "RTD") (Some (12 # 1)%Q) (Some "RTD");
   mkCsvRow 1735905600000000 (Some "IFM") (Some (80 # 1)%Q) (Some "IFM")].

Definition listed_first_then_third : FileSystem := fun root =>
  match root with
  | STORAGE_ROOT =>
      Some [("20250101_Total State of Charge.csv", first_day);
            ("20250103_Total State of Charge.csv", third_day)]
  | HYBRID_ROOT => None
  end.

Definition listed_third_then_first : FileSystem := fun root =>
  match root with
  | STORAGE_ROOT =>
      Some [("20250103_Total State of Charge.csv", third_day);
            ("20250101_Total State of Charge.csv", first_day)]
  | HYBRID_ROOT => None
  end.

End CollateOrderClaimsSpec.

(** ** Their dataset *)

Section CollateOrderWitnessSpec.
Import Collate.

(** The dataset of the two days listed in date order. *)
Definition two_days_dataset : LazyFrame :=
  mkLazyFrame ["timestamp"; "market"; "volume"] ["ifm"; "ruc"; "fmm"; "rtd"]
    [mkMetricRow 1735732800000000 (Some "ifm") (Some (40 # 1)%Q);
     mkMetricRow midnight (Some "ifm") (Some (55 # 1)%Q);
     mkMetricRow midnight (Some "ifm") (Some (56 # 1)%Q);
     mkMetricRow 1735819200000000 (Some "ifm") (Some (70 # 1)%Q)].

End CollateOrderWitnessSpec.

(** ** Sorts that read the key columns only *)

Section KeyOnlySortSpec.
Import Collate.

(** [argsort] maps the keys, in input order, to the input positions in
    output order. *)
Variable argsort : list (Z * option string) -> list nat.

(** The two columns [collate] sorts by. *)
Definition row_key (r : MetricRow) : Z * option string :=
  (timestamp r, dimension r).

(** The rows taken in the order [argsort] gives for their keys. *)
Definition sort_rows_with (rows : list MetricRow) : list MetricRow :=
  omap (fun i => rows !! i) (argsort (map row_key rows)).

End KeyOnlySortSpec.

(** ** Report dates and their URLs *)

Section DailySpec.
Import Simple Daily.

(** A calendar date in the range of pandas timestamps. *)
Definition valid_date (d : Date) : Prop :=
  1 <= month d <= 12 /\ 1 <= day d <= 31 /\ 1677 <= year d <= 2262.

(** The three spellings of a date found in the URLs: [may08-2025],
    [may-302024] and [may-08-2025]. *)
Definition compact_date (d : Date) : string :=
  lower (month_abbr (month d)) ++ two_digits (day d) ++ "-" ++ four_digits (year d).

Definition joined_date (d : Date) : string :=
  lower (month_abbr (month d)) ++ "-" ++ two_digits (day d) ++ four_digits (year d).

Definition dashed_date (d : Date) : string :=
  lower (month_abbr (month d)) ++ "-" ++ two_digits (day d) ++ "-"
  ++ four_digits (year d).

Definition old_prefix : string :=
  "https://www.caiso.com/documents/dailyenergystoragereport".

Definition new_prefix : string :=
  "https://www.caiso.com/documents/daily-energy-storage-report-".

(** The URL [read_single_day_data] asks for, by year. *)
Definition resolve_url (d : Date) : option string :=
  if Nat.eqb (year d) 2025 then Some (format_2025_url d)
  else if Nat.eqb (year d) 2024 then Some (format_2024_url d)
  else if Nat.eqb (year d) 2023 then Some (format_2023_url d)
  else if Nat.eqb (year d) 2022 then Some (format_2023_url d)
  else None.

(** [d] is the day [dd] of month [m] of year [y]. *)
Definition is_date (d : Date) (y m dd : nat) : bool :=
  Nat.eqb (year d) y && Nat.eqb (month d) m && Nat.eqb (day d) dd.

(** The [to_csv] calls of a log, as (file name, table) pairs. *)
Definition written (log : list event) : list (string * DataFrame) :=
  flat_map (fun ev => match ev with ToCsv n df => [(n, df)] | _ => [] end) log.

(** The heading of the chart each metric kind is collated from, as the
    file-name patterns of [collate.py] spell it. *)
Definition CHART_TITLES : list (string * string) :=
  [ ("fmm_as_awards", "FMM AS Awards");
    ("fmm_bids", "FMM Energy Bid In Capacity - Charge");
    ("fmm_offers", "FMM Energy Bid In Capacity - Discharge");
    ("ifm_as_awards", "IFM AS Awards");
    ("ifm_bids", "IFM Energy Bid In Capacity - Charge");
    ("ifm_offers", "IFM Energy Bid In Capacity - Discharge");
    ("energy_awards", "Total Energy Awards");
    ("state_of_charge", "Total State of Charge") ].

(** A report page with one heading above one chart of one series. *)
Definition sample_page : Page :=
  mkPage
    [mkElement " Total State of Charge " (mkRect 0 0 100 50) "H2" ""]
    (Some [Some (mkHcChart (mkRect 100 0 100 300)
                   [mkHcSeries (Some "IFM") 0 "line"
                      [mkHcPoint (VNum (1700000000000 # 1)) (VNum (25 # 2)) None]])]).

Definition sample_data : ExtractedData :=
  mkExtractedData
    [mkTitleInfo "Total State of Charge" (mkRect 0 0 100 50) "H2" ""]
    [mkChartData 0 "Total State of Charge" (mkRect 100 0 100 300)
       [mkSeriesData "IFM" "line"
          [mkPoint (VNum (1700000000000 # 1)) (VNum (25 # 2))
                   (Some (Iso 1700000000000)) None]]].

End DailySpec.

(** ** Chart slots *)

Section ExtractionSpec.
Import Simple.

(** The live entries of [Highcharts.charts] from slot [i] on, each with
    its slot number. *)
Fixpoint live_slots_from (i : nat) (slots : list (option HcChart))
    : list (nat * HcChart) :=
  match slots with
  | [] => []
  | None :: rest => live_slots_from (S i) rest
  | Some chart :: rest => (i, chart) :: live_slots_from (S i) rest
  end.

(** What the script returns for one series and for one live slot. *)
Definition series_extracted (hs : HcSeries) (s : SeriesData) : Prop :=
  name s = series_name_of hs /\ type s = hs_type hs /\
  mapM point_mapper (hs_data hs) = Ok (data s).

Definition chart_extracted (titles : list TitleInfo) (slot : nat * HcChart)
    (c : ChartData) : Prop :=
  chartIndex c = fst slot /\
  title c = best_title titles (hc_container (snd slot)) (fst slot) /\
  chartPosition c = hc_container (snd slot) /\
  Forall2 series_extracted (hc_series (snd slot)) (series c).

(** A point whose [x] no [Date] can hold. *)
Definition beyond_last_date (p : HcPoint) : Prop :=
  exists q, hc_x p = VNum q /\ (MAX_TIME_VALUE < q)%Q.

End ExtractionSpec.

(** ** File names, files and exports *)

Section CollateFurtherSpec.
Import Collate.

(** Two patterns that ask for different characters at one position. *)
Fixpoint patterns_clash (p1 p2 : list re_atom) : bool :=
  match p1, p2 with
  | Lit a :: p1', Lit b :: p2' => negb (Ascii.eqb a b) || patterns_clash p1' p2'
  | _ :: p1', _ :: p2' => patterns_clash p1' p2'
  | _, _ => false
  end.

(** The rows of a table written back as lines of a file, the series name
    being the category; [cat] fills the column that is dropped on reading. *)
Definition to_csv_rows (cat : option string) (lf : LazyFrame) : CsvFile :=
  map (fun r => mkCsvRow (timestamp r) (dimension r) (volume r) cat) (lf_rows lf).

(** Two files that agree line by line on the instant, on the value, and
    on the series name up to the case of its letters. *)
Definition same_up_to_case (file file' : CsvFile) : Prop :=
  Forall2 (fun r r' =>
             csv_datetime r = csv_datetime r' /\
             on_text str_to_lowercase (csv_series_name r)
             = on_text str_to_lowercase (csv_series_name r') /\
             csv_value r = csv_value r')
          file file'.

(** The names of a directory that match, in listing order. *)
Definition matching_names (pattern : list re_atom)
    (entries : list (string * CsvFile)) : list string :=
  map fst (List.filter (fun e => re_match pattern (fst e)) entries).

(** The files [sink_parquet] was called for, in order. *)
Definition attempted (log : list CollateMain.main_event) : list string :=
  flat_map (fun ev => match ev with
                      | CollateMain.SinkParquet n _ => [n]
                      | _ => []
                      end) log.

(** The calls of [sink_parquet] that went through, each with the dataset
    it wrote: those whose frame evaluated to a table. *)
Definition sunk (log : list CollateMain.main_event) : list (string * LazyFrame) :=
  flat_map (fun ev => match ev with
                      | CollateMain.SinkParquet n (Ok lf) => [(n, lf)]
                      | _ => []
                      end) log.

(** Every series name is null or normalizes to a category of the kind. *)
Definition all_categories (dtype : string) (lines : CsvFile) : Prop :=
  Forall (fun r => null_or_category (enumeration dtype) (normalized dtype r))
         lines.

(** The events of a run that reads every matching file of [root]. *)
Definition full_log (fs : FileSystem) (root : Root) (pattern : list re_atom)
    : list event :=
  Iterdir root ::
  match fs root with
  | Some entries => map (ScanCsv root) (matching_names pattern entries)
  | None => []
  end.

(** The kind has a dataset, for storage resources: [collate] returns a
    frame and the frame evaluates to a table. *)
Definition collates (fs : FileSystem) (dtype : string) : Prop :=
  exists lf, collected (collate fs dtype "storage") = Ok lf.

(** A written file is the dataset of its kind, under the kind's name. *)
Definition exported (fs : FileSystem) (dtype : string)
    (file : string * LazyFrame) : Prop :=
  fst file = (dtype ++ ".parquet")%string /\
  collected (collate fs dtype "storage") = Ok (snd file).

End CollateFurtherSpec.

(** * Properties *)

(** ** Auxiliary facts on comparisons and results *)

Lemma Qltb_lt a b : Qltb a b = true <-> (a < b)%Q.
Proof.
  unfold Qltb. rewrite negb_true_iff. split.
  - intros H. apply Qnot_le_lt. intros Hle.
    apply Qle_bool_iff in Hle. congruence.
  - intros H. destruct (Qle_bool b a) eqn:E; [|reflexivity].
    apply Qle_bool_iff in E. exfalso. apply (Qlt_not_le _ _ H E).
Qed.

Lemma Qltb_ge a b : Qltb a b = false <-> (b <= a)%Q.
Proof.
  unfold Qltb. rewrite negb_false_iff. apply Qle_bool_iff.
Qed.

Lemma bind_ok {E A B} (r : result E A) (k : A -> result E B) b :
  bind r k = Ok b -> exists a, r = Ok a /\ k a = Ok b.
Proof.
  destruct r as [a|e]; simpl; [eauto | discriminate].
Qed.

(** ** The series normalizer: one time field per row *)

Section SeriesNormalizer.
Import Simple.

(** The point mapper leaves [x] and [y] as they were. *)
Lemma point_mapper_xy p dp :
  point_mapper p = Ok dp -> x dp = hc_x p /\ y dp = hc_y p.
Proof.
  unfold point_mapper. intros H.
  apply bind_ok in H as (dp0 & H0 & H1).
  assert (x dp0 = hc_x p /\ y dp0 = hc_y p) as [Hx Hy].
  { destruct (exceeds_epoch_threshold (hc_x p)).
    - destruct (hc_x p) as [|q|s]; try (inversion H0; subst; now simpl).
      apply bind_ok in H0 as (iso & _ & H0). inversion H0; subst. now simpl.
    - inversion H0; subst. now simpl. }
  destruct (hc_category p); inversion H1; subst; simpl; auto.
Qed.

(** It sets [datetime] exactly on the points above the threshold. *)
Lemma point_mapper_datetime p dp :
  point_mapper p = Ok dp ->
  (exists iso, datetime dp = Some iso) <->
  exceeds_epoch_threshold (hc_x p) = true.
Proof.
  unfold point_mapper. intros H.
  apply bind_ok in H as (dp0 & H0 & H1).
  assert (datetime dp = datetime dp0) as ->.
  { destruct (hc_category p); inversion H1; subst; reflexivity. }
  destruct (exceeds_epoch_threshold (hc_x p)) eqn:E.
  - destruct (hc_x p) as [|q|s]; simpl in E; try discriminate.
    apply bind_ok in H0 as (iso & _ & H0). inversion H0; subst. simpl.
    split; eauto.
  - inversion H0; subst. simpl. split; [intros [? ?]|]; discriminate.
Qed.

(** The mapper throws only where [toISOString] does: on a number beyond
    the last valid time value. *)
Lemma point_mapper_returns p :
  (forall q, hc_x p = VNum q -> (q <= MAX_TIME_VALUE)%Q) ->
  exists dp, point_mapper p = Ok dp.
Proof.
  intros Hq. unfold point_mapper.
  destruct (exceeds_epoch_threshold (hc_x p)) eqn:E.
  - destruct (hc_x p) as [|q|s] eqn:Hx; simpl in E; try discriminate.
    unfold toISOString.
    specialize (Hq q eq_refl). apply Qle_bool_iff in Hq.
    rewrite Hq. simpl.
    destruct (hc_category p); eauto.
  - simpl. destruct (hc_category p); eauto.
Qed.

(** C1. Every row the normalizer emits for a chart point carries exactly
    one of the two time fields, [datetime] (the timestamp) or [x] (the
    ordinal, equal to the point's [x]); it carries the timestamp exactly
    when the point's [x] is a number greater than 1000000000000, and the
    ordinal for any other [x]. *)
Theorem normalizer_one_time_field (series_name : string) (p : HcPoint) (dp : Point) :
  point_mapper p = Ok dp ->
  let row := make_row series_name dp in
  ((exists t, row_datetime row = Some t) /\ row_x row = None \/
   row_datetime row = None /\ row_x row = Some (hc_x p)) /\
  ((exists t, row_datetime row = Some t) <->
     exists q, hc_x p = VNum q /\ (1000000000000 # 1 < q)%Q) /\
  has_timestamp row = exceeds_epoch_threshold (hc_x p) /\
  has_ordinal row = negb (exceeds_epoch_threshold (hc_x p)).
Proof.
  intros H row.
  pose proof (point_mapper_xy _ _ H) as [Hx _].
  pose proof (point_mapper_datetime _ _ H) as Hd.
  assert (Hthr : exceeds_epoch_threshold (hc_x p) = true <->
                 exists q, hc_x p = VNum q /\ (1000000000000 # 1 < q)%Q).
  { unfold exceeds_epoch_threshold. destruct (hc_x p) as [|q|s].
    - split; [discriminate | intros (q & Hq & _); discriminate].
    - rewrite Qltb_lt. unfold EPOCH_THRESHOLD. split.
      + intros Hlt. exists q. auto.
      + intros (q' & Hq & Hlt). inversion Hq; subst. exact Hlt.
    - split; [discriminate | intros (q & Hq & _); discriminate]. }
  rewrite <- Hthr. clear Hthr.
  subst row. unfold make_row, has_timestamp, has_ordinal.
  destruct (datetime dp) as [iso|] eqn:Ed.
  - assert (He : exceeds_epoch_threshold (hc_x p) = true)
      by (apply Hd; eauto).
    rewrite He.
    destruct (category dp); simpl; (split; [left; eauto|]);
      (split; [split; eauto|]); auto.
  - assert (He : exceeds_epoch_threshold (hc_x p) = false).
    { destruct (exceeds_epoch_threshold (hc_x p)); [|reflexivity].
      destruct Hd as [_ Hd]. destruct (Hd eq_refl). discriminate. }
    rewrite He, Hx.
    destruct (category dp); simpl; (split; [right; auto|]);
      (split; [split; [intros [? ?]|]; discriminate|]); auto.
Qed.

(** A point sampled at 1700000000000 ms gives a timestamped row. *)
Lemma normalizer_one_time_field_witness :
  let p := mkHcPoint (VNum (1700000000000 # 1)) (VNum (25 # 2)) None in
  let dp := mkPoint (VNum (1700000000000 # 1)) (VNum (25 # 2))
                    (Some (Iso 1700000000000)) None in
  let row := make_row "Discharge" dp in
  point_mapper p = Ok dp /\
  ((exists t, row_datetime row = Some t) /\ row_x row = None \/
   row_datetime row = None /\ row_x row = Some (hc_x p)) /\
  ((exists t, row_datetime row = Some t) <->
     exists q, hc_x p = VNum q /\ (1000000000000 # 1 < q)%Q) /\
  has_timestamp row = exceeds_epoch_threshold (hc_x p) /\
  has_ordinal row = negb (exceeds_epoch_threshold (hc_x p)).
Proof.
  split; [reflexivity|].
  apply (normalizer_one_time_field "Discharge"
           (mkHcPoint (VNum (1700000000000 # 1)) (VNum (25 # 2)) None)).
  reflexivity.
Defined.

End SeriesNormalizer.

(** ** The order of binary64 numbers *)

Section Binary64.

Ltac sf_cases :=
  repeat match goal with
         | H : _ = _ |- _ => revert H
         end;
  repeat match goal with
         | |- context [Pos.compare_cont Eq ?x ?y] =>
             change (Pos.compare_cont Eq x y) with (Pos.compare x y)
         end;
  repeat match goal with
         | |- context [Z.compare ?x ?y] =>
             destruct (Z.compare_spec x y); simpl
         | |- context [Pos.compare ?x ?y] =>
             destruct (Pos.compare_spec x y); simpl
         end;
  intros; subst; try congruence; try lia.

Lemma SFltb_trans a b c :
  SFltb a b = true -> SFltb b c = true -> SFltb a c = true.
Proof.
  unfold SFltb, SFcompare.
  destruct a as [[]|[]| |[] ma ea], b as [[]|[]| |[] mb eb],
           c as [[]|[]| |[] mc ec]; simpl; try congruence; intros; sf_cases.
Qed.

Lemma SFltb_leb_trans a b c :
  SFltb a b = true -> SFleb b c = true -> SFltb a c = true.
Proof.
  unfold SFltb, SFleb, SFcompare.
  destruct a as [[]|[]| |[] ma ea], b as [[]|[]| |[] mb eb],
           c as [[]|[]| |[] mc ec]; simpl; try congruence; intros; sf_cases.
Qed.

Lemma SFltb_leb a b : SFltb a b = true -> SFleb a b = true.
Proof.
  unfold SFltb, SFleb. destruct (SFcompare a b) as [[]|]; congruence.
Qed.

Lemma SFleb_refl a u : SFltb a u = true -> SFleb a a = true.
Proof.
  unfold SFltb, SFleb, SFcompare.
  destruct a as [[]|[]| |[] ma ea], u as [[]|[]| |[] mu eu];
    simpl; try congruence; intros;
    rewrite ?Z.compare_refl; simpl;
    change (Pos.compare_cont Eq ma ma) with (Pos.compare ma ma);
    rewrite ?Pos.compare_refl; reflexivity.
Qed.

Lemma SFltb_false_leb a b u v :
  SFltb a u = true -> SFltb b v = true ->
  SFltb a b = false -> SFleb b a = true.
Proof.
  unfold SFltb, SFleb, SFcompare.
  destruct a as [[]|[]| |[] ma ea], b as [[]|[]| |[] mb eb];
    try (destruct u as [[]|[]| |[] mu eu]; simpl; congruence);
    try (destruct v as [[]|[]| |[] mv ev]; simpl; congruence);
    intros _ _; simpl; try congruence; intros; sf_cases.
Qed.

Lemma SFcompare_Eq a b :
  SFcompare a b = Some Eq ->
  a = b \/ exists s s', a = S754_zero s /\ b = S754_zero s'.
Proof.
  unfold SFcompare.
  destruct a as [[]|[]| |[] ma ea], b as [[]|[]| |[] mb eb];
    simpl; try congruence; eauto; intros H; left;
    change (Pos.compare_cont Eq ma mb) with (Pos.compare ma mb) in H;
    destruct (Z.compare_spec ea eb); try discriminate;
    destruct (Pos.compare_spec ma mb); try discriminate; subst; reflexivity.
Qed.

(** The comparisons of the script, on numbers that are not [NaN]. *)
Lemma ltb_trans x y z :
  (x <? y)%float = true -> (y <? z)%float = true -> (x <? z)%float = true.
Proof. rewrite !ltb_spec. apply SFltb_trans. Qed.

Lemma ltb_leb_trans x y z :
  (x <? y)%float = true -> (y <=? z)%float = true -> (x <? z)%float = true.
Proof. rewrite !ltb_spec, leb_spec. apply SFltb_leb_trans. Qed.

Lemma ltb_leb x y : (x <? y)%float = true -> (x <=? y)%float = true.
Proof. rewrite ltb_spec, leb_spec. apply SFltb_leb. Qed.

Lemma leb_refl_below x u : (x <? u)%float = true -> (x <=? x)%float = true.
Proof. rewrite ltb_spec, leb_spec. apply SFleb_refl. Qed.

Lemma ltb_false_leb x y u v :
  (x <? u)%float = true -> (y <? v)%float = true ->
  (x <? y)%float = false -> (y <=? x)%float = true.
Proof. rewrite !ltb_spec, leb_spec. apply SFltb_false_leb. Qed.

Lemma ltb_asym x y : (x <? y)%float = true -> (y <? x)%float = false.
Proof.
  rewrite !ltb_spec. unfold SFltb, SFcompare.
  destruct (Prim2SF x) as [[]|[]| |[] ma ea], (Prim2SF y) as [[]|[]| |[] mb eb];
    simpl; try congruence; intros; sf_cases.
Qed.

Lemma is_nan_spec x : is_nan x = true <-> Prim2SF x = S754_nan.
Proof.
  unfold is_nan. rewrite negb_true_iff, FloatAxioms.eqb_spec.
  unfold SFeqb, SFcompare.
  destruct (Prim2SF x) as [[]|[]| |[] m e]; simpl;
    rewrite ?Z.compare_refl; simpl;
    try change (Pos.compare_cont Eq m m) with (Pos.compare m m);
    rewrite ?Pos.compare_refl; simpl; split; congruence.
Qed.

Lemma ltb_nan_r x y : is_nan y = true -> (x <? y)%float = false.
Proof.
  intros H. apply is_nan_spec in H. rewrite ltb_spec, H.
  unfold SFltb, SFcompare. now destruct (Prim2SF x) as [[]|[]| |[] m e].
Qed.

(** Two numbers neither of which is below the other are one number, or
    two zeros. *)
Lemma ltb_both_false x y :
  is_nan x = false -> is_nan y = false ->
  (x <? y)%float = false -> (y <? x)%float = false ->
  x = y \/ exists s s', Prim2SF x = S754_zero s /\ Prim2SF y = S754_zero s'.
Proof.
  intros Hx Hy. rewrite !ltb_spec. unfold SFltb. intros H1 H2.
  assert (Hnx : Prim2SF x <> S754_nan).
  { intros E. apply is_nan_spec in E. congruence. }
  assert (Hny : Prim2SF y <> S754_nan).
  { intros E. apply is_nan_spec in E. congruence. }
  assert (HE : SFcompare (Prim2SF x) (Prim2SF y) = Some Eq).
  { revert H1 H2 Hnx Hny. unfold SFcompare.
    destruct (Prim2SF x) as [[]|[]| |[] ma ea], (Prim2SF y) as [[]|[]| |[] mb eb];
      simpl; try congruence; intros; sf_cases. }
  apply SFcompare_Eq in HE as [E | (s & s' & E1 & E2)].
  - left. now apply Prim2SF_inj.
  - right. eauto.
Qed.

Lemma zero_sign x s :
  Prim2SF x = S754_zero s -> is_zero x = true /\ get_sign x = s.
Proof.
  intros E.
  assert (Hz : is_zero x = true).
  { unfold is_zero. rewrite FloatAxioms.eqb_spec, E. reflexivity. }
  split; [exact Hz|].
  unfold get_sign. rewrite Hz. cbv zeta.
  rewrite ltb_spec, div_spec, E. destruct s; reflexivity.
Qed.

End Binary64.

(** ** The title matcher *)

Section TitleMatcher.
Import Simple.

Lemma Math_min_comm a b : Math_min a b = Math_min b a.
Proof.
  unfold Math_min. rewrite (orb_comm (is_nan a)).
  destruct (is_nan b) eqn:Hb; [reflexivity|].
  destruct (is_nan a) eqn:Ha; [reflexivity|]. cbn [orb].
  destruct (a <? b)%float eqn:Hab.
  - now rewrite (ltb_asym _ _ Hab).
  - destruct (b <? a)%float eqn:Hba; [reflexivity|].
    destruct (ltb_both_false a b Ha Hb Hab Hba) as [-> | (s & s' & Ea & Eb)].
    + now destruct (is_zero b && get_sign b).
    + destruct (zero_sign _ _ Ea) as [-> ->], (zero_sign _ _ Eb) as [-> ->].
      destruct s, s'; cbn [andb]; try reflexivity;
        apply Prim2SF_inj; congruence.
Qed.

Lemma Math_max_comm a b : Math_max a b = Math_max b a.
Proof.
  unfold Math_max. rewrite (orb_comm (is_nan a)).
  destruct (is_nan b) eqn:Hb; [reflexivity|].
  destruct (is_nan a) eqn:Ha; [reflexivity|]. cbn [orb].
  destruct (a <? b)%float eqn:Hab.
  - now rewrite (ltb_asym _ _ Hab).
  - destruct (b <? a)%float eqn:Hba; [reflexivity|].
    destruct (ltb_both_false a b Ha Hb Hab Hba) as [-> | (s & s' & Ea & Eb)].
    + now destruct (is_zero b && get_sign b).
    + destruct (zero_sign _ _ Ea) as [-> ->], (zero_sign _ _ Eb) as [-> ->].
      destruct s, s'; cbn [andb]; try reflexivity;
        apply Prim2SF_inj; congruence.
Qed.

(** Clamping at zero does not change whether the overlap is positive. *)
Lemma Math_max_zero d : (0 <? Math_max 0 d)%float = (0 <? d)%float.
Proof.
  unfold Math_max. change (is_nan 0) with false. cbn [orb].
  destruct (is_nan d) eqn:Hd.
  - now rewrite (ltb_nan_r _ _ Hd).
  - destruct (0 <? d)%float eqn:E; [exact E|].
    change (is_zero 0 && get_sign 0) with false.
    destruct (d <? 0)%float; reflexivity.
Qed.

Variable chartRect : Rect.

Lemma qualifiesb_spec t : qualifiesb chartRect t = true <-> qualifies chartRect t.
Proof.
  unfold qualifiesb, qualifies, bottom_above_top, horizontal_overlap.
  rewrite !andb_true_iff, Math_max_zero.
  rewrite (Math_min_comm (right chartRect)), (Math_max_comm (left chartRect)).
  tauto.
Qed.

Lemma qualifiesb_gap t :
  qualifiesb chartRect t = true -> (vertical_gap chartRect t <? 200)%float = true.
Proof.
  unfold qualifiesb. rewrite !andb_true_iff. tauto.
Qed.

Lemma title_step_unfold best t :
  title_step chartRect best t =
  if qualifiesb chartRect t && (vertical_gap chartRect t <? snd best)%float
  then (text t, vertical_gap chartRect t) else best.
Proof.
  unfold title_step, qualifiesb, vertical_gap.
  destruct (_ <=? _)%float; cbn [andb]; [|reflexivity].
  destruct (_ - _ <? 200)%float; cbn [andb]; [|reflexivity].
  destruct (0 <? _)%float; cbn [andb]; reflexivity.
Qed.

Lemma matcher_state_step fallback seen best t :
  matcher_state chartRect fallback seen best ->
  matcher_state chartRect fallback (seen ++ [t]) (title_step chartRect best t).
Proof.
  intros [[-> Hnone] | (i & t0 & Hi & Hq0 & -> & Hmin)];
    rewrite title_step_unfold; cbn [snd].
  - destruct (qualifiesb chartRect t) eqn:Hq; cbn [andb].
    + pose proof (qualifiesb_gap t Hq) as Hg.
      rewrite (ltb_trans _ 200 infinity Hg eq_refl).
      right. exists (length seen), t. repeat split.
      * rewrite lookup_app_r by lia. now rewrite Nat.sub_diag.
      * exact Hq.
      * apply lookup_app_Some in H as [H | [Hge H]].
        -- apply list_elem_of_lookup_2, list_elem_of_In, Hnone in H.
           congruence.
        -- destruct (j - length seen) as [|k] eqn:Ek; [|discriminate].
           inversion H; subst. exact (leb_refl_below _ _ Hg).
      * intros Hlt. apply lookup_app_Some in H as [H | [Hge H]]; [|lia].
        apply list_elem_of_lookup_2, list_elem_of_In, Hnone in H.
        congruence.
    + left. split; [reflexivity|].
      intros t' [Hin | [<- | []]]%in_app_or; auto.
  - pose proof (lookup_lt_Some _ _ _ Hi) as Hlen.
    pose proof (qualifiesb_gap t0 Hq0) as Hg0.
    destruct (qualifiesb chartRect t) eqn:Hq; cbn [andb].
    + pose proof (qualifiesb_gap t Hq) as Hg.
      destruct (vertical_gap chartRect t <? vertical_gap chartRect t0)%float eqn:Hlt.
      * right. exists (length seen), t. repeat split.
        -- rewrite lookup_app_r by lia. now rewrite Nat.sub_diag.
        -- exact Hq.
        -- apply lookup_app_Some in H as [H | [Hge H]].
           ++ destruct (Hmin _ _ H H0) as [Hle _].
              apply ltb_leb. exact (ltb_leb_trans _ _ _ Hlt Hle).
           ++ destruct (j - length seen) as [|k] eqn:Ek; [|discriminate].
              inversion H; subst. exact (leb_refl_below _ _ Hg).
        -- intros Hj. apply lookup_app_Some in H as [H | [Hge H]]; [|lia].
           destruct (Hmin _ _ H H0) as [Hle _].
           exact (ltb_leb_trans _ _ _ Hlt Hle).
      * right. exists i, t0. repeat split; auto.
        -- now apply lookup_app_l_Some.
        -- apply lookup_app_Some in H as [H | [Hge H]].
           ++ now apply (Hmin _ _ H H0).
           ++ destruct (j - length seen) as [|k] eqn:Ek; [|discriminate].
              inversion H; subst. exact (ltb_false_leb _ _ _ _ Hg Hg0 Hlt).
        -- intros Hj. apply lookup_app_Some in H as [H | [Hge H]]; [|lia].
           now apply (Hmin _ _ H H0).
    + right. exists i, t0. repeat split; auto.
      * now apply lookup_app_l_Some.
      * apply lookup_app_Some in H as [H | [Hge H]].
        -- now apply (Hmin _ _ H H0).
        -- destruct (j - length seen) as [|k] eqn:Ek; [|discriminate].
           inversion H; subst. congruence.
      * intros Hj. apply lookup_app_Some in H as [H | [Hge H]]; [|lia].
        now apply (Hmin _ _ H H0).
Qed.

Lemma match_title_state titles chartIndex :
  matcher_state chartRect (fallback_title chartIndex) titles
    (match_title titles chartRect chartIndex).
Proof.
  unfold match_title.
  induction titles as [|t titles IH] using rev_ind.
  - left. split; [reflexivity | intros t []].
  - rewrite fold_left_app. simpl. now apply matcher_state_step.
Qed.

End TitleMatcher.

Section TitleMatcherClaims.
Import Simple.

(** When some candidate qualifies, the matcher returns the text of the
    first qualifying candidate of least vertical gap. *)
Lemma best_title_nearest titles chartRect chartIndex :
  (exists t, In t titles /\ qualifies chartRect t) ->
  exists i t,
    titles !! i = Some t /\ qualifies chartRect t /\
    best_title titles chartRect chartIndex = text t /\
    forall j t', titles !! j = Some t' -> qualifies chartRect t' ->
      (vertical_gap chartRect t <=? vertical_gap chartRect t')%float = true /\
      (j < i -> (vertical_gap chartRect t <? vertical_gap chartRect t')%float = true).
Proof.
  intros (t & Hin & Hq). unfold best_title.
  destruct (match_title_state chartRect titles chartIndex)
    as [[_ Hnone] | (i & t0 & Hi & Hq0 & -> & Hmin)].
  - apply qualifiesb_spec in Hq. rewrite (Hnone _ Hin) in Hq. discriminate.
  - exists i, t0. split; [exact Hi|].
    split; [now apply qualifiesb_spec|]. split; [reflexivity|].
    intros j t' Hj Hq'. apply qualifiesb_spec in Hq'.
    exact (Hmin _ _ Hj Hq').
Qed.

(** When none qualifies, the label stays ["Chart " + chartIndex]. *)
Lemma best_title_fallback titles chartRect chartIndex :
  (forall t, In t titles -> ~ qualifies chartRect t) ->
  best_title titles chartRect chartIndex = fallback_title chartIndex.
Proof.
  intros Hnone. unfold best_title.
  destruct (match_title_state chartRect titles chartIndex)
    as [[-> _] | (i & t0 & Hi & Hq0 & _)]; [reflexivity|].
  exfalso. apply (Hnone t0).
  - apply list_elem_of_In. eapply list_elem_of_lookup_2; eauto.
  - now apply qualifiesb_spec.
Qed.

(** C2, as it stands, fails: a heading whose own text is "Chart 0",
    50 units above chart 0 and overlapping it, qualifies and is chosen,
    and the chart's title is then the very string of the fallback label. *)
Lemma title_matcher_fallback_iff_counterexample :
  let chartRect := mkRect 100 0 100 300 in
  let heading := mkTitleInfo "Chart 0" (mkRect 0 0 100 50) "H2" "" in
  ~ (best_title [heading] chartRect 0 = fallback_title 0 <->
     ~ exists t, In t [heading] /\ qualifies chartRect t).
Proof.
  intros chartRect heading [H _].
  apply H; [reflexivity|].
  exists heading. split; [now left|].
  apply qualifiesb_spec. reflexivity.
Qed.

(** The same page through the whole script: the heading passes the
    length filter and becomes the title of chart 0. *)
Example heading_named_like_fallback :
  let chartRect := mkRect 100 0 100 300 in
  let h2 := mkElement "  Chart 0 " (mkRect 0 0 100 50) "H2" "" in
  extraction_script [h2] [Some (mkHcChart chartRect [])]
  = Ok (mkExtractedData
          [mkTitleInfo "Chart 0" (mkRect 0 0 100 50) "H2" ""]
          [mkChartData 0 "Chart 0" chartRect []]).
Proof. reflexivity. Qed.

(** The gap is the rounded difference: with the chart's top at the
    double nearest to 200.1 and a heading's bottom at the double nearest
    to 0.1, the difference of the two doubles is below 200 but rounds to
    200, so the heading does not qualify and the chart keeps the
    fallback label. *)
Example gap_is_rounded :
  let chartRect := mkRect 0x1.9033333333333p+7 0 100 500 in
  let heading :=
    mkTitleInfo "Energy Awards" (mkRect 0 0 100 0x1.999999999999ap-4) "H2" "" in
  vertical_gap chartRect heading = 200%float /\
  qualifiesb chartRect heading = false /\
  best_title [heading] chartRect 0 = "Chart 0".
Proof. repeat split. Qed.

(** C2, amended. Provided no qualifying candidate's text is itself the
    string ["Chart " + chartIndex], the matcher assigns that fallback
    label if and only if no candidate has its bottom edge at or above the
    chart's top edge, a vertical gap below 200 and a positive horizontal
    overlap, the gap and the overlap being the binary64 differences the
    script computes; and when some candidate qualifies, the one assigned
    is the qualifying candidate of least vertical gap, the first of them
    in encounter order on a tie. *)
Theorem title_matcher_fallback_iff titles chartRect chartIndex :
  (forall t, In t titles -> qualifies chartRect t ->
             text t <> fallback_title chartIndex) ->
  (best_title titles chartRect chartIndex = fallback_title chartIndex <->
   ~ exists t, In t titles /\ qualifies chartRect t) /\
  ((exists t, In t titles /\ qualifies chartRect t) ->
   exists i t,
     titles !! i = Some t /\ qualifies chartRect t /\
     best_title titles chartRect chartIndex = text t /\
     forall j t', titles !! j = Some t' -> qualifies chartRect t' ->
       (vertical_gap chartRect t <=? vertical_gap chartRect t')%float = true /\
       (j < i -> (vertical_gap chartRect t <? vertical_gap chartRect t')%float = true)).
Proof.
  intros Htext. split; [split|].
  - intros Hbest Hex.
    destruct (best_title_nearest titles chartRect chartIndex Hex)
      as (i & t & Hi & Hq & Heq & _).
    apply (Htext t); [|exact Hq|congruence].
    apply list_elem_of_In. eapply list_elem_of_lookup_2; eauto.
  - intros Hnone. apply best_title_fallback.
    intros t Hin Hq. apply Hnone. eauto.
  - apply best_title_nearest.
Qed.

(** "Energy Awards" 50 units above the chart, "Other Metric" below it. *)
Lemma title_matcher_fallback_iff_witness :
  let chartRect := mkRect 100 0 100 300 in
  let above := mkTitleInfo "Energy Awards" (mkRect 20 60 200 50) "H2" "" in
  let below := mkTitleInfo "Other Metric" (mkRect 320 0 100 350) "H2" "" in
  best_title [above; below] chartRect 0 = "Energy Awards" /\
  (best_title [above; below] chartRect 0 = fallback_title 0 <->
   ~ exists t, In t [above; below] /\ qualifies chartRect t) /\
  ((exists t, In t [above; below] /\ qualifies chartRect t) ->
   exists i t,
     [above; below] !! i = Some t /\ qualifies chartRect t /\
     best_title [above; below] chartRect 0 = text t /\
     forall j t', [above; below] !! j = Some t' -> qualifies chartRect t' ->
       (vertical_gap chartRect t <=? vertical_gap chartRect t')%float = true /\
       (j < i -> (vertical_gap chartRect t <? vertical_gap chartRect t')%float = true)).
Proof.
  intros chartRect above below. split; [reflexivity|].
  apply (title_matcher_fallback_iff [above; below] chartRect 0).
  intros t [<- | [<- | []]] _; discriminate.
Defined.

End TitleMatcherClaims.

(** ** Sorting: the result is an ordered rearrangement of the input *)

Section InsertionSortFacts.
Context {A : Type} (leb : A -> A -> bool).
Hypothesis leb_total : forall a b, leb a b = true \/ leb b a = true.
Hypothesis leb_trans :
  forall a b c, leb a b = true -> leb b c = true -> leb a c = true.

Lemma insert_sorted_perm a l : Permutation (a :: l) (insert_sorted leb a l).
Proof.
  induction l as [|b l IH]; simpl; [reflexivity|].
  destruct (leb a b); [reflexivity|].
  rewrite perm_swap. now constructor.
Qed.

Lemma sort_by_perm l : Permutation l (sort_by leb l).
Proof.
  induction l as [|a l IH]; simpl; [constructor|].
  rewrite <- insert_sorted_perm. now constructor.
Qed.

Lemma insert_sorted_sorted a l :
  StronglySorted (le_of leb) l -> StronglySorted (le_of leb) (insert_sorted leb a l).
Proof.
  induction 1 as [|b l Hs IH Hb]; simpl.
  - repeat constructor.
  - destruct (leb a b) eqn:E.
    + constructor; [now constructor|].
      constructor; [exact E|].
      eapply List.Forall_impl; [|exact Hb]. intros c Hc.
      eapply leb_trans; eauto.
    + constructor; [exact IH|].
      rewrite List.Forall_forall. intros c Hc.
      apply (Permutation_in _ (Permutation_sym (insert_sorted_perm a l))) in Hc.
      destruct Hc as [<- | Hc].
      * destruct (leb_total a b) as [H|H]; [congruence|exact H].
      * rewrite List.Forall_forall in Hb. now apply Hb.
Qed.

Lemma sort_by_sorted l : StronglySorted (le_of leb) (sort_by leb l).
Proof.
  induction l as [|a l IH]; simpl; [constructor|].
  now apply insert_sorted_sorted.
Qed.
End InsertionSortFacts.

(** ** The rows of one chart: flattening and the order of the table *)

Section ChartRows.
Import Simple.

Lemma append_series_app acc s : append_series acc s = acc ++ series_rows s.
Proof.
  unfold append_series, series_rows.
  generalize (data s) as pts. intros pts. revert acc.
  induction pts as [|p pts IH]; intros acc; simpl.
  - now rewrite app_nil_r.
  - rewrite IH, <- app_assoc. reflexivity.
Qed.

Lemma all_data_flattened chart : all_data chart = flattened chart.
Proof.
  unfold all_data, flattened.
  enough (H : forall ss acc,
             fold_left append_series ss acc = acc ++ concat (map series_rows ss))
    by apply (H _ []).
  induction ss as [|s ss IH]; intros acc; simpl.
  - now rewrite app_nil_r.
  - rewrite IH, append_series_app, <- app_assoc. reflexivity.
Qed.

Lemma flattened_lookup chart i s j p :
  series chart !! i = Some s -> data s !! j = Some p ->
  flattened chart !! row_position chart i j = Some (make_row (name s) p).
Proof.
  intros Hs Hp. unfold flattened, row_position.
  set (before := concat (map series_rows (take i (series chart)))).
  rewrite <- (take_drop_middle _ _ _ Hs).
  rewrite List.map_app, List.concat_app. simpl. fold before.
  rewrite lookup_app_r by lia.
  replace (_ + j - _) with j by lia.
  rewrite lookup_app_l.
  - unfold series_rows. change (map ?f ?l) with (f <$> l).
    now rewrite list_lookup_fmap, Hp.
  - unfold series_rows. rewrite length_map. eapply lookup_lt_Some; eauto.
Qed.

(** Rows of a later series stand after those of an earlier one, and
    within a series positions follow the points. *)
Lemma row_position_mono chart i s j p i' j' :
  series chart !! i = Some s -> data s !! j = Some p ->
  (i < i' \/ i = i' /\ j < j') ->
  row_position chart i j < row_position chart i' j'.
Proof.
  intros Hs Hp [Hlt | [<- Hlt]]; unfold row_position; [|lia].
  assert (Hj : j < length (series_rows s)).
  { unfold series_rows. rewrite length_map. eapply lookup_lt_Some; eauto. }
  enough (length (concat (map series_rows (take i (series chart))))
          + length (series_rows s)
          <= length (concat (map series_rows (take i' (series chart))))) by lia.
  replace (take i' (series chart))
    with (take i (series chart) ++ s :: take (i' - S i) (drop (S i) (series chart))).
  - rewrite List.map_app, List.concat_app, length_app. simpl. rewrite length_app. lia.
  - rewrite <- (take_drop_middle _ _ _ Hs) at 3.
    pose proof (lookup_lt_Some _ _ _ Hs) as Hi.
    rewrite take_app_ge by (rewrite length_take; lia).
    rewrite length_take, Nat.min_l by lia.
    f_equal. replace (i' - i) with (S (i' - S i)) by lia. reflexivity.
Qed.

Lemma datetime_leb_total r1 r2 :
  datetime_leb r1 r2 = true \/ datetime_leb r2 r1 = true.
Proof.
  unfold datetime_leb.
  destruct (row_datetime r1) as [[a]|], (row_datetime r2) as [[b]|]; auto.
  destruct (Z.leb_spec a b); [now left | right].
  apply Z.leb_le. lia.
Qed.

Lemma datetime_leb_trans r1 r2 r3 :
  datetime_leb r1 r2 = true -> datetime_leb r2 r3 = true ->
  datetime_leb r1 r3 = true.
Proof.
  unfold datetime_leb.
  destruct (row_datetime r1) as [[a]|], (row_datetime r2) as [[b]|],
           (row_datetime r3) as [[c]|]; auto; try discriminate.
  rewrite !Z.leb_le. lia.
Qed.

(** The flattened rows of that chart are not in timestamp order, so no
    way of sorting the table by its index can keep them as they are. *)
Lemma two_series_chart_not_sorted :
  ~ StronglySorted datetime_le (flattened two_series_chart).
Proof.
  intros H.
  cbv [flattened two_series_chart series concat map series_rows data name app] in H.
  apply StronglySorted_inv in H as [H _].
  apply StronglySorted_inv in H as [_ Hall].
  apply List.Forall_inv in Hall.
  vm_compute in Hall. discriminate.
Qed.

(** C8, as it stands, fails for a chart whose rows carry timestamps: the
    table is sorted on its [datetime] index, and the row of the second
    series at the first instant comes before the row of the first series
    at the second instant. *)
Lemma chart_rows_order_counterexample :
  ~ (df_rows (chart_table two_series_chart) = flattened two_series_chart).
Proof.
  vm_compute. discriminate.
Qed.

(** The table of that chart, row by row. *)
Example two_series_chart_table :
  map (fun r => (row_series_name r, row_datetime r))
      (df_rows (chart_table two_series_chart))
  = [("IFM", Some (Ts 1700000000000)); ("RTD", Some (Ts 1700000000000));
     ("IFM", Some (Ts 1700003600000)); ("RTD", Some (Ts 1700003600000))].
Proof. reflexivity. Qed.

(** C8, amended. The rows built for a chart form one flattened sequence
    in series order, then point order, whatever time field they carry.
    The table stored for the chart keeps that order when no row carries a
    timestamp; when some row does, the table holds the same rows
    rearranged in ascending timestamp order (rows without one last). *)
Theorem chart_rows_order (chart : ChartData) :
  all_data chart = flattened chart /\
  (forall i s j p,
     series chart !! i = Some s -> data s !! j = Some p ->
     all_data chart !! row_position chart i j = Some (make_row (name s) p) /\
     forall i' j', (i < i' \/ i = i' /\ j < j') ->
       row_position chart i j < row_position chart i' j') /\
  (has_datetime_column (all_data chart) = false ->
     df_rows (chart_table chart) = flattened chart) /\
  (has_datetime_column (all_data chart) = true ->
     Permutation (flattened chart) (df_rows (chart_table chart)) /\
     StronglySorted datetime_le (df_rows (chart_table chart))).
Proof.
  split; [apply all_data_flattened|]. split; [|split].
  - intros i s j p Hs Hp. split.
    + rewrite all_data_flattened. now apply flattened_lookup.
    + intros i' j'. now apply (row_position_mono chart i s j p).
  - intros H. unfold chart_table, build_frame. rewrite H. simpl.
    apply all_data_flattened.
  - intros H. unfold chart_table, build_frame. rewrite H. simpl.
    rewrite <- all_data_flattened. split.
    + apply sort_by_perm.
    + apply sort_by_sorted.
      * apply datetime_leb_total.
      * apply datetime_leb_trans.
Qed.

End ChartRows.

(** ** Tables by title *)

Section TablesByTitle.
Import Simple.

Lemma convert_to_dataframes_snoc charts c :
  convert_to_dataframes (charts ++ [c]) =
  convert_chart (convert_to_dataframes charts) c.
Proof.
  unfold convert_to_dataframes. now rewrite fold_left_app.
Qed.

Lemma convert_chart_lookup dfs c t :
  convert_chart dfs c !! t =
  if bool_decide (title c = t) && has_rows c
  then Some (chart_table c) else dfs !! t.
Proof.
  unfold convert_chart, has_rows, chart_table.
  destruct (all_data c) as [|r rows] eqn:E.
  - now rewrite andb_false_r.
  - rewrite andb_true_r. case_bool_decide as Ht.
    + subst t. now rewrite lookup_insert_eq.
    + now rewrite lookup_insert_ne.
Qed.

Lemma convert_to_dataframes_lookup charts t :
  convert_to_dataframes charts !! t = chart_table <$> last_titled t charts.
Proof.
  unfold last_titled.
  induction charts as [|c charts IH] using rev_ind.
  - reflexivity.
  - rewrite convert_to_dataframes_snoc, convert_chart_lookup, rev_unit.
    simpl. destruct (bool_decide (title c = t) && has_rows c); [reflexivity|].
    exact IH.
Qed.



(** What is lost in the second case: the first chart's row is in no table. *)
Lemma shared_title_keeps_last :
  convert_to_dataframes [first_shared_chart; second_shared_chart]
    !! "Total Energy Awards" = Some (chart_table second_shared_chart) /\
  ~ In (make_row "IFM" (mkPoint (VNum 0) (VNum (10 # 1)) None None))
       (df_rows (chart_table second_shared_chart)).
Proof.
  split.
  - rewrite convert_to_dataframes_lookup. reflexivity.
  - vm_compute. intros [H | []]. discriminate.
Qed.


End TablesByTitle.

(** ** Collation: configuration errors *)

Section CollateConfiguration.
Import Collate.

Lemma string_app_assoc (a b c : string) :
  ((a ++ b) ++ c = a ++ (b ++ c))%string.
Proof.
  induction a as [|ch a IH]; [reflexivity|].
  change (String ch ((a ++ b) ++ c) = String ch (a ++ b ++ c))%string.
  now rewrite IH.
Qed.

Lemma mentions_app_r needle a b : mentions needle b -> mentions needle (a ++ b).
Proof.
  intros (pre & post & ->). exists (a ++ pre)%string, post.
  now rewrite string_app_assoc.
Qed.

Lemma getitem_None {V} (d : list (string * V)) key :
  getitem d key = None <-> ~ In key (keys d).
Proof.
  induction d as [|[k v] d IH]; simpl.
  - tauto.
  - destruct (String.eqb_spec k key) as [->|Hne].
    + split; [discriminate | intros H; exfalso; apply H; now left].
    + rewrite IH. tauto.
Qed.

Lemma getitem_Some_In {V} (d : list (string * V)) key v :
  getitem d key = Some v -> In key (keys d).
Proof.
  intros H. destruct (in_dec string_dec key (keys d)) as [Hin|Hnin]; [exact Hin|].
  apply getitem_None in Hnin. congruence.
Qed.

(** The eight metric kinds. *)
Lemma keys_FILE_PATTERNS dtype :
  In dtype (keys FILE_PATTERNS) <->
  dtype = "fmm_as_awards" \/ dtype = "fmm_bids" \/ dtype = "fmm_offers" \/
  dtype = "ifm_as_awards" \/ dtype = "ifm_bids" \/ dtype = "ifm_offers" \/
  dtype = "energy_awards" \/ dtype = "state_of_charge".
Proof.
  simpl. intuition congruence.
Qed.

Lemma collate_unknown_dtype fs dtype btype :
  ~ In dtype (keys FILE_PATTERNS) ->
  collate fs dtype btype = ([], Err (ValueError (dtype_message dtype))).
Proof.
  intros H. apply getitem_None in H. unfold collate. rewrite H.
  unfold dtype_message, quote. simpl.
  now rewrite !string_app_assoc.
Qed.

Lemma collate_unknown_btype fs dtype btype :
  In dtype (keys FILE_PATTERNS) ->
  btype <> "storage" -> btype <> "hybrid" ->
  collate fs dtype btype = ([], Err (ValueError (btype_message btype))).
Proof.
  intros Hd Hs Hh. apply String.eqb_neq in Hs, Hh.
  apply keys_FILE_PATTERNS in Hd.
  unfold btype_message.
  repeat (destruct Hd as [-> | Hd]); [.. | subst dtype];
    unfold collate; simpl; rewrite Hs, Hh; simpl; unfold quote;
    now rewrite !string_app_assoc.
Qed.

Lemma dtype_message_names_all dtype k :
  In k (keys FILE_PATTERNS) -> mentions ("'" ++ k ++ "'") (dtype_message dtype).
Proof.
  intros Hk. unfold dtype_message.
  do 2 apply mentions_app_r.
  apply keys_FILE_PATTERNS in Hk.
  repeat (destruct Hk as [-> | Hk]); [.. | subst k].
  - exists "' is not a recognized dtype; must be one of ",
      ", 'fmm_bids', 'fmm_offers', 'ifm_as_awards', 'ifm_bids', 'ifm_offers', 'energy_awards', 'state_of_charge'".
    reflexivity.
  - exists "' is not a recognized dtype; must be one of 'fmm_as_awards', ",
      ", 'fmm_offers', 'ifm_as_awards', 'ifm_bids', 'ifm_offers', 'energy_awards', 'state_of_charge'".
    reflexivity.
  - exists "' is not a recognized dtype; must be one of 'fmm_as_awards', 'fmm_bids', ",
      ", 'ifm_as_awards', 'ifm_bids', 'ifm_offers', 'energy_awards', 'state_of_charge'".
    reflexivity.
  - exists "' is not a recognized dtype; must be one of 'fmm_as_awards', 'fmm_bids', 'fmm_offers', ",
      ", 'ifm_bids', 'ifm_offers', 'energy_awards', 'state_of_charge'".
    reflexivity.
  - exists "' is not a recognized dtype; must be one of 'fmm_as_awards', 'fmm_bids', 'fmm_offers', 'ifm_as_awards', ",
      ", 'ifm_offers', 'energy_awards', 'state_of_charge'".
    reflexivity.
  - exists "' is not a recognized dtype; must be one of 'fmm_as_awards', 'fmm_bids', 'fmm_offers', 'ifm_as_awards', 'ifm_bids', ",
      ", 'energy_awards', 'state_of_charge'".
    reflexivity.
  - exists "' is not a recognized dtype; must be one of 'fmm_as_awards', 'fmm_bids', 'fmm_offers', 'ifm_as_awards', 'ifm_bids', 'ifm_offers', ",
      ", 'state_of_charge'".
    reflexivity.
  - exists "' is not a recognized dtype; must be one of 'fmm_as_awards', 'fmm_bids', 'fmm_offers', 'ifm_as_awards', 'ifm_bids', 'ifm_offers', 'energy_awards', ",
      "".
    reflexivity.
Qed.

Lemma btype_message_names_both btype :
  mentions "'storage'" (btype_message btype) /\
  mentions "'hybrid'" (btype_message btype).
Proof.
  unfold btype_message. split; do 2 apply mentions_app_r.
  - exists "' is not a recognized battery type; must be one of ", " or 'hybrid'".
    reflexivity.
  - exists "' is not a recognized battery type; must be one of 'storage' or ", "".
    reflexivity.
Qed.

(** C7. For a [dtype] outside the eight metric kinds, and for a [btype]
    other than 'storage' and 'hybrid', [collate] raises a [ValueError]
    whose message names every valid value (the eight kinds, resp. the two
    battery types), and it does so with no file-system event before. *)
Theorem collate_configuration_error (fs : FileSystem) (dtype btype : string) :
  ~ In dtype (keys FILE_PATTERNS) \/ (btype <> "storage" /\ btype <> "hybrid") ->
  exists msg,
    collate fs dtype btype = ([], Err (ValueError msg)) /\
    (~ In dtype (keys FILE_PATTERNS) ->
       msg = dtype_message dtype /\
       forall k, In k (keys FILE_PATTERNS) -> mentions ("'" ++ k ++ "'") msg) /\
    (In dtype (keys FILE_PATTERNS) ->
       msg = btype_message btype /\
       mentions "'storage'" msg /\ mentions "'hybrid'" msg).
Proof.
  intros H.
  destruct (in_dec string_dec dtype (keys FILE_PATTERNS)) as [Hin | Hnin].
  - destruct H as [H | [Hs Hh]]; [contradiction|].
    exists (btype_message btype). split; [|split].
    + now apply collate_unknown_btype.
    + intros Hn. contradiction.
    + intros _. split; [reflexivity | apply btype_message_names_both].
  - exists (dtype_message dtype). split; [|split].
    + now apply collate_unknown_dtype.
    + intros _. split; [reflexivity|].
      intros k. apply dtype_message_names_all.
    + intros Hn. contradiction.
Qed.

End CollateConfiguration.

Section CollateConfigurationWitness.
Import Collate.

(** An unknown kind ['soc'] on a machine without any data directory. *)
Lemma collate_configuration_error_witness :
  exists msg,
    collate (fun _ => None) "soc" "solar" = ([], Err (ValueError msg)) /\
    (~ In "soc" (keys FILE_PATTERNS) ->
       msg = dtype_message "soc" /\
       forall k, In k (keys FILE_PATTERNS) -> mentions ("'" ++ k ++ "'") msg) /\
    (In "soc" (keys FILE_PATTERNS) ->
       msg = btype_message "solar" /\
       mentions "'storage'" msg /\ mentions "'hybrid'" msg).
Proof.
  apply (collate_configuration_error (fun _ => None) "soc" "solar").
  left. simpl. intuition discriminate.
Defined.

(** A valid kind with an unknown battery type. *)
Example collate_unknown_btype_example :
  collate (fun _ => None) "ifm_bids" "solar"
  = ([], Err (ValueError
            "'solar' is not a recognized battery type; must be one of 'storage' or 'hybrid'")).
Proof. reflexivity. Qed.

End CollateConfigurationWitness.

(** ** The metric file parser *)

Section MetricFileParser.
Import Collate.

(** C9. Parsing a file as [fmm_as_awards], [fmm_bids] or [fmm_offers]
    gives the very result of parsing it as [ifm_as_awards], [ifm_bids] or
    [ifm_offers]: the same table, or the same error. *)
Theorem fmm_parses_as_ifm (file : CsvFile) :
  parse "fmm_as_awards" file = parse "ifm_as_awards" file /\
  parse "fmm_bids" file = parse "ifm_bids" file /\
  parse "fmm_offers" file = parse "ifm_offers" file /\
  format_fmm_as_awards file = format_ifm_as_awards file /\
  format_fmm_bids file = format_ifm_bids file /\
  format_fmm_offers file = format_ifm_offers file.
Proof.
  repeat split.
Qed.

Lemma mem_In s l : mem s l = true <-> In s l.
Proof.
  unfold mem. rewrite existsb_exists. split.
  - intros (x & Hin & Heq). apply String.eqb_eq in Heq. now subst.
  - intros Hin. exists s. split; [exact Hin | apply String.eqb_refl].
Qed.

Lemma outside_spec enum cell :
  outside enum cell = false <-> null_or_category enum cell.
Proof.
  unfold outside, null_or_category. destruct cell as [s|].
  - rewrite negb_false_iff, mem_In. split.
    + intros H c [= <-]. exact H.
    + intros H. now apply H.
  - split; [intros _ c; discriminate | reflexivity].
Qed.

Lemma outside_Some enum cell :
  outside enum cell = true ->
  exists s, cell = Some s /\ ~ In s enum.
Proof.
  unfold outside. destruct cell as [s|]; [|discriminate].
  intros H. exists s. split; [reflexivity|].
  apply negb_true_iff in H. rewrite <- mem_In. congruence.
Qed.

Lemma cast_shape enum cell :
  cast enum cell =
  if outside enum cell then Err (InvalidOperationError (cell_text cell))
  else Ok cell.
Proof.
  unfold cast, outside. destruct cell as [s|]; [|reflexivity].
  now destruct (mem s enum).
Qed.

Lemma with_series_name_cast norm enum rows :
  with_series_name (fun cell => cast enum (norm cell)) rows =
  match find (fun r => outside enum (norm (nr_series_name r))) rows with
  | Some r => Err (InvalidOperationError (cell_text (norm (nr_series_name r))))
  | None => Ok (map (fun r => mkNamedRow (nr_datetime r)
                                (norm (nr_series_name r)) (nr_value r)) rows)
  end.
Proof.
  unfold with_series_name.
  induction rows as [|r rows IH]; simpl; [reflexivity|].
  rewrite cast_shape. destruct (outside enum (norm (nr_series_name r))); simpl.
  - reflexivity.
  - rewrite IH. destruct (find _ rows); reflexivity.
Qed.

Lemma format_shape norm enum dim file :
  bind (with_series_name (fun cell => cast enum (norm cell))
          (drop_category (scan_csv file)))
       (fun rows => Ok (rename dim enum rows)) =
  match find (fun r => outside enum (norm (csv_series_name r))) file with
  | Some r => Err (InvalidOperationError (cell_text (norm (csv_series_name r))))
  | None => Ok (mkLazyFrame ["timestamp"; dim; "volume"] enum
                  (map (fun r => mkMetricRow (csv_datetime r)
                                   (norm (csv_series_name r)) (csv_value r))
                       file))
  end.
Proof.
  rewrite with_series_name_cast. unfold scan_csv, drop_category, rename.
  induction file as [|r file IH]; simpl; [reflexivity|].
  destruct (outside enum (norm (csv_series_name r))); simpl; [reflexivity|].
  destruct (find _ (map _ file)) eqn:E1; destruct (find _ file) eqn:E2;
    simpl in *; try discriminate; try congruence.
Qed.

Lemma on_text_compose f g cell :
  on_text f (on_text g cell) = on_text (fun s => f (g s)) cell.
Proof. now destruct cell. Qed.

Lemma format_shape_composed f enum dim file :
  bind (with_series_name
          (fun cell => cast enum (on_text f (on_text str_to_lowercase cell)))
          (drop_category (scan_csv file)))
       (fun rows => Ok (rename dim enum rows)) =
  match find (fun r => outside enum
                         (on_text (fun s => f (str_to_lowercase s))
                            (csv_series_name r))) file with
  | Some r => Err (InvalidOperationError
                     (cell_text (on_text (fun s => f (str_to_lowercase s))
                                   (csv_series_name r))))
  | None => Ok (mkLazyFrame ["timestamp"; dim; "volume"] enum
                  (map (fun r => mkMetricRow (csv_datetime r)
                                   (on_text (fun s => f (str_to_lowercase s))
                                      (csv_series_name r))
                                   (csv_value r))
                       file))
  end.
Proof.
  rewrite (format_shape
             (fun cell => on_text f (on_text str_to_lowercase cell))).
  induction file as [|r file IH]; [reflexivity|].
  cbn [find map].
  rewrite (on_text_compose f str_to_lowercase (csv_series_name r)).
  destruct (outside enum _); [now rewrite on_text_compose|].
  set (P := fun r : CsvRow =>
              outside enum
                (on_text f (on_text str_to_lowercase (csv_series_name r)))) in *.
  set (P' := fun r : CsvRow =>
               outside enum
                 (on_text (fun s => f (str_to_lowercase s)) (csv_series_name r)))
    in *.
  destruct (find P file), (find P' file); try discriminate; [exact IH|].
  injection IH as IH. cbn [map]. now rewrite ?on_text_compose, IH.
Qed.

(** Every formatter has one skeleton; the kinds differ in the
    normalization, the enumeration and the name of the second column. *)
Lemma parse_shape dtype file :
  In dtype (keys FILE_PATTERNS) ->
  parse dtype file =
  match first_offending dtype file with
  | Some r => Err (InvalidOperationError (cell_text (normalized dtype r)))
  | None => Ok (metric_table dtype file)
  end.
Proof.
  intros Hd. apply keys_FILE_PATTERNS in Hd.
  repeat (destruct Hd as [-> | Hd]); [.. | subst dtype];
    first [ exact (format_shape_composed str_replace_whitespace _ _ file)
          | exact (format_shape_composed
                     (replace_value "self schedule" "self_schedule") _ _ file) ].
Qed.

End MetricFileParser.

Section MetricFileParserClaims.
Import Collate.

Lemma parse_ok_table dtype file lf :
  In dtype (keys FILE_PATTERNS) ->
  parse dtype file = Ok lf ->
  lf = metric_table dtype file /\
  Forall (fun r => null_or_category (enumeration dtype) (normalized dtype r))
         file.
Proof.
  intros Hd H. rewrite (parse_shape _ _ Hd) in H. unfold first_offending in H.
  destruct (find _ file) as [r|] eqn:E; [discriminate|].
  split; [congruence|].
  apply List.Forall_forall. intros r Hr.
  pose proof (find_none _ _ E r Hr) as Hn. simpl in Hn.
  now apply outside_spec.
Qed.

(** A table that is returned holds one row per line of the file, in the
    file's order, each with its normalized name: a category, or null
    where the cell was empty. *)
Lemma parse_ok_rows dtype file lf :
  In dtype (keys FILE_PATTERNS) ->
  parse dtype file = Ok lf ->
  length (lf_rows lf) = length file /\
  map dimension (lf_rows lf)
  = map (fun r => on_text (normalization dtype) (csv_series_name r)) file /\
  lf_enum lf = enumeration dtype /\
  Forall (fun row => null_or_category (lf_enum lf) (dimension row)) (lf_rows lf).
Proof.
  intros Hd H. destruct (parse_ok_table _ _ _ Hd H) as [-> Hall].
  unfold metric_table. simpl. rewrite length_map, List.map_map. simpl.
  repeat split.
  apply List.Forall_forall. intros row Hrow.
  apply in_map_iff in Hrow as (r & <- & Hr). simpl.
  rewrite List.Forall_forall in Hall. now apply Hall.
Qed.

Lemma not_mentions_ifm_dam : ~ mentions "ifm" "dam".
Proof.
  intros (pre & post & H).
  destruct pre as [|c1 [|c2 [|c3 [|c4 pre]]]]; try discriminate H.
Qed.

(** C5, as it stands, fails on the content of the error: [collate.py]
    writes no message of its own, and the error of the failed cast tells
    the value that is no category, "dam" for a ["DAM"] series of a
    state-of-charge file, not the categories it could have been. *)
Lemma names_valid_domain_counterexample : ~ names_valid_domain.
Proof.
  intros H.
  destruct (H "state_of_charge"
              [mkCsvRow 1735689600000000 (Some "DAM") (Some (7 # 1)%Q) None]
              (mkCsvRow 1735689600000000 (Some "DAM") (Some (7 # 1)%Q) None)
              "DAM")
    as (e & He & Hall).
  - simpl. tauto.
  - now left.
  - reflexivity.
  - simpl. intuition discriminate.
  - injection He as <-.
    apply not_mentions_ifm_dam. apply Hall. now left.
Qed.

(** C5, amended. Whatever the metric kind, a file of the four columns
    with a row whose series name normalizes to a text that is no category
    of the kind's enumeration does not parse: the cast raises, the error
    telling an offending value of the file, and no table is returned,
    neither without the row nor with the row coerced. A table that is
    returned holds one row per line, each with its normalized name, which
    is a category, or null for a line whose name cell is empty: null
    passes the cast. *)
Theorem out_of_enumeration_fails (dtype : string) (file : CsvFile)
    (r : CsvRow) (s : string) :
  In dtype (keys FILE_PATTERNS) ->
  In r file ->
  csv_series_name r = Some s ->
  ~ In (normalization dtype s) (enumeration dtype) ->
  (exists bad s',
     In bad file /\ csv_series_name bad = Some s' /\
     ~ In (normalization dtype s') (enumeration dtype) /\
     parse dtype file = Err (InvalidOperationError (normalization dtype s'))) /\
  (forall lf, parse dtype file <> Ok lf) /\
  (forall file' lf, parse dtype file' = Ok lf ->
     length (lf_rows lf) = length file' /\
     map dimension (lf_rows lf)
     = map (fun r => on_text (normalization dtype) (csv_series_name r)) file' /\
     Forall (fun row => null_or_category (enumeration dtype) (dimension row))
            (lf_rows lf)).
Proof.
  intros Hd Hr Hs Hout.
  assert (Hex : exists bad s',
             In bad file /\ csv_series_name bad = Some s' /\
             ~ In (normalization dtype s') (enumeration dtype) /\
             parse dtype file
             = Err (InvalidOperationError (normalization dtype s'))).
  { rewrite (parse_shape _ _ Hd). unfold first_offending.
    destruct (find _ file) as [bad|] eqn:E.
    - apply find_some in E as [Hin Hbad].
      apply outside_Some in Hbad as (v & Hv & Hnot).
      unfold normalized in Hv |- *.
      destruct (csv_series_name bad) as [s'|] eqn:Es; [|discriminate].
      injection Hv as <-. exists bad, s'. auto.
    - pose proof (find_none _ _ E r Hr) as Hn. simpl in Hn.
      unfold normalized in Hn. rewrite Hs in Hn. simpl in Hn.
      apply negb_false_iff, mem_In in Hn. contradiction. }
  split; [exact Hex|]. split.
  - destruct Hex as (bad & s' & _ & _ & _ & ->). discriminate.
  - intros file' lf H.
    destruct (parse_ok_rows _ _ _ Hd H) as (Hlen & Hdim & Henum & Hall).
    rewrite Henum in Hall. auto.
Qed.

(** A state-of-charge file with a series named "DAM". *)
Lemma out_of_enumeration_fails_witness :
  let good := mkCsvRow 1735689600000000 (Some "IFM") (Some (5 # 1)%Q) (Some "IFM") in
  let odd := mkCsvRow 1735689600000000 (Some "DAM") (Some (7 # 1)%Q) (Some "DAM") in
  parse "state_of_charge" [good; odd] = Err (InvalidOperationError "dam") /\
  (exists bad s',
     In bad [good; odd] /\ csv_series_name bad = Some s' /\
     ~ In (normalization "state_of_charge" s') (enumeration "state_of_charge") /\
     parse "state_of_charge" [good; odd]
     = Err (InvalidOperationError (normalization "state_of_charge" s'))) /\
  (forall lf, parse "state_of_charge" [good; odd] <> Ok lf) /\
  (forall file' lf, parse "state_of_charge" file' = Ok lf ->
     length (lf_rows lf) = length file' /\
     map dimension (lf_rows lf)
     = map (fun r => on_text (normalization "state_of_charge") (csv_series_name r))
           file' /\
     Forall (fun row => null_or_category (enumeration "state_of_charge")
                          (dimension row))
            (lf_rows lf)).
Proof.
  intros good odd. split; [reflexivity|].
  apply (out_of_enumeration_fails "state_of_charge" [good; odd] odd "DAM").
  - simpl. tauto.
  - simpl. tauto.
  - reflexivity.
  - simpl. intuition discriminate.
Defined.

(** A line whose name cell is empty is kept, with a null market. *)
Example empty_name_is_null :
  parse "energy_awards"
    [mkCsvRow 0 None (Some (5 # 1)%Q) None;
     mkCsvRow 0 (Some "RTD") (Some (7 # 1)%Q) None]
  = Ok (mkLazyFrame ["timestamp"; "market"; "volume"] ENERGY_ENUM
          [mkMetricRow 0 None (Some (5 # 1)%Q);
           mkMetricRow 0 (Some "rtd") (Some (7 # 1)%Q)]).
Proof. reflexivity. Qed.

(** *** Normalization, kind by kind *)

Lemma is_whitespace_to_lower c : is_whitespace (to_lower c) = is_whitespace c.
Proof.
  destruct c as [[] [] [] [] [] [] [] []]; reflexivity.
Qed.

Lemma whitespace_count_lowercase s :
  whitespace_count (str_to_lowercase s) = whitespace_count s.
Proof.
  induction s as [|c s IH]; simpl; [reflexivity|].
  now rewrite is_whitespace_to_lower, IH.
Qed.

Lemma replace_all_no_whitespace s :
  whitespace_count s = 0 -> str_replace_all_whitespace s = s.
Proof.
  induction s as [|c s IH]; simpl; [reflexivity|].
  destruct (is_whitespace c); [discriminate|].
  intros H. now rewrite IH.
Qed.

Lemma replace_first_is_replace_all s :
  whitespace_count s <= 1 ->
  str_replace_whitespace s = str_replace_all_whitespace s.
Proof.
  induction s as [|c s IH]; simpl; [reflexivity|].
  destruct (is_whitespace c); intros H.
  - rewrite replace_all_no_whitespace by lia. reflexivity.
  - now rewrite IH.
Qed.

(** C4, as it stands, fails: the bid formatter keeps the blank of the
    price bin "($0, $15]" (the category itself has one), where the
    energy-awards normalization would put an underscore. *)
Lemma uniform_normalization_counterexample :
  ~ uniform_normalization /\
  normalization "ifm_bids" "($0, $15]" = "($0, $15]" /\
  normalization "energy_awards" "($0, $15]" = "($0,_$15]".
Proof.
  split; [|split; reflexivity].
  intros H.
  specialize (H "ifm_bids" [mkCsvRow 0 (Some "($0, $15]") None None]
                (metric_table "ifm_bids" [mkCsvRow 0 (Some "($0, $15]") None None])).
  simpl in H. discriminate H; [tauto | reflexivity].
Qed.

(** C4, amended. Every kind's parser lower-cases the series name and
    casts the result into the kind's enumeration, and they differ in the
    step between the two. For [energy_awards] and the two [as_awards]
    kinds whitespace becomes an underscore (stated here for names with at
    most one whitespace character, as every category has). For the bid,
    offer and state-of-charge kinds the one value "self schedule" becomes
    "self_schedule" and every other value stays as lower-cased, blanks
    included. A name cell that is empty stays null through all of it. *)
Theorem normalization_by_kind (dtype : string) (file : CsvFile) (lf : LazyFrame) :
  In dtype (keys FILE_PATTERNS) ->
  parse dtype file = Ok lf ->
  map dimension (lf_rows lf)
  = map (fun r => on_text (normalization dtype) (csv_series_name r)) file /\
  lf_enum lf = enumeration dtype /\
  Forall (fun row => null_or_category (enumeration dtype) (dimension row))
         (lf_rows lf) /\
  (awards_kind dtype = true ->
     forall s, whitespace_count s <= 1 -> normalization dtype s = spec_normalize s) /\
  (awards_kind dtype = false ->
     forall s, normalization dtype s
               = if String.eqb (str_to_lowercase s) "self schedule"
                 then "self_schedule" else str_to_lowercase s).
Proof.
  intros Hd H.
  destruct (parse_ok_rows _ _ _ Hd H) as (_ & Hdim & Henum & Hall).
  split; [exact Hdim|]. split; [exact Henum|].
  split; [now rewrite <- Henum|]. split.
  - intros Hk s Hs. unfold normalization. rewrite Hk.
    unfold normalize_awards, spec_normalize.
    apply replace_first_is_replace_all.
    now rewrite whitespace_count_lowercase.
  - intros Hk s. unfold normalization. rewrite Hk. reflexivity.
Qed.

(** An AS-awards file with the series "Reg Down" and "Non Spin". *)
Lemma normalization_by_kind_witness :
  let file := [mkCsvRow 0 (Some "Reg Down") (Some (3 # 1)%Q) None;
               mkCsvRow 0 (Some "Non Spin") None None] in
  let lf := mkLazyFrame ["timestamp"; "service"; "volume"] AS_ENUM
              [mkMetricRow 0 (Some "reg_down") (Some (3 # 1)%Q);
               mkMetricRow 0 (Some "non_spin") None] in
  parse "fmm_as_awards" file = Ok lf /\
  map dimension (lf_rows lf)
  = map (fun r => on_text (normalization "fmm_as_awards") (csv_series_name r)) file /\
  lf_enum lf = enumeration "fmm_as_awards" /\
  Forall (fun row => null_or_category (enumeration "fmm_as_awards") (dimension row))
         (lf_rows lf) /\
  (awards_kind "fmm_as_awards" = true ->
     forall s, whitespace_count s <= 1 ->
               normalization "fmm_as_awards" s = spec_normalize s) /\
  (awards_kind "fmm_as_awards" = false ->
     forall s, normalization "fmm_as_awards" s
               = if String.eqb (str_to_lowercase s) "self schedule"
                 then "self_schedule" else str_to_lowercase s).
Proof.
  intros file lf. split; [reflexivity|].
  apply (normalization_by_kind "fmm_as_awards" file lf).
  - simpl. tauto.
  - reflexivity.
Defined.

End MetricFileParserClaims.

(** ** Collation: what a run returns *)

Section CollateRun.
Import Collate.

Lemma snd_bindIO {A B} (m : IO A) (k : A -> IO B) :
  snd (bindIO m k) = bind (snd m) (fun a => snd (k a)).
Proof.
  destruct m as [log [a|e]]; simpl; [|reflexivity].
  destruct (k a); reflexivity.
Qed.

Lemma bind_assoc {E A B C} (r : result E A) (k : A -> result E B)
    (h : B -> result E C) :
  bind (bind r k) h = bind r (fun a => bind (k a) h).
Proof. destruct r; reflexivity. Qed.

Lemma scan_matching_cons root pattern formatter csv_name csv entries frames :
  scan_matching root pattern formatter ((csv_name, csv) :: entries) frames =
  if re_match pattern csv_name then
    bindIO (emit (ScanCsv root csv_name)) (fun _ =>
      scan_matching root pattern formatter entries (frames ++ [formatter csv]))
  else scan_matching root pattern formatter entries frames.
Proof. reflexivity. Qed.

Lemma matching_files_cons pattern csv_name csv entries :
  matching_files pattern ((csv_name, csv) :: entries) =
  if re_match pattern csv_name
  then csv :: matching_files pattern entries
  else matching_files pattern entries.
Proof.
  unfold matching_files. simpl. now destruct (re_match pattern csv_name).
Qed.

(** The loop never raises: it returns one frame per matching file. *)
Lemma scan_matching_result root pattern formatter entries frames :
  snd (scan_matching root pattern formatter entries frames) =
  Ok (frames ++ map formatter (matching_files pattern entries)).
Proof.
  revert frames.
  induction entries as [|[csv_name csv] entries IH]; intros frames.
  - simpl. now rewrite app_nil_r.
  - rewrite scan_matching_cons, matching_files_cons.
    destruct (re_match pattern csv_name); [|apply IH].
    rewrite snd_bindIO. cbn [emit snd bind]. rewrite IH.
    cbn [map]. now rewrite <- app_assoc.
Qed.

Lemma mapM_id_map {E A B} (f : A -> result E B) l :
  mapM (fun lf => lf) (map f l) = mapM f l.
Proof.
  induction l as [|a l IH]; [reflexivity|].
  cbn [map mapM]. now rewrite IH.
Qed.

Lemma root_of_Some btype root :
  root_of btype = Some root ->
  (btype = "storage" /\ root = STORAGE_ROOT) \/
  (btype = "hybrid" /\ root = HYBRID_ROOT).
Proof.
  unfold root_of.
  destruct (String.eqb_spec btype "storage") as [->|_].
  - intros [= <-]. now left.
  - destruct (String.eqb_spec btype "hybrid") as [->|_]; [|discriminate].
    intros [= <-]. now right.
Qed.

Lemma snd_bindIO_ret {A B} (a : A) (k : A -> IO B) :
  snd (bindIO (ret a) k) = snd (k a).
Proof. unfold bindIO, ret. now destruct (k a). Qed.

Lemma snd_bindIO_lift {A B} (r : result error A) (k : A -> IO B) :
  snd (bindIO (lift r) k) = bind r (fun a => snd (k a)).
Proof. apply snd_bindIO. Qed.

Lemma snd_bindIO_iterdir {B} fs root (k : list (string * CsvFile) -> IO B) :
  snd (bindIO (iterdir fs root) k) =
  match fs root with
  | Some entries => snd (k entries)
  | None => Err (FileNotFoundError root)
  end.
Proof.
  rewrite snd_bindIO. unfold iterdir. rewrite snd_bindIO. simpl.
  destruct (fs root); reflexivity.
Qed.

Lemma mapM_ext {E A B} (f g : A -> result E B) l :
  (forall a, f a = g a) -> mapM f l = mapM g l.
Proof.
  intros H. induction l as [|a l IH]; simpl; [reflexivity|].
  now rewrite H, IH.
Qed.

Lemma getattr_formatter dtype :
  In dtype (keys FILE_PATTERNS) ->
  exists formatter,
    getattr ("format_" ++ dtype) = Ok formatter /\
    forall file, formatter file = parse dtype file.
Proof.
  intros Hd. apply keys_FILE_PATTERNS in Hd.
  repeat (destruct Hd as [-> | Hd]); [.. | subst dtype];
    eexists; split; reflexivity.
Qed.

Lemma sort_columns_eq dtype :
  (if String.eqb dtype "energy_awards" || String.eqb dtype "state_of_charge"
   then ["timestamp"; "market"] else ["timestamp"; "service"])
  = sort_columns dtype.
Proof.
  unfold sort_columns, dimension_name, mem. simpl.
  destruct (String.eqb dtype "energy_awards");
    destruct (String.eqb dtype "state_of_charge"); reflexivity.
Qed.

(** What [collate] returns once kind and battery type are recognized:
    an error at once when the directory is missing or no name matches,
    else a frame, with what its evaluation will give. *)
Lemma collate_returns fs dtype btype root :
  In dtype (keys FILE_PATTERNS) ->
  root_of btype = Some root ->
  exists pattern_str,
    getitem FILE_PATTERNS dtype = Some pattern_str /\
    snd (collate fs dtype btype) =
    match fs root with
    | None => Err (FileNotFoundError root)
    | Some entries =>
        match matching_files (re_compile pattern_str) entries with
        | [] => Err (ValueError "cannot concat empty list")
        | files =>
            Ok (bind (mapM (parse dtype) files)
                  (fun frames =>
                     bind (concat_vertical frames) (sort (sort_columns dtype))))
        end
    end.
Proof.
  intros Hd Hr.
  destruct (getitem FILE_PATTERNS dtype) as [pattern_str|] eqn:Hp;
    [|apply getitem_None in Hp; contradiction].
  exists pattern_str. split; [reflexivity|].
  destruct (getattr_formatter dtype Hd) as (formatter & Hg & Hparse).
  unfold collate. rewrite Hp, snd_bindIO_ret.
  assert (Hroot : (if String.eqb btype "storage" then ret STORAGE_ROOT
                   else if String.eqb btype "hybrid" then ret HYBRID_ROOT
                   else raise (ValueError
                          (quote btype ++ " is not a recognized battery type; must be one of "
                           ++ "'storage' or 'hybrid'"))) = ret root).
  { unfold root_of in Hr.
    destruct (String.eqb btype "storage"); [now injection Hr as <-|].
    destruct (String.eqb btype "hybrid"); [now injection Hr as <-|].
    discriminate. }
  rewrite Hroot, snd_bindIO_ret, Hg, snd_bindIO_lift.
  cbv beta iota delta [bind]. rewrite snd_bindIO_iterdir.
  destruct (fs root) as [entries|]; [|reflexivity].
  rewrite snd_bindIO, scan_matching_result.
  cbv beta iota delta [bind app]. cbv zeta.
  rewrite sort_columns_eq.
  destruct (matching_files (re_compile pattern_str) entries) as [|file files];
    [reflexivity|].
  rewrite snd_bindIO.
  change (snd (pl_concat (map formatter (file :: files))))
    with (Ok (E := error)
            (bind (mapM (fun lf => lf) (map formatter (file :: files)))
               concat_vertical)).
  cbn [bind]. unfold ret. cbn [snd].
  rewrite mapM_id_map, (mapM_ext formatter (parse dtype)) by exact Hparse.
  f_equal. now destruct (mapM (parse dtype) (file :: files)).
Qed.

(** The dataset of [collate] once kind and battery type are recognized. *)
Lemma collate_result fs dtype btype root :
  In dtype (keys FILE_PATTERNS) ->
  root_of btype = Some root ->
  exists pattern_str,
    getitem FILE_PATTERNS dtype = Some pattern_str /\
    collected (collate fs dtype btype) =
    match fs root with
    | None => Err (FileNotFoundError root)
    | Some entries =>
        bind (mapM (parse dtype)
                (matching_files (re_compile pattern_str) entries))
          (fun frames =>
             bind (concat_vertical frames) (sort (sort_columns dtype)))
    end.
Proof.
  intros Hd Hr.
  destruct (collate_returns fs dtype btype root Hd Hr) as (p & Hp & E).
  exists p. split; [exact Hp|]. unfold collected. rewrite E.
  destruct (fs root) as [entries|]; [|reflexivity].
  destruct (matching_files (re_compile p) entries); reflexivity.
Qed.

Lemma collate_ok_recognized fs dtype btype lf :
  snd (collate fs dtype btype) = Ok lf ->
  In dtype (keys FILE_PATTERNS) /\ exists root, root_of btype = Some root.
Proof.
  intros H.
  destruct (in_dec string_dec dtype (keys FILE_PATTERNS)) as [Hin | Hnin].
  - split; [exact Hin|]. unfold root_of.
    destruct (String.eqb_spec btype "storage") as [->|Hs]; [eauto|].
    destruct (String.eqb_spec btype "hybrid") as [->|Hh]; [eauto|].
    rewrite (collate_unknown_btype fs _ _ Hin Hs Hh) in H. discriminate.
  - rewrite (collate_unknown_dtype fs _ btype Hnin) in H. discriminate.
Qed.

Lemma collected_ok_recognized fs dtype btype d :
  collected (collate fs dtype btype) = Ok d ->
  In dtype (keys FILE_PATTERNS) /\ exists root, root_of btype = Some root.
Proof.
  unfold collected. intros H. apply bind_ok in H as (lf & H & _).
  exact (collate_ok_recognized _ _ _ _ H).
Qed.

(** C10. For a recognized metric kind and battery type, when no entry of
    the selected directory matches the kind's file-name pattern, [collate]
    raises instead of returning an empty dataset: the [ValueError] of a
    concatenation of no frame (or, the directory missing, the error of
    listing it). *)
Theorem collate_no_matching_file (fs : FileSystem) (dtype btype : string)
    (pattern_str : string) (root : Root) :
  getitem FILE_PATTERNS dtype = Some pattern_str ->
  root_of btype = Some root ->
  (forall entries csv_name csv,
     fs root = Some entries -> In (csv_name, csv) entries ->
     re_match (re_compile pattern_str) csv_name = false) ->
  snd (collate fs dtype btype) =
  Err (match fs root with
       | Some _ => ValueError "cannot concat empty list"
       | None => FileNotFoundError root
       end) /\
  forall lf, snd (collate fs dtype btype) <> Ok lf.
Proof.
  intros Hp Hr Hnone.
  assert (Hres : snd (collate fs dtype btype) =
                 Err (match fs root with
                      | Some _ => ValueError "cannot concat empty list"
                      | None => FileNotFoundError root
                      end)).
  { destruct (collate_returns fs dtype btype root (getitem_Some_In _ _ _ Hp) Hr)
      as (p & Hp' & ->).
    rewrite Hp in Hp'. injection Hp' as <-.
    destruct (fs root) as [entries|] eqn:Efs; [|reflexivity].
    assert (Hm : matching_files (re_compile pattern_str) entries = []).
    { unfold matching_files.
      assert (Hall : forall e, In e entries ->
                re_match (re_compile pattern_str) (fst e) = false).
      { intros [n c] Hin. simpl. eapply Hnone; eauto. }
      clear Efs Hnone. induction entries as [|e entries IH]; [reflexivity|].
      simpl. rewrite (Hall e) by now left.
      apply IH. intros e' He'. apply Hall. now right. }
    rewrite Hm. reflexivity. }
  split; [exact Hres|]. intros lf. rewrite Hres. discriminate.
Qed.

(** The storage directory holds bid files only; state of charge is asked. *)
Lemma collate_no_matching_file_witness :
  let fs : FileSystem := fun root =>
    match root with
    | STORAGE_ROOT =>
        Some [("20250101_IFM Energy Bid In Capacity - Charge.csv",
               [mkCsvRow 0 (Some "Self Schedule") None None]);
              ("notes.txt", [])]
    | HYBRID_ROOT => None
    end in
  snd (collate fs "state_of_charge" "storage") =
  Err (match fs STORAGE_ROOT with
       | Some _ => ValueError "cannot concat empty list"
       | None => FileNotFoundError STORAGE_ROOT
       end) /\
  forall lf, snd (collate fs "state_of_charge" "storage") <> Ok lf.
Proof.
  intros fs.
  apply (collate_no_matching_file fs "state_of_charge" "storage"
           "(\d{8})_Total State of Charge.csv" STORAGE_ROOT).
  - reflexivity.
  - reflexivity.
  - intros entries csv_name csv [= <-] [[= <- <-] | [[= <- <-] | []]];
      reflexivity.
Defined.

End CollateRun.

(** ** Collation: the order in which the files are listed *)

Section CollateOrder.
Import Collate.

Lemma key_leb_spec enum r1 r2 :
  key_leb enum r1 r2 = true <->
  (timestamp r1 < timestamp r2)%Z \/
  (timestamp r1 = timestamp r2 /\
   dimension_rank enum (dimension r1) <= dimension_rank enum (dimension r2)).
Proof.
  unfold key_leb.
  rewrite orb_true_iff, andb_true_iff, Z.ltb_lt, Z.eqb_eq, Nat.leb_le.
  reflexivity.
Qed.

Lemma key_leb_total enum r1 r2 :
  key_leb enum r1 r2 = true \/ key_leb enum r2 r1 = true.
Proof. rewrite !key_leb_spec. lia. Qed.

Lemma key_leb_trans enum r1 r2 r3 :
  key_leb enum r1 r2 = true -> key_leb enum r2 r3 = true ->
  key_leb enum r1 r3 = true.
Proof. rewrite !key_leb_spec. lia. Qed.

Lemma category_index_inj enum a b :
  In a enum -> category_index enum a = category_index enum b -> a = b.
Proof.
  induction enum as [|c enum IH]; simpl; [tauto|].
  intros Hin.
  destruct (String.eqb_spec c a) as [Hca|Hca],
           (String.eqb_spec c b) as [Hcb|Hcb];
    try discriminate; [congruence|].
  intros [= H]. destruct Hin as [Hin|Hin]; [contradiction|]. now apply IH.
Qed.

Lemma dimension_rank_inj enum a b :
  null_or_category enum a ->
  dimension_rank enum a = dimension_rank enum b -> a = b.
Proof.
  unfold null_or_category. destruct a as [s|], b as [s'|]; simpl;
    try discriminate; [|reflexivity].
  intros Hin [= H]. f_equal.
  apply (category_index_inj enum); [now apply Hin | exact H].
Qed.

(** A sorted rearrangement is unique when rows of equal rank are equal. *)
Lemma sorted_perm_unique {A} (le : A -> A -> Prop) (l1 l2 : list A) :
  (forall a b, In a l1 -> In b l1 -> le a b -> le b a -> a = b) ->
  StronglySorted le l1 -> StronglySorted le l2 ->
  Permutation l1 l2 -> l1 = l2.
Proof.
  revert l2. induction l1 as [|a l1 IH]; intros l2 Hanti Hs1 Hs2 Hp.
  - now apply Permutation_nil in Hp.
  - destruct l2 as [|b l2].
    { apply Permutation_sym, Permutation_nil in Hp. discriminate. }
    apply StronglySorted_inv in Hs1 as [Hs1 Ha].
    apply StronglySorted_inv in Hs2 as [Hs2 Hb].
    rewrite List.Forall_forall in Ha, Hb.
    assert (Hab : a = b).
    { assert (Hin_b : In b (a :: l1))
        by (apply (Permutation_in _ (Permutation_sym Hp)); now left).
      assert (Hin_a : In a (b :: l2))
        by (apply (Permutation_in _ Hp); now left).
      destruct Hin_b as [Heq | Hin_b]; [exact Heq|].
      destruct Hin_a as [Heq | Hin_a]; [now symmetry|].
      apply Hanti; [now left | now right | now apply Ha | now apply Hb]. }
    subst b. f_equal.
    apply IH; auto.
    + intros x y Hx Hy. apply Hanti; now right.
    + now apply Permutation_cons_inv in Hp.
Qed.

Lemma mapM_Forall2 {E A B} (f : A -> result E B) l bs :
  mapM f l = Ok bs <-> Forall2 (fun a b => f a = Ok b) l bs.
Proof.
  revert bs. induction l as [|a l IH]; intros bs; simpl.
  - split.
    + intros [= <-]. constructor.
    + intros H. inversion H. reflexivity.
  - split.
    + intros H. apply bind_ok in H as (b & Hb & H).
      apply bind_ok in H as (bs' & Hbs & [= <-]).
      constructor; [exact Hb | now apply IH].
    + intros H. inversion H as [|? b ? bs' Hb Hbs]; subst.
      rewrite Hb. simpl. apply IH in Hbs. now rewrite Hbs.
Qed.

Lemma mapM_perm {E A B} (f : A -> result E B) l l' bs :
  Permutation l l' -> mapM f l = Ok bs ->
  exists bs', mapM f l' = Ok bs' /\ Permutation bs bs'.
Proof.
  intros Hp H. apply mapM_Forall2 in H.
  destruct (Permutation_Forall2 Hp H) as (bs' & Hbs & HF).
  exists bs'. split; [now apply mapM_Forall2 | exact Hbs].
Qed.

Lemma filter_perm {A} (f : A -> bool) l l' :
  Permutation l l' -> Permutation (List.filter f l) (List.filter f l').
Proof.
  induction 1 as [|a l l' _ IH|a b l|l1 l2 l3 _ IH1 _ IH2]; simpl.
  - constructor.
  - destruct (f a); [now constructor | exact IH].
  - destruct (f a), (f b); try reflexivity. apply perm_swap.
  - now transitivity (List.filter f l2).
Qed.

Lemma matching_files_perm pattern entries entries' :
  Permutation entries entries' ->
  Permutation (matching_files pattern entries) (matching_files pattern entries').
Proof.
  intros H. unfold matching_files. now apply Permutation_map, filter_perm.
Qed.

Lemma concat_vertical_Ok frames lf :
  concat_vertical frames = Ok lf <->
  frames <> [] /\
  (forall f, In f frames ->
     lf_columns f = lf_columns lf /\ lf_enum f = lf_enum lf) /\
  lf_rows lf = concat (map lf_rows frames).
Proof.
  unfold concat_vertical. destruct frames as [|g rest].
  - split; [discriminate | intros [H _]; contradiction].
  - destruct (forallb (same_schema g) rest) eqn:E.
    + rewrite forallb_forall in E. split.
      * intros [= <-]. simpl. split; [discriminate|]. split; [|reflexivity].
        intros f [<- | Hf]; [auto|].
        apply E in Hf. unfold same_schema in Hf.
        apply andb_true_iff in Hf as [H1 H2].
        apply bool_decide_eq_true in H1, H2. auto.
      * intros (_ & Hall & Hrows). destruct lf as [cols enum rows].
        simpl in *. destruct (Hall g) as [-> ->]; [now left|]. now subst.
    + split; [discriminate|]. intros (_ & Hall & _). exfalso.
      assert (forallb (same_schema g) rest = true); [|congruence].
      apply forallb_forall. intros f Hf. unfold same_schema.
      destruct (Hall g) as [Hc He]; [now left|].
      destruct (Hall f) as [Hc' He']; [now right|].
      apply andb_true_iff. split; apply bool_decide_eq_true; congruence.
Qed.

Lemma concat_vertical_perm frames frames' lf :
  Permutation frames frames' -> concat_vertical frames = Ok lf ->
  exists lf', concat_vertical frames' = Ok lf' /\
    lf_columns lf' = lf_columns lf /\ lf_enum lf' = lf_enum lf /\
    Permutation (lf_rows lf) (lf_rows lf').
Proof.
  intros Hp H. apply concat_vertical_Ok in H as (Hne & Hall & Hrows).
  exists (mkLazyFrame (lf_columns lf) (lf_enum lf)
            (concat (map lf_rows frames'))).
  split; [|split; [reflexivity | split; [reflexivity|]]].
  - apply concat_vertical_Ok. simpl. split; [|split; [|reflexivity]].
    + intros ->. apply Permutation_sym, Permutation_nil in Hp. contradiction.
    + intros f Hf. apply Hall.
      now apply (Permutation_in _ (Permutation_sym Hp)).
  - simpl. rewrite Hrows, <- !flat_map_concat_map.
    now apply Permutation_flat_map.
Qed.

Lemma sort_Ok by_ lf d :
  sort by_ lf = Ok d ->
  d = mkLazyFrame (lf_columns lf) (lf_enum lf)
        (sort_by (key_leb (lf_enum lf)) (lf_rows lf)) /\
  forall lf', lf_columns lf' = lf_columns lf ->
    sort by_ lf' = Ok (mkLazyFrame (lf_columns lf') (lf_enum lf')
                         (sort_by (key_leb (lf_enum lf')) (lf_rows lf'))).
Proof.
  unfold sort. intros H.
  destruct (List.filter _ by_) eqn:E; [|discriminate].
  injection H as <-. split; [reflexivity|].
  intros lf' Hc. rewrite Hc, E. reflexivity.
Qed.

(** The categories of a collated dataset belong to its enumeration. *)
Lemma parsed_frames_in_enum dtype files frames :
  In dtype (keys FILE_PATTERNS) ->
  mapM (parse dtype) files = Ok frames ->
  forall f, In f frames ->
    Forall (fun row => null_or_category (lf_enum f) (dimension row)) (lf_rows f).
Proof.
  intros Hd H f Hf. apply mapM_Forall2 in H.
  induction H as [|file f' files frames Hparse _ IH]; [contradiction|].
  destruct Hf as [<- | Hf]; [|now apply IH].
  now destruct (parse_ok_rows _ _ _ Hd Hparse) as (_ & _ & _ & Hall).
Qed.

Lemma concat_rows_in_enum frames lf :
  concat_vertical frames = Ok lf ->
  (forall f, In f frames ->
     Forall (fun row => null_or_category (lf_enum f) (dimension row))
            (lf_rows f)) ->
  Forall (fun row => null_or_category (lf_enum lf) (dimension row)) (lf_rows lf).
Proof.
  intros H Hall. apply concat_vertical_Ok in H as (_ & Hschema & ->).
  apply List.Forall_forall. intros row Hrow.
  apply in_concat in Hrow as (rows & Hrows & Hrow).
  apply in_map_iff in Hrows as (f & <- & Hf).
  destruct (Hschema f Hf) as [_ <-].
  specialize (Hall f Hf). rewrite List.Forall_forall in Hall. now apply Hall.
Qed.

End CollateOrder.

Section CollateOrderClaims.
Import Collate.

Lemma same_two_days :
  same_directory_contents listed_first_then_second listed_second_then_first.
Proof.
  intros [|]; simpl; [apply perm_swap | exact I].
Qed.

(** C6, as it stands, fails: the sort looks at [(timestamp, market)]
    only, so the two midnight rows come out in the order the files were
    listed in, 55 then 56 one way and 56 then 55 the other. *)
Lemma order_independent_counterexample : ~ order_independent.
Proof.
  intros H.
  specialize (H listed_first_then_second listed_second_then_first
                "state_of_charge" "storage" _ same_two_days eq_refl).
  vm_compute in H. discriminate.
Qed.

(** C6, amended. Listing the same parseable files in another order gives
    a dataset with the same columns and the same rows with the same
    multiplicities, sorted by [(timestamp, market-or-service)] like the
    first; the two datasets are equal whenever rows that agree on
    [(timestamp, market-or-service)] agree on the volume. *)
Theorem collate_order (fs1 fs2 : FileSystem) (dtype btype : string)
    (d1 : LazyFrame) :
  same_directory_contents fs1 fs2 ->
  collected (collate fs1 dtype btype) = Ok d1 ->
  exists d2,
    collected (collate fs2 dtype btype) = Ok d2 /\
    lf_columns d2 = lf_columns d1 /\
    lf_enum d2 = lf_enum d1 /\
    Permutation (lf_rows d1) (lf_rows d2) /\
    StronglySorted (key_le (lf_enum d1)) (lf_rows d1) /\
    StronglySorted (key_le (lf_enum d1)) (lf_rows d2) /\
    (key_determines_row (lf_rows d1) -> d2 = d1).
Proof.
  intros Hsame H.
  destruct (collected_ok_recognized _ _ _ _ H) as [Hd [root Hr]].
  destruct (collate_result fs1 dtype btype root Hd Hr) as (p & Hp & E1).
  destruct (collate_result fs2 dtype btype root Hd Hr) as (p' & Hp' & E2).
  rewrite Hp in Hp'. injection Hp' as <-.
  specialize (Hsame root). rewrite E1 in H. rewrite E2. clear E1 E2.
  destruct (fs1 root) as [entries1|]; [|discriminate].
  destruct (fs2 root) as [entries2|]; [|contradiction].
  apply bind_ok in H as (frames & Hm & H).
  apply bind_ok in H as (lf & Hc & Hs).
  destruct (mapM_perm _ _ _ _ (matching_files_perm (re_compile p) _ _ Hsame) Hm)
    as (frames' & Hm' & Hpf).
  destruct (concat_vertical_perm _ _ _ Hpf Hc)
    as (lf' & Hc' & Hcols & Henum & Hrows).
  destruct (sort_Ok _ _ _ Hs) as [-> Hsort].
  specialize (Hsort lf' Hcols). rewrite Hcols, Henum in Hsort.
  exists (mkLazyFrame (lf_columns lf) (lf_enum lf)
            (sort_by (key_leb (lf_enum lf)) (lf_rows lf'))).
  simpl. rewrite Hm'. simpl. rewrite Hc'. simpl.
  split; [exact Hsort|]. split; [reflexivity|]. split; [reflexivity|].
  assert (Hperm : Permutation (sort_by (key_leb (lf_enum lf)) (lf_rows lf))
                    (sort_by (key_leb (lf_enum lf)) (lf_rows lf'))).
  { rewrite <- !sort_by_perm. exact Hrows. }
  assert (Hsorted : forall rows,
            StronglySorted (key_le (lf_enum lf))
              (sort_by (key_leb (lf_enum lf)) rows)).
  { intros rows.
    apply sort_by_sorted; [apply key_leb_total | apply key_leb_trans]. }
  split; [exact Hperm|]. split; [apply Hsorted|]. split; [apply Hsorted|].
  intros Hkey. f_equal. symmetry.
  apply (sorted_perm_unique (key_le (lf_enum lf)));
    [| apply Hsorted | apply Hsorted | exact Hperm].
  intros a b Ha Hb Hab Hba.
  apply key_leb_spec in Hab, Hba.
  assert (Hin : null_or_category (lf_enum lf) (dimension a)).
  { pose proof (concat_rows_in_enum _ _ Hc
                  (parsed_frames_in_enum _ _ _ Hd Hm)) as Hall.
    rewrite List.Forall_forall in Hall. apply Hall.
    now apply (Permutation_in _ (Permutation_sym (sort_by_perm _ _))) in Ha. }
  assert (Ht : timestamp a = timestamp b) by lia.
  assert (Hdim : dimension a = dimension b)
    by (apply (dimension_rank_inj (lf_enum lf)); [exact Hin | lia]).
  pose proof (Hkey a b Ha Hb Ht Hdim) as Hv.
  destruct a, b; simpl in *; congruence.
Qed.

End CollateOrderClaims.

Section CollateOrderWitness.
Import Collate.

Lemma collate_order_witness :
  exists d2,
    collected (collate listed_second_then_first "state_of_charge" "storage")
    = Ok d2 /\
    lf_columns d2 = lf_columns two_days_dataset /\
    lf_enum d2 = lf_enum two_days_dataset /\
    Permutation (lf_rows two_days_dataset) (lf_rows d2) /\
    StronglySorted (key_le (lf_enum two_days_dataset)) (lf_rows two_days_dataset) /\
    StronglySorted (key_le (lf_enum two_days_dataset)) (lf_rows d2) /\
    (key_determines_row (lf_rows two_days_dataset) -> d2 = two_days_dataset).
Proof.
  apply (collate_order listed_first_then_second listed_second_then_first
           "state_of_charge" "storage" two_days_dataset).
  - exact same_two_days.
  - reflexivity.
Defined.

(** Two days without a common instant: both listings give one dataset. *)
Example collate_distinct_instants :
  collected (collate listed_first_then_third "state_of_charge" "storage")
  = collected (collate listed_third_then_first "state_of_charge" "storage") /\
  collected (collate listed_first_then_third "state_of_charge" "storage")
  = Ok (mkLazyFrame ["timestamp"; "market"; "volume"] ["ifm"; "ruc"; "fmm"; "rtd"]
          [mkMetricRow 1735732800000000 (Some "ifm") (Some (40 # 1)%Q);
           mkMetricRow midnight (Some "ifm") (Some (55 # 1)%Q);
           mkMetricRow 1735905600000000 (Some "ifm") (Some (80 # 1)%Q);
           mkMetricRow 1735905600000000 (Some "rtd") (Some (12 # 1)%Q)]).
Proof. split; reflexivity. Qed.

End CollateOrderWitness.

(** *** Any sort that reads the key columns only *)

Section KeyOnlySort.
Import Collate.

(** A sort that decides the output positions from the key columns alone:
    [argsort] maps the keys, in input order, to the input positions in
    output order. *)
Variable argsort : list (Z * option string) -> list nat.

(** Whatever such a sort does with a tie, two rows that differ in the
    volume only come out in an order that follows the input order. *)
Lemma key_only_sort_follows_input (r1 r2 : MetricRow) :
  row_key r1 = row_key r2 -> r1 <> r2 ->
  Permutation [0; 1] (argsort [row_key r1; row_key r1]) ->
  sort_rows_with argsort [r1; r2] <> sort_rows_with argsort [r2; r1].
Proof.
  intros Hk Hne Hp. unfold sort_rows_with. simpl. rewrite <- Hk.
  apply Permutation_length_2_inv in Hp as [-> | ->]; simpl; congruence.
Qed.

End KeyOnlySort.

(** * Further properties *)

(** ** Report URLs *)

Section ReportUrls.
Import Simple Daily.

Lemma string_cons_app c (s1 s2 : string) :
  (String c s1 ++ s2)%string = String c (s1 ++ s2)%string.
Proof. reflexivity. Qed.

Lemma digit_char_cases n :
  digit_char n = "0"%char \/ digit_char n = "1"%char \/ digit_char n = "2"%char \/
  digit_char n = "3"%char \/ digit_char n = "4"%char \/ digit_char n = "5"%char \/
  digit_char n = "6"%char \/ digit_char n = "7"%char \/ digit_char n = "8"%char \/
  digit_char n = "9"%char.
Proof.
  unfold digit_char. pose proof (Nat.mod_upper_bound n 10).
  destruct (n mod 10) as [|[|[|[|[|[|[|[|[|[|k]]]]]]]]]]; try lia; tauto.
Qed.

Lemma digit_char_inj a b :
  digit_char a = digit_char b -> a mod 10 = b mod 10.
Proof.
  unfold digit_char. intros H.
  pose proof (Nat.mod_upper_bound a 10). pose proof (Nat.mod_upper_bound b 10).
  apply (f_equal nat_of_ascii) in H.
  rewrite !nat_ascii_embedding in H by lia. lia.
Qed.

Lemma digits_split n : n = 10 * (n / 10) + n mod 10.
Proof. apply Nat.div_mod_eq. Qed.

Lemma two_digits_chars n :
  two_digits n = String (digit_char (n / 10)) (String (digit_char n) EmptyString).
Proof. reflexivity. Qed.

Lemma string2_inj (c1 c2 d1 d2 : ascii) (s1 s2 : string) :
  String c1 (String c2 s1) = String d1 (String d2 s2) ->
  c1 = d1 /\ c2 = d2 /\ s1 = s2.
Proof. intros H. injection H. auto. Qed.

Lemma two_digits_inj a b :
  a < 100 -> b < 100 -> two_digits a = two_digits b -> a = b.
Proof.
  intros Ha Hb H. rewrite !two_digits_chars in H.
  apply string2_inj in H as (H1 & H2 & _).
  apply digit_char_inj in H1, H2.
  assert (a / 10 < 10) by (apply Nat.Div0.div_lt_upper_bound; lia).
  assert (b / 10 < 10) by (apply Nat.Div0.div_lt_upper_bound; lia).
  rewrite !Nat.mod_small in H1 by assumption.
  rewrite (digits_split a), (digits_split b). lia.
Qed.

Lemma four_digits_chars n :
  four_digits n = String (digit_char (n / 1000))
                    (String (digit_char (n / 100)) (two_digits n)).
Proof. reflexivity. Qed.

Lemma mod_100_digits n : n mod 100 = 10 * ((n / 10) mod 10) + n mod 10.
Proof.
  rewrite (digits_split n) at 1. rewrite (digits_split (n / 10)) at 1.
  replace (10 * (10 * (n / 10 / 10) + (n / 10) mod 10) + n mod 10)
    with ((10 * ((n / 10) mod 10) + n mod 10) + (n / 10 / 10) * 100) by lia.
  rewrite Nat.Div0.mod_add. apply Nat.mod_small.
  pose proof (Nat.mod_upper_bound (n / 10) 10).
  pose proof (Nat.mod_upper_bound n 10). lia.
Qed.

Lemma mod_1000_digits n : n mod 1000 = 100 * ((n / 100) mod 10) + n mod 100.
Proof.
  rewrite (Nat.div_mod_eq n 100) at 1.
  rewrite (digits_split (n / 100)) at 1.
  replace (100 * (10 * (n / 100 / 10) + (n / 100) mod 10) + n mod 100)
    with ((100 * ((n / 100) mod 10) + n mod 100) + (n / 100 / 10) * 1000) by lia.
  rewrite Nat.Div0.mod_add. apply Nat.mod_small.
  pose proof (Nat.mod_upper_bound (n / 100) 10).
  pose proof (Nat.mod_upper_bound n 100). lia.
Qed.

Lemma four_digits_inj a b :
  a < 5000 -> b < 5000 -> four_digits a = four_digits b -> a = b.
Proof.
  intros Ha Hb H. rewrite !four_digits_chars, !two_digits_chars in H.
  apply string2_inj in H as (H1 & H2 & H).
  apply string2_inj in H as (H3 & H4 & _).
  apply digit_char_inj in H1, H2, H3, H4.
  assert (a / 1000 < 10) by (apply Nat.Div0.div_lt_upper_bound; lia).
  assert (b / 1000 < 10) by (apply Nat.Div0.div_lt_upper_bound; lia).
  rewrite !Nat.mod_small in H1 by assumption.
  pose proof (Nat.div_mod_eq a 1000) as Ea.
  pose proof (Nat.div_mod_eq b 1000) as Eb.
  pose proof (mod_1000_digits a). pose proof (mod_1000_digits b).
  pose proof (mod_100_digits a). pose proof (mod_100_digits b).
  lia.
Qed.

Lemma lower_app s1 s2 : lower (s1 ++ s2) = (lower s1 ++ lower s2)%string.
Proof.
  induction s1 as [|c s1 IH]; [reflexivity|].
  rewrite string_cons_app. simpl lower. rewrite IH. reflexivity.
Qed.

Lemma lower_char_digit n : lower_char (digit_char n) = digit_char n.
Proof.
  destruct (digit_char_cases n)
    as [H|[H|[H|[H|[H|[H|[H|[H|[H|H]]]]]]]]]; rewrite H; reflexivity.
Qed.

Lemma lower_cons c s : lower (String c s) = String (lower_char c) (lower s).
Proof. reflexivity. Qed.

Lemma lower_two_digits n : lower (two_digits n) = two_digits n.
Proof.
  rewrite two_digits_chars, !lower_cons, !lower_char_digit. reflexivity.
Qed.

Lemma lower_four_digits n : lower (four_digits n) = four_digits n.
Proof.
  rewrite four_digits_chars, !lower_cons, !lower_char_digit, lower_two_digits.
  reflexivity.
Qed.

Lemma string_app_nil_r (s : string) : (s ++ "")%string = s.
Proof.
  induction s as [|c s IH]; [reflexivity|].
  rewrite string_cons_app. now rewrite IH.
Qed.

(** The three formats, once lower-cased. *)
Lemma strftime_compact d : lower (strftime d "%b%d-%Y") = compact_date d.
Proof.
  change (strftime d "%b%d-%Y")
    with (month_abbr (month d)
          ++ two_digits (day d) ++ String "-" (four_digits (year d) ++ ""))%string.
  rewrite string_app_nil_r, !lower_app, lower_cons.
  rewrite lower_two_digits, lower_four_digits. reflexivity.
Qed.

Lemma strftime_joined d : lower (strftime d "%b-%d%Y") = joined_date d.
Proof.
  change (strftime d "%b-%d%Y")
    with (month_abbr (month d)
          ++ String "-" (two_digits (day d) ++ four_digits (year d) ++ ""))%string.
  rewrite string_app_nil_r, !lower_app, lower_cons, lower_app.
  rewrite lower_two_digits, lower_four_digits. reflexivity.
Qed.

Lemma strftime_dashed d : lower (strftime d "%b-%d-%Y") = dashed_date d.
Proof.
  change (strftime d "%b-%d-%Y")
    with (month_abbr (month d)
          ++ String "-" (two_digits (day d)
                         ++ String "-" (four_digits (year d) ++ "")))%string.
  rewrite string_app_nil_r, !lower_app, lower_cons, lower_app, lower_cons.
  rewrite lower_two_digits, lower_four_digits. reflexivity.
Qed.

Lemma string_cons_inj c1 s1 c2 s2 :
  String c1 s1 = String c2 s2 -> c1 = c2 /\ s1 = s2.
Proof. intros H. injection H. auto. Qed.

Lemma digit_char_not_dash n : digit_char n <> "-"%char.
Proof.
  destruct (digit_char_cases n)
    as [H|[H|[H|[H|[H|[H|[H|[H|[H|H]]]]]]]]]; rewrite H; discriminate.
Qed.

Lemma month_three m :
  1 <= m <= 12 ->
  exists a b c, lower (month_abbr m) = String a (String b (String c EmptyString)).
Proof.
  intros Hm.
  destruct m as [|[|[|[|[|[|[|[|[|[|[|[|[|m]]]]]]]]]]]]]; try lia;
    vm_compute; eauto.
Qed.

Lemma month_inj m1 m2 :
  1 <= m1 <= 12 -> 1 <= m2 <= 12 ->
  lower (month_abbr m1) = lower (month_abbr m2) -> m1 = m2.
Proof.
  intros H1 H2.
  destruct m1 as [|[|[|[|[|[|[|[|[|[|[|[|[|m1]]]]]]]]]]]]]; try lia;
    destruct m2 as [|[|[|[|[|[|[|[|[|[|[|[|[|m2]]]]]]]]]]]]]; try lia;
    intros H; try reflexivity; vm_compute in H; discriminate.
Qed.

Lemma compact_chars d a b c :
  lower (month_abbr (month d)) = String a (String b (String c EmptyString)) ->
  compact_date d =
  String a (String b (String c
    (String (digit_char (day d / 10)) (String (digit_char (day d))
       (String "-" (four_digits (year d))))))).
Proof. intros E. unfold compact_date. rewrite E. reflexivity. Qed.

Lemma joined_chars d a b c :
  lower (month_abbr (month d)) = String a (String b (String c EmptyString)) ->
  joined_date d =
  String a (String b (String c (String "-"
    (String (digit_char (day d / 10)) (String (digit_char (day d))
       (four_digits (year d))))))).
Proof. intros E. unfold joined_date. rewrite E. reflexivity. Qed.

Lemma dashed_chars d a b c :
  lower (month_abbr (month d)) = String a (String b (String c EmptyString)) ->
  dashed_date d =
  String a (String b (String c (String "-"
    (String (digit_char (day d / 10)) (String (digit_char (day d))
       (String "-" (four_digits (year d)))))))).
Proof. intros E. unfold dashed_date. rewrite E. reflexivity. Qed.

Ltac split_string H :=
  repeat match type of H with
         | String _ _ = String _ _ =>
             let Hc := fresh "Hc" in
             apply string_cons_inj in H as [Hc H]
         end.

(** A compact or joined date is never spelt like a dashed one. *)
Lemma compact_not_dashed d d' :
  valid_date d -> valid_date d' -> compact_date d <> dashed_date d'.
Proof.
  intros (Hm & _) (Hm' & _) H.
  destruct (month_three _ Hm) as (a & b & c & E).
  destruct (month_three _ Hm') as (a' & b' & c' & E').
  rewrite (compact_chars _ _ _ _ E), (dashed_chars _ _ _ _ E') in H.
  split_string H. eapply digit_char_not_dash; eauto.
Qed.

Lemma joined_not_dashed d d' :
  valid_date d -> valid_date d' -> joined_date d <> dashed_date d'.
Proof.
  intros (Hm & _) (Hm' & _) H.
  destruct (month_three _ Hm) as (a & b & c & E).
  destruct (month_three _ Hm') as (a' & b' & c' & E').
  rewrite (joined_chars _ _ _ _ E), (dashed_chars _ _ _ _ E'), four_digits_chars in H.
  split_string H. eapply digit_char_not_dash; eauto.
Qed.

Lemma date_eq d d' :
  year d = year d' -> month d = month d' -> day d = day d' -> d = d'.
Proof. destruct d, d'. simpl. now intros -> -> ->. Qed.

Lemma dashed_inj d d' :
  valid_date d -> valid_date d' -> dashed_date d = dashed_date d' -> d = d'.
Proof.
  intros (Hm & Hd & Hy) (Hm' & Hd' & Hy') H.
  destruct (month_three _ Hm) as (a & b & c & E).
  destruct (month_three _ Hm') as (a' & b' & c' & E').
  rewrite (dashed_chars _ _ _ _ E), (dashed_chars _ _ _ _ E') in H.
  split_string H. subst.
  apply date_eq.
  - apply four_digits_inj; [lia | lia | assumption].
  - apply month_inj; [assumption | assumption | congruence].
  - apply two_digits_inj; [lia | lia |]. rewrite !two_digits_chars. congruence.
Qed.

Lemma compact_inj d d' :
  valid_date d -> valid_date d' -> compact_date d = compact_date d' -> d = d'.
Proof.
  intros (Hm & Hd & Hy) (Hm' & Hd' & Hy') H.
  destruct (month_three _ Hm) as (a & b & c & E).
  destruct (month_three _ Hm') as (a' & b' & c' & E').
  rewrite (compact_chars _ _ _ _ E), (compact_chars _ _ _ _ E') in H.
  split_string H. subst.
  apply date_eq.
  - apply four_digits_inj; [lia | lia | assumption].
  - apply month_inj; [assumption | assumption | congruence].
  - apply two_digits_inj; [lia | lia |]. rewrite !two_digits_chars. congruence.
Qed.

Lemma joined_inj d d' :
  valid_date d -> valid_date d' -> joined_date d = joined_date d' -> d = d'.
Proof.
  intros (Hm & Hd & Hy) (Hm' & Hd' & Hy') H.
  destruct (month_three _ Hm) as (a & b & c & E).
  destruct (month_three _ Hm') as (a' & b' & c' & E').
  rewrite (joined_chars _ _ _ _ E), (joined_chars _ _ _ _ E') in H.
  split_string H. subst.
  apply date_eq.
  - apply four_digits_inj; [lia | lia | assumption].
  - apply month_inj; [assumption | assumption | congruence].
  - apply two_digits_inj; [lia | lia |]. rewrite !two_digits_chars. congruence.
Qed.

Lemma is_date_true d y m dd :
  is_date d y m dd = true <-> d = mkDate y m dd.
Proof.
  unfold is_date. rewrite !andb_true_iff, !Nat.eqb_eq. split.
  - intros [[Hy Hm] Hd]. now apply date_eq.
  - intros ->. auto.
Qed.

(** The table of anomalous dates: inert on compact and joined dates, and
    on dashed dates it rewrites two days of 2025 only. *)
Lemma anomalous_compact d :
  valid_date d ->
  dict_get ANOMALOUS_DATES (compact_date d) (compact_date d) = compact_date d.
Proof.
  intros Hv. unfold dict_get, ANOMALOUS_DATES.
  destruct (String.eqb_spec "may-08-2025" (compact_date d)) as [E|_].
  { exfalso. apply (compact_not_dashed d (mkDate 2025 5 8) Hv);
      [unfold valid_date; simpl; lia | now rewrite <- E]. }
  destruct (String.eqb_spec "jul-09-2025" (compact_date d)) as [E|_];
    [|reflexivity].
  exfalso. apply (compact_not_dashed d (mkDate 2025 7 9) Hv);
    [unfold valid_date; simpl; lia | now rewrite <- E].
Qed.

Lemma anomalous_joined d :
  valid_date d ->
  dict_get ANOMALOUS_DATES (joined_date d) (joined_date d) = joined_date d.
Proof.
  intros Hv. unfold dict_get, ANOMALOUS_DATES.
  destruct (String.eqb_spec "may-08-2025" (joined_date d)) as [E|_].
  { exfalso. apply (joined_not_dashed d (mkDate 2025 5 8) Hv);
      [unfold valid_date; simpl; lia | now rewrite <- E]. }
  destruct (String.eqb_spec "jul-09-2025" (joined_date d)) as [E|_];
    [|reflexivity].
  exfalso. apply (joined_not_dashed d (mkDate 2025 7 9) Hv);
    [unfold valid_date; simpl; lia | now rewrite <- E].
Qed.

Lemma anomalous_dashed d :
  valid_date d ->
  dict_get ANOMALOUS_DATES (dashed_date d) (dashed_date d) =
  if is_date d 2025 5 8 then "may-8-2025"
  else if is_date d 2025 7 9 then "jul-9-2025"
  else dashed_date d.
Proof.
  intros Hv. unfold dict_get, ANOMALOUS_DATES.
  assert (Hv1 : valid_date (mkDate 2025 5 8)) by (unfold valid_date; simpl; lia).
  assert (Hv2 : valid_date (mkDate 2025 7 9)) by (unfold valid_date; simpl; lia).
  destruct (String.eqb_spec "may-08-2025" (dashed_date d)) as [E|N1].
  { assert (d = mkDate 2025 5 8) as -> by (apply dashed_inj; auto).
    reflexivity. }
  destruct (is_date d 2025 5 8) eqn:I1.
  { apply is_date_true in I1. subst d. now contradiction N1. }
  destruct (String.eqb_spec "jul-09-2025" (dashed_date d)) as [E|N2].
  { assert (d = mkDate 2025 7 9) as -> by (apply dashed_inj; auto).
    reflexivity. }
  destruct (is_date d 2025 7 9) eqn:I2; [|reflexivity].
  apply is_date_true in I2. subst d. now contradiction N2.
Qed.

(** X1. [format_2022_url] and [format_2023_url] give one and the same
    URL, the old prefix followed by the compact date: the table of
    anomalous dates, whose keys are dashed, never changes it. *)
Theorem old_format_url (d : Date) :
  valid_date d ->
  format_2023_url d = (old_prefix ++ compact_date d ++ ".html")%string /\
  format_2022_url d = format_2023_url d.
Proof.
  intros Hv. split; [|reflexivity].
  unfold format_2023_url. rewrite strftime_compact. cbv zeta.
  rewrite (anomalous_compact d Hv). reflexivity.
Qed.

Lemma old_format_url_witness :
  valid_date (mkDate 2022 7 31) /\
  format_2023_url (mkDate 2022 7 31)
  = (old_prefix ++ compact_date (mkDate 2022 7 31) ++ ".html")%string /\
  format_2022_url (mkDate 2022 7 31) = format_2023_url (mkDate 2022 7 31).
Proof.
  assert (Hv : valid_date (mkDate 2022 7 31)) by (unfold valid_date; simpl; lia).
  split; [exact Hv|]. apply (old_format_url (mkDate 2022 7 31) Hv).
Defined.

Lemma format_2025_url_form (d : Date) :
  valid_date d ->
  format_2025_url d =
  (new_prefix
   ++ (if is_date d 2025 5 8 then "may-8-2025"
       else if is_date d 2025 7 9 then "jul-9-2025"
       else dashed_date d)
   ++ ".html")%string.
Proof.
  intros Hv. unfold format_2025_url. rewrite strftime_dashed. cbv zeta.
  rewrite (anomalous_dashed d Hv). reflexivity.
Qed.

(** X2. [format_2025_url] gives the new prefix followed by the dashed
    date, except on 8 May 2025 and 9 July 2025, the only two days the
    table of anomalous dates rewrites (to [may-8-2025] and [jul-9-2025]). *)
Theorem format_2025_url_cases (d : Date) :
  valid_date d ->
  format_2025_url d =
  (new_prefix
   ++ (if is_date d 2025 5 8 then "may-8-2025"
       else if is_date d 2025 7 9 then "jul-9-2025"
       else dashed_date d)
   ++ ".html")%string.
Proof. exact (format_2025_url_form d). Qed.

Lemma format_2025_url_cases_witness :
  valid_date (mkDate 2025 5 8) /\
  format_2025_url (mkDate 2025 5 8) =
  (new_prefix
   ++ (if is_date (mkDate 2025 5 8) 2025 5 8 then "may-8-2025"
       else if is_date (mkDate 2025 5 8) 2025 7 9 then "jul-9-2025"
       else dashed_date (mkDate 2025 5 8))
   ++ ".html")%string.
Proof.
  assert (Hv : valid_date (mkDate 2025 5 8)) by (unfold valid_date; simpl; lia).
  split; [exact Hv|]. apply (format_2025_url_cases (mkDate 2025 5 8) Hv).
Defined.

(** X3. For a day of 2024, [format_2024_url] gives the old prefix and the
    compact date before 24 May, the new prefix and the joined date
    ([may-302024]) on 30 and 31 May, and the new prefix and the dashed
    date on every other day; no anomalous-date rewriting applies. *)
Theorem format_2024_url_eras (d : Date) :
  valid_date d -> year d = 2024 ->
  format_2024_url d =
  if Nat.ltb (month d) 5 || (Nat.eqb (month d) 5 && Nat.ltb (day d) 24)
  then (old_prefix ++ compact_date d ++ ".html")%string
  else if Nat.eqb (month d) 5 && Nat.leb 30 (day d)
       then (new_prefix ++ joined_date d ++ ".html")%string
       else (new_prefix ++ dashed_date d ++ ".html")%string.
Proof.
  intros Hv Hy. unfold format_2024_url.
  destruct (_ || _).
  - rewrite strftime_compact. cbv zeta.
    rewrite (anomalous_compact d Hv). reflexivity.
  - destruct (_ && _).
    + rewrite strftime_joined. cbv zeta.
      rewrite (anomalous_joined d Hv). reflexivity.
    + rewrite (format_2025_url_form d Hv).
      unfold is_date. rewrite Hy. reflexivity.
Qed.

Lemma format_2024_url_eras_witness :
  valid_date (mkDate 2024 5 30) /\ year (mkDate 2024 5 30) = 2024 /\
  format_2024_url (mkDate 2024 5 30) =
  (new_prefix ++ joined_date (mkDate 2024 5 30) ++ ".html")%string.
Proof.
  assert (Hv : valid_date (mkDate 2024 5 30)) by (unfold valid_date; simpl; lia).
  split; [exact Hv|]. split; [reflexivity|].
  apply (format_2024_url_eras (mkDate 2024 5 30) Hv eq_refl).
Defined.

Lemma string_length_app (a b : string) :
  String.length (a ++ b) = String.length a + String.length b.
Proof.
  induction a as [|c a IH]; [reflexivity|].
  rewrite string_cons_app. simpl. now rewrite IH.
Qed.

Lemma string_app_inv_head (s a b : string) :
  (s ++ a = s ++ b)%string -> a = b.
Proof.
  induction s as [|c s IH]; [auto|].
  rewrite !string_cons_app. intros H.
  apply string_cons_inj in H as [_ H]. auto.
Qed.

Lemma string_app_inv_tail (t a b : string) :
  (a ++ t = b ++ t)%string -> a = b.
Proof.
  revert b. induction a as [|c a IH]; intros b H.
  - destruct b as [|c' b]; [reflexivity|].
    apply (f_equal String.length) in H.
    rewrite !string_length_app in H. simpl in H. lia.
  - destruct b as [|c' b].
    + apply (f_equal String.length) in H.
      rewrite !string_length_app in H. simpl in H. lia.
    + rewrite !string_cons_app in H.
      apply string_cons_inj in H as [-> H]. f_equal. auto.
Qed.

Lemma compact_not_joined d d' :
  valid_date d -> valid_date d' -> compact_date d <> joined_date d'.
Proof.
  intros (Hm & _) (Hm' & _) H.
  destruct (month_three _ Hm) as (a & b & c & E).
  destruct (month_three _ Hm') as (a' & b' & c' & E').
  rewrite (compact_chars _ _ _ _ E), (joined_chars _ _ _ _ E') in H.
  split_string H. eapply digit_char_not_dash; eauto.
Qed.

(** No date is spelt like one of the two rewritten ones. *)
Lemma date_not_rewritten d :
  valid_date d ->
  (compact_date d <> "may-8-2025" /\ compact_date d <> "jul-9-2025") /\
  (joined_date d <> "may-8-2025" /\ joined_date d <> "jul-9-2025") /\
  (dashed_date d <> "may-8-2025" /\ dashed_date d <> "jul-9-2025").
Proof.
  intros (Hm & _).
  destruct (month_three _ Hm) as (a & b & c & E).
  rewrite (compact_chars _ _ _ _ E), (joined_chars _ _ _ _ E),
    (dashed_chars _ _ _ _ E).
  repeat split; intros H; split_string H;
    eapply digit_char_not_dash; eauto.
Qed.

(** The shape of the URL of a supported day. *)
Lemma resolve_url_shape d u :
  valid_date d -> resolve_url d = Some u ->
  u = (old_prefix ++ compact_date d ++ ".html")%string \/
  exists body,
    u = (new_prefix ++ body ++ ".html")%string /\
    (body = joined_date d \/ body = dashed_date d \/
     (body = "may-8-2025" /\ d = mkDate 2025 5 8) \/
     (body = "jul-9-2025" /\ d = mkDate 2025 7 9)).
Proof.
  intros Hv. unfold resolve_url.
  assert (H25 : format_2025_url d = (old_prefix ++ compact_date d ++ ".html")%string \/
          exists body,
            format_2025_url d = (new_prefix ++ body ++ ".html")%string /\
            (body = joined_date d \/ body = dashed_date d \/
             (body = "may-8-2025" /\ d = mkDate 2025 5 8) \/
             (body = "jul-9-2025" /\ d = mkDate 2025 7 9))).
  { right. rewrite (format_2025_url_form d Hv).
    destruct (is_date d 2025 5 8) eqn:I1.
    - apply is_date_true in I1. eexists. split; [reflexivity|]. auto.
    - destruct (is_date d 2025 7 9) eqn:I2.
      + apply is_date_true in I2. eexists. split; [reflexivity|]. auto 6.
      + eexists. split; [reflexivity|]. auto. }
  assert (H23 : format_2023_url d = (old_prefix ++ compact_date d ++ ".html")%string).
  { unfold format_2023_url. rewrite strftime_compact. cbv zeta.
    rewrite (anomalous_compact d Hv). reflexivity. }
  destruct (Nat.eqb (year d) 2025); [intros [= <-]; exact H25|].
  destruct (Nat.eqb (year d) 2024).
  { intros [= <-]. unfold format_2024_url.
    destruct (_ || _).
    - left. rewrite strftime_compact. cbv zeta.
      rewrite (anomalous_compact d Hv). reflexivity.
    - destruct (_ && _); [|exact H25].
      right. exists (joined_date d). split; [|auto].
      rewrite strftime_joined. cbv zeta.
      rewrite (anomalous_joined d Hv). reflexivity. }
  destruct (Nat.eqb (year d) 2023); [intros [= <-]; now left|].
  destruct (Nat.eqb (year d) 2022); [intros [= <-]; now left|].
  discriminate.
Qed.

Lemma prefixes_differ (x y : string) :
  (old_prefix ++ x)%string <> (new_prefix ++ y)%string.
Proof.
  intros H. apply (f_equal (String.get 37)) in H.
  vm_compute in H. discriminate.
Qed.

(** X4. Two different days of the supported years never share a URL. *)
Theorem resolve_url_injective (d1 d2 : Date) (u : string) :
  valid_date d1 -> valid_date d2 ->
  resolve_url d1 = Some u -> resolve_url d2 = Some u ->
  d1 = d2.
Proof.
  intros Hv1 Hv2 H1 H2.
  pose proof (date_not_rewritten d1 Hv1) as ((Nc1 & Nc1') & (Nj1 & Nj1') & (Nd1 & Nd1')).
  pose proof (date_not_rewritten d2 Hv2) as ((Nc2 & Nc2') & (Nj2 & Nj2') & (Nd2 & Nd2')).
  destruct (resolve_url_shape d1 u Hv1 H1) as [E1 | (b1 & E1 & F1)];
    destruct (resolve_url_shape d2 u Hv2 H2) as [E2 | (b2 & E2 & F2)];
    rewrite E1 in E2.
  - apply string_app_inv_head, string_app_inv_tail in E2.
    now apply compact_inj.
  - exfalso. exact (prefixes_differ _ _ E2).
  - exfalso. symmetry in E2. exact (prefixes_differ _ _ E2).
  - apply string_app_inv_head, string_app_inv_tail in E2. subst b2.
    destruct F1 as [-> | [-> | [[-> ->] | [-> ->]]]];
      destruct F2 as [F2 | [F2 | [[F2 ->] | [F2 ->]]]];
      try reflexivity; try discriminate F2;
      try (now apply joined_inj); try (now apply dashed_inj);
      try (exfalso; now apply (joined_not_dashed _ _ Hv1 Hv2));
      try (exfalso; symmetry in F2; now apply (joined_not_dashed _ _ Hv2 Hv1));
      try (exfalso; congruence).
Qed.

Lemma resolve_url_injective_witness :
  valid_date (mkDate 2024 5 29) /\ valid_date (mkDate 2024 5 29) /\
  resolve_url (mkDate 2024 5 29)
  = Some "https://www.caiso.com/documents/daily-energy-storage-report-may-29-2024.html" /\
  mkDate 2024 5 29 = mkDate 2024 5 29.
Proof.
  assert (Hv : valid_date (mkDate 2024 5 29)) by (unfold valid_date; simpl; lia).
  split; [exact Hv|]. split; [exact Hv|]. split; [reflexivity|].
  exact (resolve_url_injective (mkDate 2024 5 29) (mkDate 2024 5 29) _
           Hv Hv eq_refl eq_refl).
Defined.

End ReportUrls.

(** ** One day's run *)

Section SingleDay.
Import Simple Daily.

Lemma csv_name_inj d t1 t2 : csv_name d t1 = csv_name d t2 -> t1 = t2.
Proof.
  unfold csv_name. intros H.
  apply string_app_inv_head in H.
  change ("_" ++ t1 ++ ".csv")%string with (String "_" (t1 ++ ".csv")) in H.
  change ("_" ++ t2 ++ ".csv")%string with (String "_" (t2 ++ ".csv")) in H.
  apply string_cons_inj in H as [_ H].
  now apply string_app_inv_tail in H.
Qed.

Lemma csv_name_chars d t :
  csv_name d t =
  String (digit_char (year d / 1000)) (String (digit_char (year d / 100))
    (String (digit_char (year d / 10)) (String (digit_char (year d))
      (String (digit_char (month d / 10)) (String (digit_char (month d))
        (String (digit_char (day d / 10)) (String (digit_char (day d))
          (String "_" (t ++ ".csv"))))))))).
Proof. reflexivity. Qed.

Lemma digit_char_not_slash n : Ascii.eqb (digit_char n) "/" = false.
Proof.
  destruct (digit_char_cases n)
    as [H|[H|[H|[H|[H|[H|[H|[H|[H|H]]]]]]]]]; rewrite H; reflexivity.
Qed.

Lemma has_separator_app a b :
  has_separator (a ++ b) = has_separator a || has_separator b.
Proof.
  induction a as [|c a IH]; [reflexivity|].
  change (String c a ++ b)%string with (String c (a ++ b)).
  cbn [has_separator]. rewrite IH. now rewrite orb_assoc.
Qed.

(** The date and the extension bring no separator into a file name. *)
Lemma has_separator_csv_name d t :
  has_separator (csv_name d t) = has_separator t.
Proof.
  rewrite csv_name_chars. cbn [has_separator].
  rewrite !digit_char_not_slash.
  change (Ascii.eqb "_" "/") with false. cbn [orb].
  rewrite has_separator_app.
  change (has_separator ".csv") with false. apply orb_false_r.
Qed.

Lemma write_tables_cons d t df rest :
  write_tables d ((t, df) :: rest) =
  if has_separator t then ([], Err (OSError (csv_name d t)))
  else (ToCsv (csv_name d t) df :: fst (write_tables d rest),
        snd (write_tables d rest)).
Proof.
  change (write_tables d ((t, df) :: rest))
    with (bindIO (to_csv (csv_name d t) df) (fun _ => write_tables d rest)).
  unfold to_csv. rewrite has_separator_csv_name.
  destruct (has_separator t); [reflexivity|].
  unfold bindIO. now destruct (write_tables d rest).
Qed.

(** The loop writes the tables in order, up to the first whose title has
    a separator, and fails there. *)
Lemma write_tables_log d items :
  exists done,
    fst (write_tables d items)
    = map (fun '(t, df) => ToCsv (csv_name d t) df) done /\
    Forall (fun it => has_separator (fst it) = false) done /\
    match snd (write_tables d items) with
    | Ok _ => done = items
    | Err e =>
        exists t df rest,
          items = done ++ (t, df) :: rest /\ has_separator t = true /\
          e = OSError (csv_name d t)
    end.
Proof.
  induction items as [|[t df] items (done & Hlog & Hfree & Hres)].
  - exists []. repeat split. constructor.
  - rewrite write_tables_cons. destruct (has_separator t) eqn:Ht.
    + exists []. split; [reflexivity|]. split; [constructor|].
      exists t, df, items. now repeat split.
    + exists ((t, df) :: done). cbn [fst snd]. split; [|split].
      * rewrite Hlog. reflexivity.
      * constructor; assumption.
      * destruct (snd (write_tables d items)) as [u|e].
        -- now rewrite Hres.
        -- destruct Hres as (t' & df' & rest & -> & Ht' & ->).
           exists t', df', rest. now repeat split.
Qed.

Lemma write_tables_ok d items :
  Forall (fun it => has_separator (fst it) = false) items ->
  write_tables d items
  = (map (fun '(t, df) => ToCsv (csv_name d t) df) items, Ok tt).
Proof.
  induction 1 as [|[t df] items Ht _ IH]; [reflexivity|].
  rewrite write_tables_cons. cbn [fst] in Ht. rewrite Ht, IH. reflexivity.
Qed.

Lemma written_to_csv d (items : list (string * DataFrame)) :
  written (map (fun '(t, df) => ToCsv (csv_name d t) df) items)
  = map (fun '(t, df) => (csv_name d t, df)) items.
Proof.
  unfold written.
  induction items as [|[t df] items IH]; [reflexivity|].
  cbn [map flat_map]. rewrite IH. reflexivity.
Qed.

Lemma written_app l1 l2 : written (l1 ++ l2) = written l1 ++ written l2.
Proof. unfold written. apply flat_map_app. Qed.

(** *** The dict of tables, as the loop of the run lists it *)

Lemma table_stored charts t :
  is_Some (convert_to_dataframes charts !! t) <->
  exists c, In c charts /\ title c = t /\ has_rows c = true.
Proof.
  rewrite convert_to_dataframes_lookup. unfold last_titled.
  destruct (find _ (rev charts)) as [c|] eqn:E.
  - split; [intros _|intros _; now eexists].
    apply find_some in E as [Hin Hc].
    apply andb_true_iff in Hc as [Ht Hr].
    apply bool_decide_eq_true in Ht.
    exists c. split; [now apply in_rev|]. now split.
  - split; [intros [df Hdf]; discriminate|].
    intros (c & Hin & Ht & Hr). exfalso.
    pose proof (find_none _ _ E c (proj1 (in_rev _ _) Hin)) as Hn.
    cbn beta in Hn. rewrite Hr, andb_true_r in Hn.
    apply bool_decide_eq_false in Hn. contradiction.
Qed.

Lemma seen_spec (t : string) (seen : list string) :
  existsb (String.eqb t) seen = true <-> In t seen.
Proof.
  rewrite existsb_exists. split.
  - intros (x & Hin & Hx). apply String.eqb_eq in Hx. now subst x.
  - intros Hin. exists t. split; [exact Hin|apply String.eqb_refl].
Qed.

Lemma stored_titles_spec charts seen t :
  In t (stored_titles charts seen) <->
  ~ In t seen /\ exists c, In c charts /\ title c = t /\ has_rows c = true.
Proof.
  revert seen. induction charts as [|chart rest IH]; intros seen.
  - cbn [stored_titles]. split; [intros []|intros (_ & c & [] & _)].
  - cbn [stored_titles]. unfold has_rows in *.
    destruct (all_data chart) as [|r rows] eqn:Hrows.
    + rewrite IH. split.
      * intros (Hs & c & Hin & Ht & Hr). split; [exact Hs|].
        exists c. split; [now right|]. now split.
      * intros (Hs & c & [<- | Hin] & Ht & Hr).
        -- rewrite Hrows in Hr. discriminate.
        -- split; [exact Hs|]. exists c. now repeat split.
    + destruct (existsb (String.eqb (title chart)) seen) eqn:Hseen.
      * apply seen_spec in Hseen. rewrite IH. split.
        -- intros (Hs & c & Hin & Ht & Hr). split; [exact Hs|].
           exists c. split; [now right|]. now split.
        -- intros (Hs & c & [<- | Hin] & Ht & Hr).
           ++ subst t. contradiction.
           ++ split; [exact Hs|]. exists c. now repeat split.
      * assert (Hnew : ~ In (title chart) seen).
        { intros Hin. apply seen_spec in Hin. congruence. }
        cbn [In]. rewrite IH. split.
        -- intros [<- | (Hs & c & Hin & Ht & Hr)].
           ++ split; [exact Hnew|]. exists chart.
              split; [now left|]. split; [reflexivity|]. now rewrite Hrows.
           ++ split; [intros Hin'; apply Hs; now right|].
              exists c. split; [now right|]. now split.
        -- intros (Hs & c & [<- | Hin] & Ht & Hr); [now left|].
           destruct (String.string_dec (title chart) t) as [E|E]; [now left|].
           right. split.
           ++ intros [E' | Hin']; [contradiction|contradiction].
           ++ exists c. now repeat split.
Qed.

Lemma stored_titles_NoDup charts seen : NoDup (stored_titles charts seen).
Proof.
  revert seen. induction charts as [|chart rest IH]; intros seen.
  - constructor.
  - cbn [stored_titles]. destruct (all_data chart); [apply IH|].
    destruct (existsb _ seen); [apply IH|].
    apply NoDup_cons_2; [|apply IH].
    rewrite list_elem_of_In, stored_titles_spec.
    intros [Hs _]. apply Hs. now left.
Qed.

Lemma items_titles charts :
  map fst (items charts) = stored_titles charts [].
Proof.
  unfold items.
  assert (Hall : forall t, In t (stored_titles charts []) ->
                   is_Some (convert_to_dataframes charts !! t)).
  { intros t Ht. apply stored_titles_spec in Ht as [_ Hc].
    now apply table_stored. }
  induction (stored_titles charts []) as [|t l IH]; [reflexivity|].
  cbn [omap list_omap].
  destruct (Hall t (or_introl eq_refl)) as [df Hdf]. rewrite Hdf.
  cbn [map fst]. f_equal. apply IH. intros t' Ht'. apply Hall. now right.
Qed.

Lemma items_lookup charts t df :
  In (t, df) (items charts) <-> convert_to_dataframes charts !! t = Some df.
Proof.
  unfold items. rewrite <- list_elem_of_In, list_elem_of_omap. split.
  - intros (t' & _ & Ht').
    destruct (convert_to_dataframes charts !! t') as [df'|] eqn:E;
      [|discriminate].
    injection Ht' as -> ->. exact E.
  - intros Hdf. exists t. split.
    + apply list_elem_of_In, stored_titles_spec. split; [intros []|].
      apply table_stored. exact (mk_is_Some _ _ Hdf).
    + now rewrite Hdf.
Qed.

(** The pairs the loop goes through are those of the dict, each once. *)
Lemma items_map_to_list charts :
  Permutation (items charts) (map_to_list (convert_to_dataframes charts)).
Proof.
  apply NoDup_Permutation.
  - apply (NoDup_fmap_1 fst).
    change (fst <$> items charts) with (map fst (items charts)).
    rewrite items_titles. apply stored_titles_NoDup.
  - apply NoDup_map_to_list.
  - intros [t df]. rewrite list_elem_of_In, items_lookup.
    symmetry. apply elem_of_map_to_list.
Qed.

Lemma items_files (d : Date) (charts : list ChartData) :
  let dfs := convert_to_dataframes charts in
  let files := map (fun '(t, df) => (csv_name d t, df)) (items charts) in
  NoDup (map fst files) /\
  length files = size dfs /\
  forall t df, In (csv_name d t, df) files <-> dfs !! t = Some df.
Proof.
  intros dfs files. subst dfs files. split; [|split].
  - assert (E : map fst (map (fun '(t, df) => (csv_name d t, df)) (items charts))
                = csv_name d <$> map fst (items charts)).
    { induction (items charts) as [|[t df] l IH]; [reflexivity|].
      cbn [map fmap list_fmap fst]. f_equal. exact IH. }
    rewrite E, items_titles. apply NoDup_fmap_2.
    + intros t1 t2. apply csv_name_inj.
    + apply stored_titles_NoDup.
  - rewrite length_map.
    etransitivity; [exact (Permutation_length (items_map_to_list charts))|].
    apply length_map_to_list.
  - intros t df. rewrite in_map_iff. split.
    + intros ([t' df'] & Heq & Hin).
      change ((csv_name d t', df') = (csv_name d t, df)) in Heq.
      apply pair_equal_spec in Heq as [Ht <-].
      apply csv_name_inj in Ht. subst t'.
      now apply items_lookup.
    + intros H. exists (t, df). split; [reflexivity|].
      now apply items_lookup.
Qed.

(** Every way a run can go. *)
Lemma read_single_day_data_cases web d :
  read_single_day_data web d =
  match resolve_url d with
  | None => ([], Err (NotImplementedError "year =" (year d)))
  | Some url =>
      match web url with
      | Err (SessionNotCreatedException msg) =>
          ([ChromeStart], Err (SessionNotCreatedException msg))
      | Err e => ([ChromeStart; Get url; Quit], Err e)
      | Ok page =>
          match run_script page with
          | Err e => ([ChromeStart; Get url; ExecuteScript; Quit], Err e)
          | Ok data =>
              match convert data with
              | Err e => ([ChromeStart; Get url; ExecuteScript; Quit], Err e)
              | Ok dfs_and_names =>
                  ([ChromeStart; Get url; ExecuteScript; Quit; Mkdir TARGET_DIR]
                   ++ fst (write_tables d dfs_and_names),
                   snd (write_tables d dfs_and_names))
              end
          end
      end
  end.
Proof.
  unfold read_single_day_data, resolve_url.
  destruct (Nat.eqb (year d) 2025);
    [|destruct (Nat.eqb (year d) 2024);
      [|destruct (Nat.eqb (year d) 2023);
        [|destruct (Nat.eqb (year d) 2022); [|reflexivity]]]];
    unfold extract_caiso_charts_with_titles, bindIO, finally_quit;
    (destruct (web _) as [page|[]]; [|reflexivity..]);
    (destruct (run_script page) as [data|e]; [|reflexivity]);
    (destruct (convert data) as [dfs|e]; [|reflexivity]);
    now destruct (write_tables d dfs).
Qed.

(** X5. When a day's run goes through, its tables go to files named
    after their titles, one file per table and no two tables to one file:
    the table stored under title [t] is written to [YYYYMMDD_t.csv], and
    nothing else is written. The run goes through when the page loads,
    the script returns, [pd.to_datetime] takes every instant of the data
    and no title of a table has a path separator in it. *)
Theorem day_files (web : Web) (d : Date) (url : string) (page : Page)
    (data : ExtractedData) :
  resolve_url d = Some url -> web url = Ok page -> run_script page = Ok data ->
  refused_datetime data = None ->
  Forall (fun t => has_separator t = false) (stored_titles (charts data) []) ->
  let dfs := convert_to_dataframes (charts data) in
  let files := written (fst (read_single_day_data web d)) in
  snd (read_single_day_data web d) = Ok tt /\
  NoDup (map fst files) /\
  length files = size dfs /\
  forall t df, In (csv_name d t, df) files <-> dfs !! t = Some df.
Proof.
  intros Hu Hw Hs Hr Hfree dfs files. subst files.
  assert (Hitems : Forall (fun it => has_separator (fst it) = false)
                     (items (charts data))).
  { rewrite <- items_titles in Hfree.
    now apply List.Forall_map in Hfree. }
  rewrite read_single_day_data_cases, Hu, Hw, Hs.
  unfold convert. rewrite Hr, (write_tables_ok d _ Hitems).
  split; [reflexivity|].
  cbn [fst]. rewrite written_app.
  change (written [ChromeStart; Get url; ExecuteScript; Quit; Mkdir TARGET_DIR])
    with (@nil (string * DataFrame)).
  rewrite app_nil_l, written_to_csv. apply items_files.
Qed.

(** X6. A date outside 2022-2025 is refused before the browser is
    started. For a date of those years, either the browser does not
    start, and nothing else is done, or exactly one URL is fetched and the
    browser is quit exactly once, whether the page loads or the script
    fails, and before anything is written. A run that fails has created
    no directory and written no file, unless what fails is the writing of
    a table whose title has a path separator: then the directory is
    there, and with it the files of the tables written before that one,
    none of which has a separator in its name. *)
Theorem read_single_day_data_protocol (web : Web) (d : Date) :
  (resolve_url d = None ->
     read_single_day_data web d
     = ([], Err (NotImplementedError "year =" (year d)))) /\
  (forall url, resolve_url d = Some url ->
     (exists msg,
        web url = Err (SessionNotCreatedException msg) /\
        read_single_day_data web d
        = ([ChromeStart], Err (SessionNotCreatedException msg))) \/
     (exists steps writes,
        fst (read_single_day_data web d)
        = [ChromeStart; Get url] ++ steps ++ [Quit] ++ writes /\
        (steps = [] \/ steps = [ExecuteScript]) /\
        (forall ev, In ev writes ->
           ev = Mkdir TARGET_DIR \/ exists n df, ev = ToCsv n df) /\
        (snd (read_single_day_data web d) <> Ok tt ->
           writes = [] \/
           exists file done,
             snd (read_single_day_data web d) = Err (OSError file) /\
             has_separator file = true /\
             writes = Mkdir TARGET_DIR :: map (fun '(n, df) => ToCsv n df) done /\
             Forall (fun it => has_separator (fst it) = false) done))).
Proof.
  rewrite read_single_day_data_cases. split.
  - intros ->. reflexivity.
  - intros url ->.
    destruct (web url) as [page|e].
    + right. destruct (run_script page) as [data|e].
      * destruct (convert data) as [dfs|e].
        -- destruct (write_tables_log d dfs) as (done & Hlog & Hfree & Hres).
           exists [ExecuteScript], (Mkdir TARGET_DIR :: fst (write_tables d dfs)).
           split; [reflexivity|]. split; [now right|]. split.
           ++ intros ev [<- | Hin]; [now left|]. right.
              rewrite Hlog in Hin.
              apply in_map_iff in Hin as ([t df] & <- & _). eauto.
           ++ cbn [snd]. intros Hne. right.
              destruct (snd (write_tables d dfs)) as [[]|e];
                [now contradiction Hne|].
              destruct Hres as (t & df & rest & -> & Ht & ->).
              exists (csv_name d t),
                (map (fun '(t, df) => (csv_name d t, df)) done).
              split; [reflexivity|].
              split; [now rewrite has_separator_csv_name|]. split.
              ** rewrite Hlog. f_equal.
                 clear. induction done as [|[t df] done IH]; [reflexivity|].
                 cbn [map]. now rewrite IH.
              ** clear - Hfree.
                 induction Hfree as [|[t df] done Ht _ IH]; [constructor|].
                 cbn [map]. constructor; [|exact IH].
                 cbn [fst] in *. now rewrite has_separator_csv_name.
        -- exists [ExecuteScript], []. repeat split; auto. intros ev [].
      * exists [ExecuteScript], []. repeat split; auto. intros ev [].
    + destruct e as [msg y|msg|msg|e|text|file];
        [right|left; now exists msg|right..];
        (exists [], []; repeat split; auto; intros ev []).
Qed.

Lemma day_files_witness :
  let web : Web := fun _ => Ok sample_page in
  let d := mkDate 2023 11 14 in
  let dfs := convert_to_dataframes (charts sample_data) in
  let files := written (fst (read_single_day_data web d)) in
  map fst files = ["20231114_Total State of Charge.csv"] /\
  snd (read_single_day_data web d) = Ok tt /\
  NoDup (map fst files) /\
  length files = size dfs /\
  forall t df, In (csv_name d t, df) files <-> dfs !! t = Some df.
Proof.
  intros web d. split; [reflexivity|].
  apply (day_files web d
           "https://www.caiso.com/documents/dailyenergystoragereportnov14-2023.html"
           sample_page sample_data); try reflexivity.
  repeat constructor.
Defined.

Lemma is_digit_digit_char n : Collate.is_digit (digit_char n) = true.
Proof.
  destruct (digit_char_cases n)
    as [H|[H|[H|[H|[H|[H|[H|[H|[H|H]]]]]]]]]; rewrite H; reflexivity.
Qed.

Lemma re_match_digit p n s :
  Collate.re_match (Collate.Digit :: p) (String (digit_char n) s)
  = Collate.re_match p s.
Proof.
  change (Collate.re_match (Collate.Digit :: p) (String (digit_char n) s))
    with (Collate.is_digit (digit_char n) && Collate.re_match p s).
  now rewrite is_digit_digit_char.
Qed.

(** X7. Whatever the day, the file written for a chart that bears the
    heading of a metric kind has a name the kind's pattern in
    [collate.py] matches: eight digits, an underscore, the heading and
    [.csv]. *)
Theorem csv_name_matches_pattern (d : Date) (dtype pattern_str heading : string) :
  valid_date d ->
  Collate.getitem Collate.FILE_PATTERNS dtype = Some pattern_str ->
  Collate.getitem CHART_TITLES dtype = Some heading ->
  Collate.re_match (Collate.re_compile pattern_str) (csv_name d heading) = true.
Proof.
  intros _ Hp Ht.
  pose proof (getitem_Some_In _ _ _ Hp) as Hd.
  apply keys_FILE_PATTERNS in Hd.
  repeat (destruct Hd as [-> | Hd]); [.. | subst dtype];
    injection Hp as <-; injection Ht as <-;
    rewrite csv_name_chars;
    (match goal with
     | |- Collate.re_match ?p _ = true =>
         let p' := eval vm_compute in p in change p with p'
     end);
    rewrite !re_match_digit; reflexivity.
Qed.

Lemma csv_name_matches_pattern_witness :
  valid_date (mkDate 2023 11 14) /\
  Collate.re_match
    (Collate.re_compile "(\d{8})_Total State of Charge.csv")
    (csv_name (mkDate 2023 11 14) "Total State of Charge") = true.
Proof.
  assert (Hv : valid_date (mkDate 2023 11 14)) by (unfold valid_date; simpl; lia).
  split; [exact Hv|].
  exact (csv_name_matches_pattern (mkDate 2023 11 14) "state_of_charge" _ _
           Hv eq_refl eq_refl).
Defined.

End SingleDay.

(** ** The title matcher, further *)

Section TitleMatcherFurther.
Import Simple.

Lemma title_step_unqualified r best t :
  qualifiesb r t = false -> title_step r best t = best.
Proof. intros H. now rewrite title_step_unfold, H. Qed.

Lemma match_title_filter r ts best :
  fold_left (title_step r) ts best
  = fold_left (title_step r) (List.filter (qualifiesb r) ts) best.
Proof.
  revert best. induction ts as [|t ts IH]; intros best; simpl; [reflexivity|].
  destruct (qualifiesb r t) eqn:E; simpl.
  - apply IH.
  - rewrite title_step_unqualified by exact E. apply IH.
Qed.

(** X8. Candidates that do not qualify for a chart have no effect on its
    title: the matcher gives the same title with them removed, and the
    title is the fallback label or the text of a qualifying candidate. *)
Theorem best_title_only_qualifying (ts : list TitleInfo) (r : Rect) (i : nat) :
  best_title ts r i = best_title (List.filter (qualifiesb r) ts) r i /\
  (best_title ts r i = fallback_title i \/
   exists t, In t ts /\ qualifies r t /\ best_title ts r i = text t).
Proof.
  split.
  - unfold best_title, match_title. now rewrite match_title_filter.
  - unfold best_title.
    destruct (match_title_state r ts i)
      as [[-> _] | (k & t & Hk & Hq & -> & _)]; [now left|].
    right. exists t. split; [|split; [now apply qualifiesb_spec | reflexivity]].
    apply list_elem_of_In. eapply list_elem_of_lookup_2; eauto.
Qed.

End TitleMatcherFurther.

(** ** The extraction script, chart by chart *)

Section ChartExtraction.
Import Simple.

Lemma extract_series_ok hs s :
  extract_series hs = Ok s <-> series_extracted hs s.
Proof.
  unfold extract_series, series_extracted. split.
  - intros H. apply bind_ok in H as (pts & Hp & [= <-]). simpl. auto.
  - intros (Hn & Ht & Hp). rewrite Hp. simpl.
    destruct s as [n t dt]. simpl in *. now subst.
Qed.

Lemma extract_chart_ok titles i ch c :
  extract_chart titles i ch = Ok c <-> chart_extracted titles (i, ch) c.
Proof.
  unfold extract_chart, chart_extracted. simpl. split.
  - intros H. apply bind_ok in H as (ss & Hs & [= <-]). simpl.
    repeat split. apply mapM_Forall2 in Hs.
    eapply Forall2_impl; [exact Hs|]. intros hs s. apply extract_series_ok.
  - intros (Hi & Ht & Hp & Hs).
    assert (Hm : mapM extract_series (hc_series ch) = Ok (series c)).
    { apply mapM_Forall2. eapply Forall2_impl; [exact Hs|].
      intros hs s. apply extract_series_ok. }
    rewrite Hm. simpl. destruct c as [ci ct cp cs]. simpl in *. now subst.
Qed.

Lemma extract_charts_from_ok titles i slots cs :
  extract_charts_from titles i slots = Ok cs <->
  Forall2 (chart_extracted titles) (live_slots_from i slots) cs.
Proof.
  revert i cs. induction slots as [|[ch|] slots IH]; intros i cs; simpl.
  - split; [intros [= <-]; constructor | intros H; now inversion H].
  - split.
    + intros H. apply bind_ok in H as (c & Hc & H).
      apply bind_ok in H as (cs' & Hcs & [= <-]).
      constructor; [now apply extract_chart_ok | now apply IH].
    + intros H. inversion H as [|? c ? cs' Hc Hcs]; subst.
      apply extract_chart_ok in Hc. apply IH in Hcs.
      rewrite Hc. simpl. rewrite Hcs. reflexivity.
  - apply IH.
Qed.

Lemma live_slots_from_lookup i slots k j ch :
  live_slots_from i slots !! k = Some (j, ch) ->
  i <= j /\ slots !! (j - i) = Some (Some ch).
Proof.
  revert i k. induction slots as [|[c|] slots IH]; intros i k; simpl.
  - discriminate.
  - destruct k as [|k]; simpl.
    + intros [= <- <-]. rewrite Nat.sub_diag. auto.
    + intros H. apply IH in H as [Hle H]. split; [lia|].
      replace (j - i) with (S (j - S i)) by lia. exact H.
  - intros H. apply IH in H as [Hle H]. split; [lia|].
    replace (j - i) with (S (j - S i)) by lia. exact H.
Qed.

Lemma live_slots_from_increasing i slots :
  StronglySorted lt (map fst (live_slots_from i slots)) /\
  Forall (fun j => i <= j) (map fst (live_slots_from i slots)).
Proof.
  revert i. induction slots as [|[c|] slots IH]; intros i; simpl.
  - split; constructor.
  - destruct (IH (S i)) as [Hs Hall]. split.
    + constructor; [exact Hs|].
      eapply List.Forall_impl; [|exact Hall]. simpl. intros; lia.
    + constructor; [lia|].
      eapply List.Forall_impl; [|exact Hall]. simpl. intros; lia.
  - destruct (IH (S i)) as [Hs Hall]. split; [exact Hs|].
    eapply List.Forall_impl; [|exact Hall]. simpl. intros; lia.
Qed.

(** X10. When the script succeeds it returns one chart per live entry of
    [Highcharts.charts], in order; each chart's index is the number of its
    slot, empty slots counted, so indices grow strictly; and each chart's
    title is matched against all candidates on its own, whatever titles
    the other charts got. *)
Theorem charts_by_slot (titles : list TitleInfo)
    (slots : list (option HcChart)) (cs : list ChartData) :
  extract_charts titles slots = Ok cs ->
  length cs = length (live_slots_from 0 slots) /\
  StronglySorted lt (map chartIndex cs) /\
  forall k c, cs !! k = Some c ->
    exists ch,
      slots !! chartIndex c = Some (Some ch) /\
      title c = best_title titles (hc_container ch) (chartIndex c) /\
      chartPosition c = hc_container ch /\
      map name (series c) = map series_name_of (hc_series ch).
Proof.
  unfold extract_charts. intros H. apply extract_charts_from_ok in H.
  assert (Hidx : map chartIndex cs = map fst (live_slots_from 0 slots)).
  { induction H as [|[j ch] c live cs' Hc _ IH]; [reflexivity|].
    simpl. destruct Hc as (-> & _). now rewrite IH. }
  split; [symmetry; eapply Forall2_length; eauto|]. split.
  - rewrite Hidx. apply live_slots_from_increasing.
  - intros k c Hk.
    destruct (Forall2_lookup_r _ _ _ _ _ H Hk) as ([j ch] & Hlive & Hc).
    destruct Hc as (Hi & Ht & Hp & Hs). simpl in *.
    apply live_slots_from_lookup in Hlive as [_ Hslot].
    rewrite Nat.sub_0_r in Hslot. exists ch. rewrite Hi.
    repeat split; try assumption.
    clear -Hs. induction Hs as [|hs s hss ss (Hn & _) _ IH]; [reflexivity|].
    simpl. now rewrite Hn, IH.
Qed.

Lemma charts_by_slot_witness :
  let titles := [mkTitleInfo "Total State of Charge"
                   (mkRect 0 0 100 50) "H2" ""] in
  let ch := mkHcChart (mkRect 100 0 100 300) [] in
  let cs := [mkChartData 1 "Total State of Charge"
               (mkRect 100 0 100 300) [];
             mkChartData 3 "Total State of Charge"
               (mkRect 100 0 100 300) []] in
  let slots := [None; Some ch; None; Some ch] in
  extract_charts titles slots = Ok cs /\
  length cs = length (live_slots_from 0 slots) /\
  StronglySorted lt (map chartIndex cs) /\
  forall k c, cs !! k = Some c ->
    exists ch,
      slots !! chartIndex c = Some (Some ch) /\
      title c = best_title titles (hc_container ch) (chartIndex c) /\
      chartPosition c = hc_container ch /\
      map name (series c) = map series_name_of (hc_series ch).
Proof.
  intros titles ch cs slots. split; [reflexivity|].
  apply (charts_by_slot titles slots cs). reflexivity.
Defined.

Lemma mapM_err_iff {E A B} (f : A -> result E B) l :
  (exists e, mapM f l = Err e) <-> exists a, In a l /\ exists e, f a = Err e.
Proof.
  induction l as [|a l IH]; simpl.
  - split; [intros [e H]; discriminate | intros (a & [] & _)].
  - destruct (f a) as [b|e] eqn:Ea; simpl.
    + destruct (mapM f l) as [bs|e'] eqn:El; simpl.
      * split; [intros [e H]; discriminate|].
        intros (a' & [<- | Hin] & e & He); [congruence|].
        destruct IH as [_ IH]. destruct IH as [e' He']; [eauto|discriminate].
      * split; [|eauto]. intros _.
        destruct IH as [IH _]. destruct IH as (a' & Hin & He); eauto.
    + split; [|eauto]. intros _. exists a. eauto.
Qed.

Lemma mapM_err_same {E A B} (f : A -> result E B) l e0 :
  (forall a e, f a = Err e -> e = e0) ->
  forall e, mapM f l = Err e -> e = e0.
Proof.
  intros Hf. induction l as [|a l IH]; intros e; simpl; [discriminate|].
  destruct (f a) as [b|e'] eqn:Ea; simpl.
  - destruct (mapM f l) as [bs|e''] eqn:El; simpl; [discriminate|].
    intros [= <-]. now apply IH.
  - intros [= <-]. eapply Hf; eauto.
Qed.

Lemma point_mapper_err p :
  (exists e, point_mapper p = Err e) <-> beyond_last_date p.
Proof.
  unfold beyond_last_date. split.
  - intros [e H].
    destruct (hc_x p) as [|q|s] eqn:Ex.
    + destruct (point_mapper_returns p) as [dp Hdp]; [|congruence].
      intros q Hq. congruence.
    + exists q. split; [reflexivity|].
      apply Qnot_le_lt. intros Hle.
      destruct (point_mapper_returns p) as [dp Hdp]; [|congruence].
      intros q' Hq'. rewrite Ex in Hq'. now injection Hq' as <-.
    + destruct (point_mapper_returns p) as [dp Hdp]; [|congruence].
      intros q Hq. congruence.
  - intros (q & Ex & Hq). unfold point_mapper.
    assert (He : exceeds_epoch_threshold (hc_x p) = true).
    { rewrite Ex. simpl. apply Qltb_lt.
      unfold EPOCH_THRESHOLD, MAX_TIME_VALUE in *.
      eapply Qlt_trans; [|exact Hq]. reflexivity. }
    rewrite He, Ex. unfold toISOString.
    assert (Hb : Qle_bool q MAX_TIME_VALUE = false).
    { destruct (Qle_bool q MAX_TIME_VALUE) eqn:E; [|reflexivity].
      apply Qle_bool_iff in E. exfalso. exact (Qlt_not_le _ _ Hq E). }
    rewrite Hb. simpl. eauto.
Qed.

Lemma point_mapper_err_value p e :
  point_mapper p = Err e -> e = RangeError "Invalid time value".
Proof.
  unfold point_mapper.
  destruct (exceeds_epoch_threshold (hc_x p)).
  - destruct (hc_x p) as [|q|s]; simpl.
    + destruct (hc_category p); discriminate.
    + unfold toISOString. destruct (Qle_bool q MAX_TIME_VALUE); simpl.
      * destruct (hc_category p); discriminate.
      * now intros [= <-].
    + destruct (hc_category p); discriminate.
  - simpl. destruct (hc_category p); discriminate.
Qed.

Lemma extract_series_err hs :
  (exists e, extract_series hs = Err e) <->
  exists p, In p (hs_data hs) /\ beyond_last_date p.
Proof.
  unfold extract_series. split.
  - intros [e H].
    destruct (mapM point_mapper (hs_data hs)) as [pts|e'] eqn:Em; [discriminate|].
    destruct (proj1 (mapM_err_iff point_mapper (hs_data hs))) as (p & Hin & He);
      [eauto|].
    exists p. split; [exact Hin | now apply point_mapper_err].
  - intros (p & Hin & Hp). apply point_mapper_err in Hp.
    destruct (proj2 (mapM_err_iff point_mapper (hs_data hs))) as [e He]; [eauto|].
    rewrite He. simpl. eauto.
Qed.

Lemma extract_chart_err titles i ch :
  (exists e, extract_chart titles i ch = Err e) <->
  exists s p, In s (hc_series ch) /\ In p (hs_data s) /\ beyond_last_date p.
Proof.
  unfold extract_chart. split.
  - intros [e H].
    destruct (mapM extract_series (hc_series ch)) as [ss|e'] eqn:Em;
      [discriminate|].
    destruct (proj1 (mapM_err_iff extract_series (hc_series ch)))
      as (s & Hin & He); [eauto|].
    apply extract_series_err in He as (p & Hp & Hb). eauto.
  - intros (s & p & Hs & Hp & Hb).
    destruct (proj2 (mapM_err_iff extract_series (hc_series ch))) as [e He].
    { exists s. split; [exact Hs|]. apply extract_series_err. eauto. }
    rewrite He. simpl. eauto.
Qed.

Lemma extract_charts_from_err titles i slots :
  (exists e, extract_charts_from titles i slots = Err e) <->
  exists ch s p,
    In (Some ch) slots /\ In s (hc_series ch) /\ In p (hs_data s) /\
    beyond_last_date p.
Proof.
  revert i. induction slots as [|[ch|] slots IH]; intros i; simpl.
  - split; [intros [e H]; discriminate | intros (ch & s & p & [] & _)].
  - destruct (extract_chart titles i ch) as [c|e] eqn:Ec; simpl.
    + destruct (extract_charts_from titles (S i) slots) as [cs|e'] eqn:Es; simpl.
      * split; [intros [e H]; discriminate|].
        intros (ch' & s & p & [[= <-] | Hin] & Hs & Hp & Hb).
        -- destruct (proj2 (extract_chart_err titles i ch)) as [e He];
             [eauto | congruence].
        -- destruct (proj2 (IH (S i))) as [e He]; [eauto 8 | congruence].
      * split; [|eauto]. intros _.
        destruct (proj1 (IH (S i))) as (ch' & s & p & Hin & H); [eauto|].
        exists ch', s, p. split; [now right | exact H].
    + split; [|eauto]. intros _.
      destruct (proj1 (extract_chart_err titles i ch)) as (s & p & H); [eauto|].
      exists ch, s, p. split; [now left | exact H].
  - rewrite IH. split.
    + intros (ch & s & p & Hin & H). exists ch, s, p. split; [now right|exact H].
    + intros (ch & s & p & [Hin|Hin] & H); [discriminate|]. eauto 8.
Qed.

Lemma extraction_err_value els slots e :
  extraction_script els slots = Err e -> e = RangeError "Invalid time value".
Proof.
  unfold extraction_script, extract_charts.
  generalize 0 as i. generalize (collect_titles els) as titles.
  intros titles i H.
  destruct (extract_charts_from titles i slots) as [cs|e'] eqn:Ec;
    [discriminate|]. simpl in H. injection H as <-.
  revert i Ec. induction slots as [|[ch|] slots IH]; intros i; simpl;
    [discriminate| |apply IH].
  destruct (extract_chart titles i ch) as [c|e0] eqn:E1; simpl.
  - destruct (extract_charts_from titles (S i) slots) eqn:E2; simpl;
      [discriminate|]. intros [= <-]. eapply IH; eauto.
  - intros [= <-]. unfold extract_chart in E1.
    destruct (mapM extract_series (hc_series ch)) as [ss|e1] eqn:Em;
      [discriminate|]. simpl in E1. injection E1 as <-.
    eapply (mapM_err_same extract_series); [|exact Em].
    intros hs e2. unfold extract_series.
    destruct (mapM point_mapper (hs_data hs)) as [pts|e3] eqn:Ep;
      [discriminate|]. simpl. intros [= <-].
    eapply (mapM_err_same point_mapper); [|exact Ep].
    intros p e4. apply point_mapper_err_value.
Qed.

(** X11. The script fails if and only if some point of some series of
    some live chart has a numeric [x] beyond the last valid time value
    (8640000000000000): one such point loses the whole page, and nothing
    else makes the script throw; the error is the [RangeError] of
    [toISOString]. *)
Theorem extraction_fails_iff (els : list Element) (slots : list (option HcChart)) :
  ((exists e, extraction_script els slots = Err e) <->
   exists ch s p,
     In (Some ch) slots /\ In s (hc_series ch) /\ In p (hs_data s) /\
     beyond_last_date p) /\
  (forall e, extraction_script els slots = Err e ->
     e = RangeError "Invalid time value").
Proof.
  split; [|intros e; apply extraction_err_value].
  rewrite <- (extract_charts_from_err (collect_titles els) 0 slots).
  unfold extraction_script, extract_charts.
  destruct (extract_charts_from (collect_titles els) 0 slots) as [cs|e];
    simpl; split; intros [e' H]; try discriminate; eauto.
Qed.

Lemma Forall2_In_l {A B} (P : A -> B -> Prop) l k a :
  Forall2 P l k -> In a l -> exists b, In b k /\ P a b.
Proof.
  induction 1 as [|x y l k Hxy _ IH]; intros Hin; [contradiction|].
  destruct Hin as [<- | Hin].
  - exists y. split; [now left | exact Hxy].
  - destruct (IH Hin) as (b & Hb & Hp). exists b. split; [now right | exact Hp].
Qed.

Lemma Forall2_In_r {A B} (P : A -> B -> Prop) l k b :
  Forall2 P l k -> In b k -> exists a, In a l /\ P a b.
Proof.
  induction 1 as [|x y l k Hxy _ IH]; intros Hin; [contradiction|].
  destruct Hin as [<- | Hin].
  - exists x. split; [now left | exact Hxy].
  - destruct (IH Hin) as (a & Ha & Hp). exists a. split; [now right | exact Hp].
Qed.

Lemma has_datetime_column_iff rows :
  has_datetime_column rows = true <->
  exists r, In r rows /\ exists t, row_datetime r = Some t.
Proof.
  unfold has_datetime_column. rewrite existsb_exists.
  split; intros (r & Hin & H); exists r; (split; [exact Hin|]).
  - unfold has_timestamp in H. destruct (row_datetime r); [eauto|discriminate].
  - destruct H as [t H]. unfold has_timestamp. now rewrite H.
Qed.

Lemma make_row_datetime n p :
  (exists t, row_datetime (make_row n p) = Some t) <->
  exists iso, datetime p = Some iso.
Proof.
  unfold make_row.
  destruct (datetime p) as [iso|], (category p); simpl;
    split; intros [x H]; try discriminate; eauto.
Qed.

Lemma in_flattened c r :
  In r (flattened c) <->
  exists s p, In s (series c) /\ In p (data s) /\ r = make_row (name s) p.
Proof.
  unfold flattened, series_rows. rewrite in_concat. split.
  - intros (rows & Hrows & Hr).
    apply in_map_iff in Hrows as (s & <- & Hs).
    apply in_map_iff in Hr as (p & <- & Hp). eauto.
  - intros (s & p & Hs & Hp & ->).
    exists (map (make_row (name s)) (data s)). split.
    + apply in_map_iff. eauto.
    + apply in_map_iff. eauto.
Qed.

(** X12. The table of a chart the script extracted is indexed by
    [datetime] exactly when some point of the chart has a numeric [x]
    above 1000000000000; a chart with none keeps the default index. *)
Theorem time_indexed_iff (titles : list TitleInfo) (i : nat) (ch : HcChart)
    (c : ChartData) :
  extract_chart titles i ch = Ok c ->
  (df_index (chart_table c) = Some "datetime" <->
   exists s p, In s (hc_series ch) /\ In p (hs_data s) /\
               exceeds_epoch_threshold (hc_x p) = true) /\
  (df_index (chart_table c) = None <->
   forall s p, In s (hc_series ch) -> In p (hs_data s) ->
               exceeds_epoch_threshold (hc_x p) = false).
Proof.
  intros H. apply extract_chart_ok in H as (_ & _ & _ & Hs). simpl in Hs.
  assert (Hcol : has_datetime_column (all_data c) = true <->
                 exists s p, In s (hc_series ch) /\ In p (hs_data s) /\
                             exceeds_epoch_threshold (hc_x p) = true).
  { rewrite has_datetime_column_iff, all_data_flattened. split.
    - intros (r & Hr & Ht).
      apply in_flattened in Hr as (s & p & Hin & Hp & ->).
      apply make_row_datetime in Ht.
      destruct (Forall2_In_r _ _ _ _ Hs Hin) as (hs & Hhs & (_ & _ & Hm)).
      apply mapM_Forall2 in Hm.
      destruct (Forall2_In_r _ _ _ _ Hm Hp) as (hp & Hhp & Hpm).
      exists hs, hp. split; [exact Hhs|]. split; [exact Hhp|].
      now apply (point_mapper_datetime hp p Hpm).
    - intros (hs & hp & Hhs & Hhp & He).
      destruct (Forall2_In_l _ _ _ _ Hs Hhs) as (s & Hin & (_ & _ & Hm)).
      apply mapM_Forall2 in Hm.
      destruct (Forall2_In_l _ _ _ _ Hm Hhp) as (p & Hp & Hpm).
      exists (make_row (name s) p). split.
      + apply in_flattened. exists s, p. auto.
      + apply make_row_datetime. now apply (point_mapper_datetime hp p Hpm). }
  unfold chart_table, build_frame.
  destruct (has_datetime_column (all_data c)) eqn:E; simpl; split.
  - split; [intros _; now apply Hcol | reflexivity].
  - split; [discriminate|]. intros Hall.
    destruct (proj1 Hcol eq_refl) as (s & p & Hs' & Hp & He).
    rewrite (Hall s p Hs' Hp) in He. discriminate.
  - split; [discriminate|]. intros Hex. apply Hcol in Hex. discriminate.
  - split; [|reflexivity]. intros _ s p Hs' Hp.
    destruct (exceeds_epoch_threshold (hc_x p)) eqn:He; [|reflexivity].
    assert (false = true) by (apply Hcol; eauto). discriminate.
Qed.

Lemma time_indexed_iff_witness :
  let ch := mkHcChart (mkRect 0 0 0 0)
              [mkHcSeries (Some "IFM") 0 "line"
                 [mkHcPoint (VNum (1700000000000 # 1)) (VNum (25 # 2)) None]] in
  let c := mkChartData 0 "Chart 0" (mkRect 0 0 0 0)
             [mkSeriesData "IFM" "line"
                [mkPoint (VNum (1700000000000 # 1)) (VNum (25 # 2))
                         (Some (Iso 1700000000000)) None]] in
  extract_chart [] 0 ch = Ok c /\
  (df_index (chart_table c) = Some "datetime" <->
   exists s p, In s (hc_series ch) /\ In p (hs_data s) /\
               exceeds_epoch_threshold (hc_x p) = true) /\
  (df_index (chart_table c) = None <->
   forall s p, In s (hc_series ch) -> In p (hs_data s) ->
               exceeds_epoch_threshold (hc_x p) = false).
Proof.
  intros ch c. split; [reflexivity|].
  apply (time_indexed_iff [] 0 ch c). reflexivity.
Defined.

End ChartExtraction.

Section EmptyDay.
Import Simple Daily.

(** X13. A page without the chart library is no error: the script
    returns no chart, no table is built, and the run succeeds having
    written no file (the target directory is still created). *)
Theorem no_highcharts_no_files (web : Web) (d : Date) (url : string) (page : Page) :
  resolve_url d = Some url -> web url = Ok page -> highcharts page = None ->
  run_script page = Ok (mkExtractedData (collect_titles (titleElements page)) []) /\
  read_single_day_data web d
  = ([ChromeStart; Get url; ExecuteScript; Quit; Mkdir TARGET_DIR], Ok tt).
Proof.
  intros Hu Hw Hh.
  assert (Hs : run_script page
               = Ok (mkExtractedData (collect_titles (titleElements page)) [])).
  { unfold run_script. rewrite Hh. reflexivity. }
  split; [exact Hs|].
  rewrite read_single_day_data_cases, Hu, Hw, Hs. reflexivity.
Qed.

Lemma no_highcharts_no_files_witness :
  let page := mkPage [] None in
  let web : Web := fun _ => Ok page in
  let d := mkDate 2022 7 31 in
  let url := "https://www.caiso.com/documents/dailyenergystoragereportjul31-2022.html" in
  run_script page = Ok (mkExtractedData (collect_titles (titleElements page)) []) /\
  read_single_day_data web d
  = ([ChromeStart; Get url; ExecuteScript; Quit; Mkdir TARGET_DIR], Ok tt).
Proof.
  intros page web d url.
  apply (no_highcharts_no_files web d url page); reflexivity.
Defined.

End EmptyDay.

(** ** File-name patterns *)

Section FilePatterns.
Import Collate.

Lemma patterns_clash_sound p1 p2 s :
  patterns_clash p1 p2 = true ->
  re_match p1 s = true -> re_match p2 s = false.
Proof.
  revert p2 s. induction p1 as [|a p1 IH]; intros p2 s; [discriminate|].
  destruct p2 as [|b p2]; [destruct a; discriminate|].
  destruct s as [|c s]; [reflexivity|].
  assert (Hrest : patterns_clash p1 p2 = true ->
            re_match (a :: p1) (String c s) = true ->
            re_match (b :: p2) (String c s) = false).
  { intros Hc Hm.
    change (atom_match a c && re_match p1 s = true) in Hm.
    change (atom_match b c && re_match p2 s = false).
    apply andb_true_iff in Hm as [_ Hm].
    rewrite (IH p2 s Hc Hm). apply andb_false_r. }
  destruct a as [| |a], b as [| |b]; try exact Hrest.
  change (patterns_clash (Lit a :: p1) (Lit b :: p2))
    with (negb (Ascii.eqb a b) || patterns_clash p1 p2).
  intros Hc. apply orb_true_iff in Hc as [Hne | Hc]; [|now apply Hrest].
  intros Hm.
  change (Ascii.eqb c a && re_match p1 s = true) in Hm.
  change (Ascii.eqb c b && re_match p2 s = false).
  apply andb_true_iff in Hm as [Hca _]. apply Ascii.eqb_eq in Hca. subst c.
  apply negb_true_iff in Hne. now rewrite Hne.
Qed.

(** X14. No file name is matched by the patterns of two different metric
    kinds: a file is collated into one metric at most. *)
Theorem patterns_exclusive (dtype1 dtype2 pattern1 pattern2 csv_name : string) :
  getitem FILE_PATTERNS dtype1 = Some pattern1 ->
  getitem FILE_PATTERNS dtype2 = Some pattern2 ->
  dtype1 <> dtype2 ->
  re_match (re_compile pattern1) csv_name = true ->
  re_match (re_compile pattern2) csv_name = false.
Proof.
  intros H1 H2 Hne.
  apply patterns_clash_sound.
  pose proof (getitem_Some_In _ _ _ H1) as Hd1.
  pose proof (getitem_Some_In _ _ _ H2) as Hd2.
  apply keys_FILE_PATTERNS in Hd1, Hd2.
  repeat (destruct Hd1 as [-> | Hd1]); [.. | subst dtype1];
    injection H1 as <-;
    (repeat (destruct Hd2 as [-> | Hd2]); [.. | subst dtype2]);
    injection H2 as <-;
    try (now contradiction Hne); vm_compute; reflexivity.
Qed.

Lemma patterns_exclusive_witness :
  re_match (re_compile "(\d{8})_FMM Energy Bid In Capacity - Charge.csv")
    "20250101_FMM Energy Bid In Capacity - Charge.csv" = true /\
  re_match (re_compile "(\d{8})_FMM Energy Bid In Capacity - Discharge.csv")
    "20250101_FMM Energy Bid In Capacity - Charge.csv" = false.
Proof.
  split; [reflexivity|].
  apply (patterns_exclusive "fmm_bids" "fmm_offers"
           "(\d{8})_FMM Energy Bid In Capacity - Charge.csv"
           "(\d{8})_FMM Energy Bid In Capacity - Discharge.csv"
           "20250101_FMM Energy Bid In Capacity - Charge.csv").
  - reflexivity.
  - reflexivity.
  - discriminate.
  - reflexivity.
Defined.

End FilePatterns.

(** ** The parser, further *)

Section MetricFileParserFurther.
Import Collate.

Lemma category_is_normal dtype c :
  In dtype (keys FILE_PATTERNS) -> In c (enumeration dtype) ->
  normalization dtype c = c.
Proof.
  intros Hd. apply keys_FILE_PATTERNS in Hd.
  repeat (destruct Hd as [-> | Hd]); [.. | subst dtype];
    intros Hc; simpl in Hc;
    repeat (destruct Hc as [<- | Hc]; [reflexivity|]); contradiction.
Qed.

(** X15. A table that parsing returns parses to itself: every category
    of every kind's enumeration is left as it is by the kind's
    normalization, and null stays null, so the rows of a parsed table,
    read again with their categories as series names, give the same
    table. *)
Theorem parse_idempotent (dtype : string) (cat : option string)
    (file : CsvFile) (lf : LazyFrame) :
  In dtype (keys FILE_PATTERNS) ->
  parse dtype file = Ok lf ->
  parse dtype (to_csv_rows cat lf) = Ok lf /\
  forall c, In c (enumeration dtype) -> normalization dtype c = c.
Proof.
  intros Hd H. split; [|intros c; now apply category_is_normal].
  destruct (parse_ok_table _ _ _ Hd H) as [-> Hall].
  assert (Hfix : forall r, In r file ->
            on_text (normalization dtype) (normalized dtype r)
            = normalized dtype r).
  { intros r Hr. rewrite List.Forall_forall in Hall. specialize (Hall r Hr).
    unfold normalized in *.
    destruct (csv_series_name r) as [s|]; [|reflexivity]. simpl. f_equal.
    apply category_is_normal; [exact Hd|]. now apply Hall. }
  rewrite (parse_shape _ _ Hd).
  assert (Hnone : first_offending dtype (to_csv_rows cat (metric_table dtype file))
                  = None).
  { unfold first_offending, to_csv_rows, metric_table. cbn [lf_rows].
    clear H. induction file as [|r file IH]; [reflexivity|].
    cbn [map find]. unfold normalized at 1. cbn [csv_series_name dimension].
    rewrite Hfix by now left.
    apply Forall_cons_iff in Hall as [Hr Hall].
    apply outside_spec in Hr. rewrite Hr.
    apply IH; [exact Hall|]. intros r' Hr'. apply Hfix. now right. }
  rewrite Hnone. f_equal. unfold metric_table, to_csv_rows. cbn [lf_rows].
  f_equal. rewrite !List.map_map.
  apply List.map_ext_in. intros r Hr. f_equal. exact (Hfix r Hr).
Qed.

Lemma parse_idempotent_witness :
  let file := [mkCsvRow 0 (Some "Self Schedule") (Some (3 # 1)%Q) (Some "x");
               mkCsvRow 0 (Some "($0, $15]") None (Some "y");
               mkCsvRow 0 None None None] in
  let lf := mkLazyFrame ["timestamp"; "service"; "volume"] BID_ENUM
              [mkMetricRow 0 (Some "self_schedule") (Some (3 # 1)%Q);
               mkMetricRow 0 (Some "($0, $15]") None;
               mkMetricRow 0 None None] in
  parse "ifm_bids" file = Ok lf /\
  parse "ifm_bids" (to_csv_rows None lf) = Ok lf /\
  forall c, In c (enumeration "ifm_bids") -> normalization "ifm_bids" c = c.
Proof.
  intros file lf. split; [reflexivity|].
  apply (parse_idempotent "ifm_bids" None file lf).
  - simpl. tauto.
  - reflexivity.
Defined.

Lemma normalized_lower dtype r r' :
  on_text str_to_lowercase (csv_series_name r)
  = on_text str_to_lowercase (csv_series_name r') ->
  normalized dtype r = normalized dtype r'.
Proof.
  unfold normalized, normalization, normalize_awards, normalize_bins.
  destruct (csv_series_name r) as [s|], (csv_series_name r') as [s'|];
    simpl; try discriminate; [|reflexivity].
  intros [= H]. destruct (awards_kind dtype); now rewrite H.
Qed.

(** X16. Parsing reads neither the case of the letters of a series name
    nor the [category] column: two files that agree line by line on the
    instant, the value and the lower-cased series name parse alike, to
    the same table or to the same error. *)
Theorem parse_ignores_case_and_category (dtype : string) (file file' : CsvFile) :
  In dtype (keys FILE_PATTERNS) ->
  same_up_to_case file file' ->
  parse dtype file = parse dtype file'.
Proof.
  intros Hd H. rewrite !(parse_shape _ _ Hd).
  unfold first_offending, metric_table.
  induction H as [|r r' file file' (Ht & Hn & Hv) _ IH]; [reflexivity|].
  pose proof (normalized_lower dtype _ _ Hn) as Hn'.
  cbn [find map]. rewrite !Hn'.
  destruct (outside (enumeration dtype) (normalized dtype r'));
    [now rewrite Hn'|].
  set (bad := fun r : CsvRow =>
                outside (enumeration dtype) (normalized dtype r)) in *.
  destruct (find bad file), (find bad file');
    try discriminate; try exact IH.
  injection IH as IH. rewrite Ht, Hv, IH. reflexivity.
Qed.

Lemma parse_ignores_case_and_category_witness :
  parse "state_of_charge" [mkCsvRow 0 (Some "IFM") (Some (5 # 1)%Q) (Some "IFM")]
  = parse "state_of_charge" [mkCsvRow 0 (Some "Ifm") (Some (5 # 1)%Q) (Some "day-ahead")].
Proof.
  apply (parse_ignores_case_and_category "state_of_charge").
  - simpl. tauto.
  - constructor; [|constructor]. repeat split.
Defined.

End MetricFileParserFurther.

(** ** The collated dataset *)

Section CollateDataset.
Import Collate.

Lemma find_app_first {A} (p : A -> bool) l l' :
  find p (l ++ l') =
  match find p l with
  | Some a => Some a
  | None => find p l'
  end.
Proof.
  induction l as [|a l IH]; simpl; [reflexivity|].
  destruct (p a); [reflexivity | exact IH].
Qed.

Lemma first_offending_app dtype file file' :
  first_offending dtype (file ++ file') =
  match first_offending dtype file with
  | Some r => Some r
  | None => first_offending dtype file'
  end.
Proof. apply find_app_first. Qed.

Lemma first_offending_None dtype lines :
  first_offending dtype lines = None <-> all_categories dtype lines.
Proof.
  unfold first_offending, all_categories.
  induction lines as [|r lines IH]; simpl.
  - split; [constructor | reflexivity].
  - destruct (outside (enumeration dtype) (normalized dtype r)) eqn:E.
    + split; [discriminate|]. intros H. inversion H as [|? ? Hr _]; subst.
      apply outside_spec in Hr. congruence.
    + rewrite IH. apply outside_spec in E. split.
      * intros H. now constructor.
      * intros H. now inversion H.
Qed.

Lemma mapM_parse_closed dtype files :
  In dtype (keys FILE_PATTERNS) ->
  mapM (parse dtype) files =
  match first_offending dtype (concat files) with
  | Some r => Err (InvalidOperationError (cell_text (normalized dtype r)))
  | None => Ok (map (metric_table dtype) files)
  end.
Proof.
  intros Hd. induction files as [|file files IH]; [reflexivity|].
  change (concat (file :: files)) with (file ++ concat files).
  rewrite first_offending_app.
  change (mapM (parse dtype) (file :: files))
    with (bind (parse dtype file)
            (fun b => bind (mapM (parse dtype) files) (fun bs => Ok (b :: bs)))).
  rewrite IH, (parse_shape _ _ Hd).
  destruct (first_offending dtype file); [reflexivity|].
  destruct (first_offending dtype (concat files)); reflexivity.
Qed.

Lemma metric_table_rows_concat dtype files :
  concat (map lf_rows (map (metric_table dtype) files))
  = lf_rows (metric_table dtype (concat files)).
Proof.
  induction files as [|file files IH]; [reflexivity|].
  change (concat (file :: files)) with (file ++ concat files).
  simpl. rewrite List.map_app. f_equal. exact IH.
Qed.

Lemma concat_metric_tables dtype files :
  files <> [] ->
  concat_vertical (map (metric_table dtype) files)
  = Ok (metric_table dtype (concat files)).
Proof.
  intros Hne. apply concat_vertical_Ok. split; [|split].
  - destruct files; [contradiction | discriminate].
  - intros f Hf. apply in_map_iff in Hf as (file & <- & _). split; reflexivity.
  - symmetry. apply metric_table_rows_concat.
Qed.

Lemma sort_metric_table dtype lines :
  sort (sort_columns dtype) (metric_table dtype lines)
  = Ok (mkLazyFrame ["timestamp"; dimension_name dtype; "volume"]
          (enumeration dtype)
          (sort_by (key_leb (enumeration dtype))
             (lf_rows (metric_table dtype lines)))).
Proof.
  unfold sort, sort_columns, metric_table, dimension_name.
  destruct (mem dtype ["energy_awards"; "state_of_charge"]); reflexivity.
Qed.

Lemma collate_closed_form fs dtype btype pattern_str root entries :
  getitem FILE_PATTERNS dtype = Some pattern_str ->
  root_of btype = Some root ->
  fs root = Some entries ->
  collected (collate fs dtype btype) =
  match first_offending dtype
          (concat (matching_files (re_compile pattern_str) entries)) with
  | Some r => Err (InvalidOperationError (cell_text (normalized dtype r)))
  | None =>
      match matching_files (re_compile pattern_str) entries with
      | [] => Err (ValueError "cannot concat empty list")
      | _ :: _ =>
          Ok (mkLazyFrame ["timestamp"; dimension_name dtype; "volume"]
                (enumeration dtype)
                (sort_by (key_leb (enumeration dtype))
                   (lf_rows
                      (metric_table dtype
                         (concat (matching_files (re_compile pattern_str)
                                    entries))))))
      end
  end.
Proof.
  intros Hp Hr Hfs.
  pose proof (getitem_Some_In _ _ _ Hp) as Hd.
  destruct (collate_result fs dtype btype root Hd Hr) as (p & Hp' & ->).
  rewrite Hp in Hp'. injection Hp' as <-. rewrite Hfs.
  rewrite (mapM_parse_closed _ _ Hd).
  destruct (first_offending dtype _); [reflexivity|].
  destruct (matching_files (re_compile pattern_str) entries) as [|file files] eqn:E;
    [reflexivity|].
  cbv beta iota delta [bind].
  rewrite concat_metric_tables by discriminate.
  apply sort_metric_table.
Qed.

(** X17. For a recognized kind and battery type whose directory exists,
    when the frame [collate] returns evaluates to a dataset, at least one
    file name matched, every series name of every matching file is null
    or normalizes to a category of the kind, and the rows of the dataset
    are the lines of all the matching files: one row per line, none
    dropped and none merged, in the order of the key
    [(timestamp, market-or-service)]. *)
Theorem collate_dataset (fs : FileSystem) (dtype btype pattern_str : string)
    (root : Root) (entries : list (string * CsvFile)) (lf : LazyFrame) :
  getitem FILE_PATTERNS dtype = Some pattern_str ->
  root_of btype = Some root ->
  fs root = Some entries ->
  collected (collate fs dtype btype) = Ok lf ->
  let files := matching_files (re_compile pattern_str) entries in
  files <> [] /\
  all_categories dtype (concat files) /\
  Permutation (lf_rows lf) (lf_rows (metric_table dtype (concat files))) /\
  StronglySorted (key_le (enumeration dtype)) (lf_rows lf) /\
  length (lf_rows lf) = length (concat files).
Proof.
  intros Hp Hr Hfs H. cbv zeta.
  rewrite (collate_closed_form fs dtype btype pattern_str root entries Hp Hr Hfs)
    in H.
  revert H.
  generalize (matching_files (re_compile pattern_str) entries) as files.
  intros files H.
  destruct (first_offending dtype (concat files)) as [r|] eqn:E;
    [discriminate|].
  apply first_offending_None in E.
  destruct files as [|file files']; [discriminate|].
  injection H as <-. cbn [lf_rows].
  assert (Hperm : Permutation
            (sort_by (key_leb (enumeration dtype))
               (lf_rows (metric_table dtype (concat (file :: files')))))
            (lf_rows (metric_table dtype (concat (file :: files'))))).
  { symmetry. apply sort_by_perm. }
  split; [discriminate|]. split; [exact E|]. split; [exact Hperm|]. split.
  - apply sort_by_sorted; [apply key_leb_total | apply key_leb_trans].
  - etransitivity; [exact (Permutation_length Hperm)|].
    unfold metric_table. cbn [lf_rows]. apply length_map.
Qed.

Lemma collate_dataset_witness :
  let fs : FileSystem := fun root =>
    match root with
    | STORAGE_ROOT =>
        Some [("20250102_Total State of Charge.csv",
               [mkCsvRow 20 (Some "RTD") (Some (2 # 1)%Q) None]);
              ("notes.txt", []);
              ("20250101_Total State of Charge.csv",
               [mkCsvRow 10 (Some "RTD") (Some (1 # 1)%Q) None;
                mkCsvRow 10 None None None])]
    | HYBRID_ROOT => None
    end in
  let files := [[mkCsvRow 20 (Some "RTD") (Some (2 # 1)%Q) None];
                [mkCsvRow 10 (Some "RTD") (Some (1 # 1)%Q) None;
                 mkCsvRow 10 None None None]] in
  let lf := mkLazyFrame ["timestamp"; "market"; "volume"] SOC_ENUM
              [mkMetricRow 10 None None;
               mkMetricRow 10 (Some "rtd") (Some (1 # 1)%Q);
               mkMetricRow 20 (Some "rtd") (Some (2 # 1)%Q)] in
  collected (collate fs "state_of_charge" "storage") = Ok lf /\
  files <> [] /\
  all_categories "state_of_charge" (concat files) /\
  Permutation (lf_rows lf)
    (lf_rows (metric_table "state_of_charge" (concat files))) /\
  StronglySorted (key_le (enumeration "state_of_charge")) (lf_rows lf) /\
  length (lf_rows lf) = length (concat files).
Proof.
  intros fs files lf. split; [reflexivity|].
  apply (collate_dataset fs "state_of_charge" "storage"
           "(\d{8})_Total State of Charge.csv" STORAGE_ROOT
           [("20250102_Total State of Charge.csv",
             [mkCsvRow 20 (Some "RTD") (Some (2 # 1)%Q) None]);
            ("notes.txt", []);
            ("20250101_Total State of Charge.csv",
             [mkCsvRow 10 (Some "RTD") (Some (1 # 1)%Q) None;
              mkCsvRow 10 None None None])] lf).
  - reflexivity.
  - reflexivity.
  - reflexivity.
  - reflexivity.
Defined.

End CollateDataset.

(** ** What [collate] reads *)

Section CollateEvents.
Import Collate.

Lemma fst_bindIO {A B} (m : IO A) (k : A -> IO B) :
  fst (bindIO m k) =
  fst m ++ match snd m with
           | Ok a => fst (k a)
           | Err _ => []
           end.
Proof.
  destruct m as [log [a|e]]; simpl.
  - destruct (k a); reflexivity.
  - now rewrite app_nil_r.
Qed.

Lemma matching_names_cons pattern csv_name csv entries :
  matching_names pattern ((csv_name, csv) :: entries) =
  if re_match pattern csv_name
  then csv_name :: matching_names pattern entries
  else matching_names pattern entries.
Proof.
  unfold matching_names. simpl. now destruct (re_match pattern csv_name).
Qed.

(** The files read by the loop: the matching names, in listing order. *)
Lemma scan_matching_log root pattern formatter entries frames :
  fst (scan_matching root pattern formatter entries frames)
  = map (ScanCsv root) (matching_names pattern entries).
Proof.
  revert frames.
  induction entries as [|[csv_name csv] entries IH]; intros frames.
  - reflexivity.
  - rewrite scan_matching_cons, matching_names_cons.
    destruct (re_match pattern csv_name); [|apply IH].
    rewrite fst_bindIO. cbn [emit fst snd app]. now rewrite IH.
Qed.

Lemma fst_pl_concat frames : fst (pl_concat frames) = [].
Proof. now destruct frames. Qed.

Lemma collate_run fs dtype btype pattern_str root :
  getitem FILE_PATTERNS dtype = Some pattern_str ->
  root_of btype = Some root ->
  fst (collate fs dtype btype) = full_log fs root (re_compile pattern_str).
Proof.
  intros Hp Hr.
  destruct (getattr_formatter dtype (getitem_Some_In _ _ _ Hp))
    as (formatter & Hg & _).
  assert (Hroot : (if String.eqb btype "storage" then ret STORAGE_ROOT
                   else if String.eqb btype "hybrid" then ret HYBRID_ROOT
                   else raise (ValueError
                          (quote btype ++ " is not a recognized battery type; must be one of "
                           ++ "'storage' or 'hybrid'"))) = ret root).
  { unfold root_of in Hr.
    destruct (String.eqb btype "storage"); [now injection Hr as <-|].
    destruct (String.eqb btype "hybrid"); [now injection Hr as <-|].
    discriminate. }
  unfold collate, full_log. rewrite Hp, Hroot, Hg.
  rewrite fst_bindIO. cbn [ret fst snd app].
  rewrite fst_bindIO. cbn [ret fst snd app].
  rewrite fst_bindIO. cbn [lift fst snd app].
  rewrite fst_bindIO. unfold iterdir at 1 2.
  rewrite fst_bindIO, snd_bindIO. cbn [emit fst snd app bind].
  destruct (fs root) as [entries|]; cbn [ret raise fst snd app]; [|reflexivity].
  f_equal. rewrite fst_bindIO, scan_matching_log, scan_matching_result.
  rewrite fst_bindIO, fst_pl_concat. cbn [app].
  destruct (snd (pl_concat _)); cbn [ret fst]; apply app_nil_r.
Qed.

(** X19. For a recognized kind and battery type, [collate] first lists
    the directory of that battery type, then reads files of that
    directory only, each under a name that matches the kind's pattern,
    in listing order: its events are a prefix of the listing followed by
    the matching names, and all of them when it returns a frame. The
    directory of the other battery type is never touched. *)
Theorem collate_reads_matching_files (fs : FileSystem)
    (dtype btype pattern_str : string) (root : Root) :
  getitem FILE_PATTERNS dtype = Some pattern_str ->
  root_of btype = Some root ->
  (exists log, fst (collate fs dtype btype) = Iterdir root :: log) /\
  (exists rest,
     fst (collate fs dtype btype) ++ rest
     = full_log fs root (re_compile pattern_str)) /\
  ((exists lf, snd (collate fs dtype btype) = Ok lf) ->
   fst (collate fs dtype btype) = full_log fs root (re_compile pattern_str)).
Proof.
  intros Hp Hr.
  rewrite (collate_run fs dtype btype pattern_str root Hp Hr).
  split; [unfold full_log; eauto | split].
  - exists []. apply app_nil_r.
  - reflexivity.
Qed.

Lemma collate_reads_matching_files_witness :
  let fs : FileSystem := fun root =>
    match root with
    | STORAGE_ROOT => None
    | HYBRID_ROOT =>
        Some [("20250102_IFM AS Awards.csv", [mkCsvRow 20 (Some "Spin") None None]);
              ("20250102_FMM AS Awards.csv", [mkCsvRow 20 (Some "Spin") None None]);
              ("20250101_IFM AS Awards.csv", [mkCsvRow 10 (Some "Non Spin") None None])]
    end in
  collate fs "ifm_as_awards" "hybrid"
  = ([Iterdir HYBRID_ROOT;
      ScanCsv HYBRID_ROOT "20250102_IFM AS Awards.csv";
      ScanCsv HYBRID_ROOT "20250101_IFM AS Awards.csv"],
     Ok (Ok (mkLazyFrame ["timestamp"; "service"; "volume"] AS_ENUM
               [mkMetricRow 10 (Some "non_spin") None;
                mkMetricRow 20 (Some "spin") None]))) /\
  (exists log, fst (collate fs "ifm_as_awards" "hybrid") = Iterdir HYBRID_ROOT :: log) /\
  (exists rest,
     fst (collate fs "ifm_as_awards" "hybrid") ++ rest
     = full_log fs HYBRID_ROOT (re_compile "(\d{8})_IFM AS Awards.csv")) /\
  ((exists lf, snd (collate fs "ifm_as_awards" "hybrid") = Ok lf) ->
   fst (collate fs "ifm_as_awards" "hybrid")
   = full_log fs HYBRID_ROOT (re_compile "(\d{8})_IFM AS Awards.csv")).
Proof.
  intros fs. split; [reflexivity|].
  apply (collate_reads_matching_files fs "ifm_as_awards" "hybrid"
           "(\d{8})_IFM AS Awards.csv" HYBRID_ROOT).
  - reflexivity.
  - reflexivity.
Defined.

End CollateEvents.

(** ** The export of every kind *)

Section ExportRun.
Import Collate CollateMain.

Lemma sunk_app log log' : sunk (log ++ log') = sunk log ++ sunk log'.
Proof. unfold sunk. apply flat_map_app. Qed.

Lemma sunk_collating log : sunk (map Collating log) = [].
Proof. induction log as [|ev log IH]; [reflexivity | exact IH]. Qed.

Lemma attempted_app log log' :
  attempted (log ++ log') = attempted log ++ attempted log'.
Proof. unfold attempted. apply flat_map_app. Qed.

Lemma attempted_collating log : attempted (map Collating log) = [].
Proof. induction log as [|ev log IH]; [reflexivity | exact IH]. Qed.

Lemma export_cons fs dtype dtypes :
  export fs (dtype :: dtypes) =
  match collate fs dtype "storage" with
  | (log, Err e) => (map Collating log, Err e)
  | (log, Ok (Err e)) =>
      (map Collating log ++ [SinkParquet (dtype ++ ".parquet") (Err e)], Err e)
  | (log, Ok (Ok d)) =>
      (map Collating log
         ++ SinkParquet (dtype ++ ".parquet") (Ok d) :: fst (export fs dtypes),
       snd (export fs dtypes))
  end.
Proof.
  cbn [export]. destruct (collate fs dtype "storage") as [log [[d|e]|e]];
    try reflexivity.
  cbn. destruct (export fs dtypes); reflexivity.
Qed.

Lemma export_ok fs dtype dtypes d :
  collected (collate fs dtype "storage") = Ok d ->
  snd (export fs (dtype :: dtypes)) = snd (export fs dtypes) /\
  sunk (fst (export fs (dtype :: dtypes)))
  = (dtype ++ ".parquet", d)%string :: sunk (fst (export fs dtypes)) /\
  attempted (fst (export fs (dtype :: dtypes)))
  = (dtype ++ ".parquet")%string :: attempted (fst (export fs dtypes)).
Proof.
  unfold collected. intros H. rewrite export_cons.
  destruct (collate fs dtype "storage") as [log [[d'|e]|e]];
    cbn [snd bind] in H; try discriminate.
  injection H as ->. cbn [fst snd]. split; [reflexivity|].
  rewrite sunk_app, sunk_collating, attempted_app, attempted_collating.
  split; reflexivity.
Qed.

Lemma export_err fs dtype dtypes e :
  collected (collate fs dtype "storage") = Err e ->
  snd (export fs (dtype :: dtypes)) = Err e /\
  sunk (fst (export fs (dtype :: dtypes))) = [] /\
  attempted (fst (export fs (dtype :: dtypes)))
  = match snd (collate fs dtype "storage") with
    | Ok _ => [(dtype ++ ".parquet")%string]
    | Err _ => []
    end.
Proof.
  unfold collected. intros H. rewrite export_cons.
  destruct (collate fs dtype "storage") as [log [[d'|e']|e']];
    cbn [snd bind] in H; try discriminate; injection H as ->; cbn [fst snd].
  - rewrite sunk_app, sunk_collating, attempted_app, attempted_collating.
    repeat split.
  - rewrite sunk_collating, attempted_collating. repeat split.
Qed.

Lemma export_first_failure fs done dtype rest e :
  (forall k, In k done -> collates fs k) ->
  collected (collate fs dtype "storage") = Err e ->
  snd (export fs (done ++ dtype :: rest)) = Err e /\
  Forall2 (exported fs) done (sunk (fst (export fs (done ++ dtype :: rest)))) /\
  attempted (fst (export fs (done ++ dtype :: rest)))
  = map (fun k => (k ++ ".parquet")%string) done
    ++ match snd (collate fs dtype "storage") with
       | Ok _ => [(dtype ++ ".parquet")%string]
       | Err _ => []
       end.
Proof.
  intros Hdone He. induction done as [|k done IH].
  - change ([] ++ dtype :: rest) with (dtype :: rest).
    destruct (export_err fs dtype rest e He) as (-> & -> & ->).
    split; [reflexivity|]. split; [constructor | reflexivity].
  - destruct (Hdone k (or_introl eq_refl)) as [d Hk].
    change ((k :: done) ++ dtype :: rest) with (k :: (done ++ dtype :: rest)).
    destruct (export_ok fs k (done ++ dtype :: rest) d Hk) as (-> & -> & ->).
    destruct IH as (IH1 & IH2 & IH3); [intros k' Hk'; apply Hdone; now right|].
    split; [exact IH1|]. split.
    + constructor; [|exact IH2]. split; [reflexivity | exact Hk].
    + rewrite IH3. reflexivity.
Qed.

Lemma export_all fs dtypes :
  (snd (export fs dtypes) = Ok tt <-> forall k, In k dtypes -> collates fs k) /\
  (snd (export fs dtypes) = Ok tt ->
   Forall2 (exported fs) dtypes (sunk (fst (export fs dtypes)))).
Proof.
  induction dtypes as [|k dtypes [IH1 IH2]].
  - split; [split; [intros _ k [] | reflexivity] | constructor].
  - destruct (collected (collate fs k "storage")) as [d|e] eqn:Hk.
    + destruct (export_ok fs k dtypes d Hk) as (-> & -> & _). split.
      * rewrite IH1. split.
        -- intros H k' [<- | Hk']; [now exists d | now apply H].
        -- intros H k' Hk'. apply H. now right.
      * intros H. constructor; [split; [reflexivity | exact Hk] | now apply IH2].
    + destruct (export_err fs k dtypes e Hk) as (-> & -> & _). split.
      * split; [discriminate|]. intros H.
        destruct (H k (or_introl eq_refl)) as [d Hd]. congruence.
      * discriminate.
Qed.

Lemma main_export fs :
  fst (main fs) = Mkdir SINK :: fst (export fs (keys FILE_PATTERNS)) /\
  snd (main fs) = snd (export fs (keys FILE_PATTERNS)).
Proof.
  unfold main. destruct (export fs (keys FILE_PATTERNS)); split; reflexivity.
Qed.

(** X20. The export stops at the first metric kind that has no
    dataset, whether [collate] raises for it or its frame fails when
    [sink_parquet] evaluates it: the export ends with that kind's error;
    the kinds before it in [FILE_PATTERNS] have been exported, each to
    [<kind>.parquet], in that order, and no other call of [sink_parquet]
    has gone through; [sink_parquet] is called for no kind after it, and
    for the failing kind only when [collate] had returned a frame. The
    sink directory is created before anything is read. *)
Theorem main_stops_at_first_failure (fs : FileSystem)
    (done rest : list string) (dtype : string) (e : error) :
  keys FILE_PATTERNS = done ++ dtype :: rest ->
  (forall k, In k done -> collates fs k) ->
  collected (collate fs dtype "storage") = Err e ->
  snd (main fs) = Err e /\
  Forall2 (exported fs) done (sunk (fst (main fs))) /\
  attempted (fst (main fs))
  = map (fun k => (k ++ ".parquet")%string) done
    ++ match snd (collate fs dtype "storage") with
       | Ok _ => [(dtype ++ ".parquet")%string]
       | Err _ => []
       end /\
  exists log, fst (main fs) = Mkdir SINK :: log.
Proof.
  intros Hkeys Hdone He.
  destruct (main_export fs) as [-> ->]. rewrite Hkeys.
  destruct (export_first_failure fs done dtype rest e Hdone He)
    as (H1 & H2 & H3).
  split; [exact H1|]. split; [exact H2|]. split; [exact H3 | eauto].
Qed.

(** A good file of FMM AS awards and a file of FMM bids with a series
    that is no category: the frame of the bids is built, and fails when
    it is written. *)
Lemma main_stops_at_first_failure_witness :
  let fs : FileSystem := fun root =>
    match root with
    | STORAGE_ROOT =>
        Some [("20250101_FMM AS Awards.csv",
               [mkCsvRow 10 (Some "Spin") None None]);
              ("20250101_FMM Energy Bid In Capacity - Charge.csv",
               [mkCsvRow 10 (Some "Flex Ramp") None None]);
              ("20250101_Total State of Charge.csv",
               [mkCsvRow 10 (Some "RTD") None None])]
    | HYBRID_ROOT => None
    end in
  let e := InvalidOperationError "flex ramp" in
  sunk (fst (main fs))
  = [("fmm_as_awards.parquet",
      mkLazyFrame ["timestamp"; "service"; "volume"] AS_ENUM
        [mkMetricRow 10 (Some "spin") None])] /\
  snd (main fs) = Err e /\
  Forall2 (exported fs) ["fmm_as_awards"] (sunk (fst (main fs))) /\
  attempted (fst (main fs))
  = map (fun k => (k ++ ".parquet")%string) ["fmm_as_awards"]
    ++ match snd (collate fs "fmm_bids" "storage") with
       | Ok _ => ["fmm_bids.parquet"]
       | Err _ => []
       end /\
  exists log, fst (main fs) = Mkdir SINK :: log.
Proof.
  intros fs e. split; [reflexivity|].
  apply (main_stops_at_first_failure fs ["fmm_as_awards"]
           ["fmm_offers"; "ifm_as_awards"; "ifm_bids"; "ifm_offers";
            "energy_awards"; "state_of_charge"] "fmm_bids" e).
  - reflexivity.
  - intros k [<- | []]. unfold collates. eexists. reflexivity.
  - reflexivity.
Defined.

(** X21. The export ends without error exactly when [collate] returns a
    dataset for each of the eight metric kinds on the storage
    directory; it has then written eight files, one per kind in the
    order of [FILE_PATTERNS], each named [<kind>.parquet] and holding
    that kind's dataset. *)
Theorem main_exports_every_kind (fs : FileSystem) :
  (snd (main fs) = Ok tt <->
   forall k, In k (keys FILE_PATTERNS) -> collates fs k) /\
  (snd (main fs) = Ok tt ->
   Forall2 (exported fs) (keys FILE_PATTERNS) (sunk (fst (main fs))) /\
   map fst (sunk (fst (main fs)))
   = ["fmm_as_awards.parquet"; "fmm_bids.parquet"; "fmm_offers.parquet";
      "ifm_as_awards.parquet"; "ifm_bids.parquet"; "ifm_offers.parquet";
      "energy_awards.parquet"; "state_of_charge.parquet"]).
Proof.
  destruct (main_export fs) as [-> ->].
  destruct (export_all fs (keys FILE_PATTERNS)) as [H1 H2].
  split; [exact H1|]. intros H. specialize (H2 H). split; [exact H2|].
  cbn [sunk]. change (sunk (Mkdir SINK :: ?l)) with (sunk l) in *.
  revert H2. generalize (sunk (fst (export fs (keys FILE_PATTERNS)))).
  intros l H2.
  change (keys FILE_PATTERNS)
    with ["fmm_as_awards"; "fmm_bids"; "fmm_offers"; "ifm_as_awards";
          "ifm_bids"; "ifm_offers"; "energy_awards"; "state_of_charge"] in H2.
  repeat match goal with
         | H : Forall2 _ (_ :: _) _ |- _ =>
             inversion H as [|? [? ?] ? ? [Hn _] ?]; subst; clear H;
             cbn [fst] in Hn; subst
         | H : Forall2 _ [] _ |- _ => inversion H; subst; clear H
         end.
  reflexivity.
Qed.

End ExportRun.
